(** * Turno API: shift records, validation rules, Excel import and statistics

    A shallow embedding of the TypeScript sources

    - [utils/date.ts]            (LocalizedDate, normalizeDateInput)
    - [models/turno.model.ts]    (zod schemas, generateTurnoId, createTurnoDocument)
    - [repositories/turno.repository.ts]       (TurnoRepository)
    - [repositories/turno.json.repository.ts]  (JsonTurnoRepository)
    - [services/turno.service.ts]              (TurnoService)
    - the Excel mapping helpers                (mapExcelRowToTurno, mapExcelRowsToTurnos)
    - [controllers/turno.controller.ts]        (the validation before the service)

    followed by the properties of the behavioural specification, each
    proved or refuted against the embedding.

    Conventions.  A JavaScript string is a [string] of 8-bit characters
    (UTF-8 for the few non-ASCII literals of the sources).  An object
    property is a [prop]: not an own property, an own property holding
    [undefined], or an own property holding a value; spreading and JSON
    serialisation are written out on that type.  The Cosmos container, the
    wall clock and the storage failures live in an explicit [World] that
    every asynchronous method threads through. *)

From Stdlib Require Import ZArith Lia DecimalString Ascii.
From stdpp Require Import gmap strings list fin_maps sorting.

(* ===================================================================== *)
(** * JavaScript built-ins used by the sources *)
(* ===================================================================== *)

Module JS.

Definition chars (s : string) : list ascii := String.list_ascii_of_string s.
Definition str (l : list ascii) : string := String.string_of_list_ascii l.

(** [\d] *)
Definition isDigit (c : ascii) : bool :=
  let n := nat_of_ascii c in (48 <=? n)%nat && (n <=? 57)%nat.

(** [\s], restricted to the ASCII white space (TAB, LF, VT, FF, CR, SP). *)
Definition isSpace (c : ascii) : bool :=
  let n := nat_of_ascii c in
  ((9 <=? n)%nat && (n <=? 13)%nat) || (n =? 32)%nat.

Fixpoint trimStart (l : list ascii) : list ascii :=
  match l with
  | c :: r => if isSpace c then trimStart r else l
  | [] => []
  end.

(** [String.prototype.trim] *)
Definition trim (s : string) : string :=
  str (rev (trimStart (rev (trimStart (chars s))))).

(** [String.prototype.toLowerCase] on ASCII letters and on the two-byte
    UTF-8 encodings of the Latin-1 capitals (U+00C0..U+00DE except
    U+00D7); every other character is left as it is. *)
Fixpoint lowerFrom (afterC3 : bool) (l : list ascii) : list ascii :=
  match l with
  | [] => []
  | c :: r =>
      let n := nat_of_ascii c in
      if afterC3 then
        (if (128 <=? n)%nat && (n <=? 158)%nat && negb (n =? 151)%nat
         then ascii_of_nat (n + 32) else c) :: lowerFrom false r
      else if (65 <=? n)%nat && (n <=? 90)%nat
        then ascii_of_nat (n + 32) :: lowerFrom false r
      else c :: lowerFrom (n =? 195)%nat r
  end.

Definition toLowerCase (s : string) : string := str (lowerFrom false (chars s)).

(** Truthiness of a string: the empty string is falsy. *)
Definition truthy (s : string) : bool := negb (String.eqb s "").

(** [String.prototype.split] with a one-character separator. *)
Fixpoint splitChars (sep : ascii) (cur : list ascii) (l : list ascii)
  : list (list ascii) :=
  match l with
  | [] => [rev cur]
  | c :: r =>
      if Ascii.eqb c sep then rev cur :: splitChars sep [] r
      else splitChars sep (c :: cur) r
  end.

Definition split (sep : ascii) (s : string) : list string :=
  map str (splitChars sep [] (chars s)).

Definition digitVal (c : ascii) : nat := nat_of_ascii c - 48.

(** Value of a string of decimal digits, most significant first. *)
Definition digitsVal (l : list ascii) : nat :=
  fold_left (fun acc c => 10 * acc + digitVal c) l 0.

(** [parseInt] on the captures of a [\d]-only group. *)
Definition parseInt (digits : list ascii) : nat := digitsVal digits.

(** [Number(s)]: the empty string is 0, a string of decimal digits is its
    value, and anything else is [NaN] ([None]).  The signed, fractional,
    hexadecimal and white-space padded literals that [Number] also reads
    are not modelled; no such string passes the pattern that guards the
    only call site. *)
Definition Number (s : string) : option Z :=
  if forallb isDigit (chars s) then Some (Z.of_nat (digitsVal (chars s)))
  else None.

(** [Number.prototype.toString] for integers. *)
Definition natToString (n : nat) : string :=
  NilEmpty.string_of_uint (Nat.to_uint n).
Definition intToString (z : Z) : string :=
  NilEmpty.string_of_int (Z.to_int z).

(** [String.prototype.padStart] with a one-character filler. *)
Definition padStart (target : nat) (fill : ascii) (s : string) : string :=
  str (repeat fill (target - String.length s)) +:+ s.

(** [String.prototype.startsWith] *)
Definition startsWith (p s : string) : bool := String.prefix p s.

(** ** [Date] as a civil local date

    [new Date(year, monthIndex, day)] followed by [getFullYear],
    [getMonth] and [getDate] stays within local time, so a date is
    modelled by its day number in the proleptic Gregorian calendar
    (days since 1970-01-01); [None] is the invalid date.  The time zone
    of the process and the range of [Date] are left out: a local day that
    the zone skips and a day more than 100,000,000 days away from
    1970-01-01 are read like any other day. *)

Definition daysFromCivil (y m d : Z) : Z :=
  let y' := if (m <=? 2)%Z then (y - 1)%Z else y in
  let era := (y' / 400)%Z in
  let yoe := (y' - era * 400)%Z in
  let mp := if (m >? 2)%Z then (m - 3)%Z else (m + 9)%Z in
  let doy := ((153 * mp + 2) / 5 + d - 1)%Z in
  let doe := (yoe * 365 + yoe / 4 - yoe / 100 + doy)%Z in
  (era * 146097 + doe - 719468)%Z.

(** Year, month (1..12) and day of month of a day number. *)
Definition civilFromDays (n : Z) : Z * Z * Z :=
  let z := (n + 719468)%Z in
  let era := (z / 146097)%Z in
  let doe := (z - era * 146097)%Z in
  let yoe := ((doe - doe / 1460 + doe / 36524 - doe / 146096) / 365)%Z in
  let doy := (doe - (365 * yoe + yoe / 4 - yoe / 100))%Z in
  let mp := ((5 * doy + 2) / 153)%Z in
  let d := (doy - (153 * mp + 2) / 5 + 1)%Z in
  let m := if (mp <? 10)%Z then (mp + 3)%Z else (mp - 9)%Z in
  let y := (yoe + era * 400)%Z in
  (if (m <=? 2)%Z then (y + 1)%Z else y, m, d).

(** [new Date(year, monthIndex, day)]: years 0..99 mean 1900..1999, the
    month index and the day overflow into the neighbouring months. *)
Definition Date_ymd (year monthIndex day : option Z) : option Z :=
  match year, monthIndex, day with
  | Some y, Some mi, Some d =>
      let yr := if (0 <=? y)%Z && (y <=? 99)%Z then (1900 + y)%Z else y in
      let ym := (yr + mi / 12)%Z in
      let mn := (mi mod 12)%Z in
      Some (daysFromCivil ym (mn + 1) 1 + d - 1)%Z
  | _, _, _ => None
  end.

Definition getFullYear (t : option Z) : option Z :=
  (fun n => fst (fst (civilFromDays n))) <$> t.
(** [getMonth] is zero-based. *)
Definition getMonth (t : option Z) : option Z :=
  (fun n => snd (fst (civilFromDays n)) - 1)%Z <$> t.
Definition getDate (t : option Z) : option Z :=
  (fun n => snd (civilFromDays n)) <$> t.

(** [n.toString()] of a possibly-NaN number. *)
Definition numToString (n : option Z) : string :=
  match n with Some z => intToString z | None => "NaN" end.

(** ** A plain object used as a table of counters

    The value of a property of an object created by [{}] whose properties
    are only ever written by [o[k] = (o[k] || 0) + 1]: a number, or a
    string once the addition has met something that is not a number. *)
Inductive counter :=
  | CNum (n : nat)
  | CStr (s : string).

(** The properties of [Object.prototype] that hold functions; every plain
    object inherits them, and [__proto__], which is an accessor. *)
Definition prototypeFunctions : list string :=
  ["constructor"; "__defineGetter__"; "__defineSetter__"; "hasOwnProperty";
   "__lookupGetter__"; "__lookupSetter__"; "isPrototypeOf";
   "propertyIsEnumerable"; "toString"; "valueOf"; "toLocaleString"].

(** [String(f)] of the built-in function held under that name, as V8
    prints it; [constructor] holds the function [Object]. *)
Definition nativeText (name : string) : string :=
  "function "
  +:+ (if String.eqb name "constructor" then "Object" else name)
  +:+ "() { [native code] }".

(** [o[k] = (o[k] || 0) + 1] on the own properties [o] of a plain object.
    Reading [__proto__] gives [Object.prototype], and the assignment of the
    string that the addition makes of it is ignored by the setter; an
    inherited function is truthy and the addition turns it into its text
    followed by ["1"], which becomes an own property; a string counter gets
    another ["1"] appended. *)
Definition increment (o : gmap string counter) (k : string) : gmap string counter :=
  if String.eqb k "__proto__" then o
  else
    match o !! k with
    | Some (CNum n) => <[k := CNum (n + 1)]> o
    | Some (CStr s) =>
        if truthy s then <[k := CStr (s +:+ "1")]> o else <[k := CNum 1]> o
    | None =>
        if bool_decide (k ∈ prototypeFunctions)
        then <[k := CStr (nativeText k +:+ "1")]> o
        else <[k := CNum 1]> o
    end.

End JS.

(* ===================================================================== *)
(** * Errors and object properties *)
(* ===================================================================== *)

(** One entry of [ZodError.issues]: the path of the field and the message. *)
Record issue := Issue { path : string; message : string }.

(** The exceptions the sources throw or let through; each constructor
    stands for one message template. *)
Inductive error :=
  | InvalidDateFormat (input : string)
      (** "Formato de fecha no válido: <input>. Use YYYY-MM-DD o ..." *)
  | InvalidExcelDate (cleaned : string)   (** "Invalid date format: <cleaned>" *)
  | InvalidTime (cleaned : string)        (** "Invalid time format: <cleaned>" *)
  | ZodError (issues : list issue)
  | DatosInvalidos (issues : list issue)  (** "Datos inválidos: <messages>" *)
  | ConflictingState
      (** "No se puede tener un turno específico y marcar como vacaciones ..." *)
  | IncompleteTimeRange
      (** "Debe proporcionar tanto la hora de inicio como la hora de fin ..." *)
  | InvalidTimeOrder
      (** "La hora de inicio debe ser anterior a la hora de fin ..." *)
  | AlreadyExists (fecha : string)        (** "Ya existe un turno para la fecha <fecha>" *)
  | CosmosError (code : nat)              (** an SDK error carrying [error.code] *)
  | BulkSaveError.                        (** "Error al guardar los datos en la base de datos" *)

Inductive Result (A : Type) :=
  | Ok (a : A)
  | Err (e : error).
Arguments Ok {A} a.
Arguments Err {A} e.

(** An object property: absent, own but [undefined], or own with a value. *)
Inductive prop (A : Type) :=
  | Missing
  | Undefined
  | Value (a : A).
Arguments Missing {A}.
Arguments Undefined {A}.
Arguments Value {A} a.

(** Reading [obj.p]: both [Missing] and [Undefined] read as [undefined]. *)
Definition get {A} (p : prop A) : option A :=
  match p with Value a => Some a | _ => None end.

(** [{...base, p: over.p}] for one property: an own property of the later
    object wins even when it holds [undefined]; the result is what JSON
    serialisation keeps of it. *)
Definition spread {A} (base : option A) (over : prop A) : option A :=
  match over with
  | Missing => base
  | Undefined => None
  | Value a => Some a
  end.

(** Truthiness of an optional string: [undefined] and [""] are falsy. *)
Definition truthyStr (o : option string) : bool :=
  match o with Some s => JS.truthy s | None => false end.

(* ===================================================================== *)
(** * utils/date.ts *)
(* ===================================================================== *)

Record LocaleConfig := {
  timezone : string;
  locale : string;
  weekStartsOn : option nat
}.

Definition ARGENTINA_TIMEZONE : string := "America/Argentina/Buenos_Aires".
Definition ARGENTINA_LOCALE : string := "es-AR".

(** The pattern [^\d{4}-\d{2}-\d{2}$]. *)
Definition isoDateRegex (s : string) : bool :=
  match JS.chars s with
  | [y1; y2; y3; y4; h1; m1; m2; h2; d1; d2] =>
      forallb JS.isDigit [y1; y2; y3; y4; m1; m2; d1; d2]
      && Ascii.eqb h1 "-" && Ascii.eqb h2 "-"
  | _ => false
  end.

(** [\d{1,2}] as a backtracking matcher: the captures and remainders it can
    produce, the greedy one first. *)
Definition digits12 (l : list ascii) : list (list ascii * list ascii) :=
  match l with
  | a :: b :: r =>
      if JS.isDigit a then
        (if JS.isDigit b then [([a; b], r)] else []) ++ [([a], b :: r)]
      else []
  | [a] => if JS.isDigit a then [([a], [])] else []
  | [] => []
  end.

(** [\d{n}] *)
Definition digitsN (n : nat) (l : list ascii) : list (list ascii * list ascii) :=
  if (n <=? length l)%nat && forallb JS.isDigit (take n l)
  then [(take n l, drop n l)] else [].

(** One character out of a class. *)
Definition oneOf (cls : list ascii) (l : list ascii) : list (list ascii) :=
  match l with
  | c :: r => if existsb (Ascii.eqb c) cls then [r] else []
  | [] => []
  end.

(** [$] *)
Definition atEnd {A} (x : A) (l : list ascii) : list A :=
  match l with [] => [x] | _ => [] end.

(** The pattern [^\d{1,2}\/\d{1,2}\/\d{4}$]. *)
Definition shortDateRegex (s : string) : bool :=
  match
    '(_, r1) ← digits12 (JS.chars s);
    r2 ← oneOf ["/"%char] r1;
    '(_, r3) ← digits12 r2;
    r4 ← oneOf ["/"%char] r3;
    '(_, r5) ← digitsN 4 r4;
    atEnd tt r5
  with
  | _ :: _ => true
  | [] => false
  end.

Module LocalizedDate.

Record t := {
  date : option Z;        (** the wrapped [Date], see [JS.Date_ymd] *)
  config : LocaleConfig
}.

(** [new LocalizedDate(date, config)] for a [Date] argument. *)
Definition ofDate (global : LocaleConfig) (d : option Z)
           (config : option LocaleConfig) : t :=
  {| date := d; config := default global config |}.

Definition getZ (l : list string) (i : nat) : option Z :=
  match l !! i with Some s => JS.Number s | None => None end.

Definition fromShort (global : LocaleConfig) (dateStr : string)
           (config : option LocaleConfig) : t :=
  let localeConfig := default global config in
  let parts := JS.split "/" dateStr in
  if JS.startsWith "en-US" (locale localeConfig) then
    let month := getZ parts 0 in
    let day := getZ parts 1 in
    let year := getZ parts 2 in
    ofDate global (JS.Date_ymd year ((fun m => m - 1)%Z <$> month) day) config
  else
    let day := getZ parts 0 in
    let month := getZ parts 1 in
    let year := getZ parts 2 in
    ofDate global (JS.Date_ymd year ((fun m => m - 1)%Z <$> month) day) config.

Definition year (d : t) : option Z := JS.getFullYear (date d).
Definition month (d : t) : option Z := (fun m => m + 1)%Z <$> JS.getMonth (date d).
Definition day (d : t) : option Z := JS.getDate (date d).

Definition formatISO (d : t) : string :=
  let y := JS.padStart 4 "0" (JS.numToString (year d)) in
  let m := JS.padStart 2 "0" (JS.numToString (month d)) in
  let dd := JS.padStart 2 "0" (JS.numToString (day d)) in
  y +:+ "-" +:+ m +:+ "-" +:+ dd.

End LocalizedDate.

(** [normalizeDateInput(input, config)]; [global] is the module-level
    [globalLocaleConfig] the function falls back to. *)
Definition normalizeDateInput (global : LocaleConfig) (input : string)
           (config : option LocaleConfig) : Result string :=
  if isoDateRegex input then Ok input
  else if shortDateRegex input then
    Ok (LocalizedDate.formatISO (LocalizedDate.fromShort global input config))
  else Err (InvalidDateFormat input).

(* ===================================================================== *)
(** * models/turno.model.ts *)
(* ===================================================================== *)

(** [TurnoDocument] as the container stores and returns it: a JSON
    document, in which an optional property is either there or not.  The
    bookkeeping properties Cosmos adds ([_rid], [_etag], [_ts], ...) are no
    part of the model. *)
Record TurnoDocument := {
  id : string;
  fecha : string;
  turno : option string;
  startShift : option string;
  endShift : option string;
  esVacaciones : bool;
  notas : option string;
  personaId : option string;
  createdAt : string;
  updatedAt : string
}.

(** The value a caller hands to [turnoInsertSchema.parse], with the types
    the signature of [upsertTurno] gives its properties. *)
Record TurnoInput := {
  in_fecha : prop string;
  in_turno : prop string;
  in_startShift : prop string;
  in_endShift : prop string;
  in_esVacaciones : prop bool;
  in_notas : prop string;
  in_personaId : prop string
}.

(** [TurnoInsert], the output type of [turnoInsertSchema]. *)
Record TurnoInsert := {
  i_fecha : string;
  i_turno : prop string;
  i_startShift : prop string;
  i_endShift : prop string;
  i_esVacaciones : bool;
  i_notas : string;
  i_personaId : prop string
}.

(** [TurnoUpdate], the output type of [turnoInsertSchema.partial()]. *)
Record TurnoUpdate := {
  u_fecha : option string;
  u_turno : prop string;
  u_startShift : prop string;
  u_endShift : prop string;
  u_esVacaciones : option bool;
  u_notas : option string;
  u_personaId : prop string
}.

(** A [TurnoInsert] passed where a [TurnoUpdate] is expected. *)
Definition asUpdate (data : TurnoInsert) : TurnoUpdate :=
  {| u_fecha := Some (i_fecha data);
     u_turno := i_turno data;
     u_startShift := i_startShift data;
     u_endShift := i_endShift data;
     u_esVacaciones := Some (i_esVacaciones data);
     u_notas := Some (i_notas data);
     u_personaId := i_personaId data |}.

(** The pattern [^([01]\d|2[0-3]):([0-5]\d)$]. *)
Definition time24Regex (s : string) : bool :=
  match JS.chars s with
  | [h1; h2; c; m1; m2] =>
      ((existsb (Ascii.eqb h1) ["0"; "1"]%char && JS.isDigit h2)
       || (Ascii.eqb h1 "2" && existsb (Ascii.eqb h2) ["0"; "1"; "2"; "3"]%char))
      && Ascii.eqb c ":"
      && existsb (Ascii.eqb m1) ["0"; "1"; "2"; "3"; "4"; "5"]%char
      && JS.isDigit m2
  | _ => false
  end.

Definition turnoEnum : list string := ["mañana"; "tarde"; "noche"].

Definition msgFecha : string := "Formato de fecha debe ser YYYY-MM-DD".
Definition msgHora : string := "Formato de hora debe ser HH:MM (24 horas)".
Definition msgRequired : string := "Required".
(** The text zod gives a string outside the enumeration. *)
Definition msgEnum (received : string) : string :=
  "Invalid enum value. Expected 'mañana' | 'tarde' | 'noche', received '"
  +:+ received +:+ "'".
(** The text zod gives a value that no member of a union accepts. *)
Definition msgUnion : string := "Invalid input".

(** [z.string().regex(re, msg)] on a required property. *)
Definition zRegex (re : string -> bool) (msg : string) (name : string)
           (p : prop string) : list issue * string :=
  match p with
  | Value s => if re s then ([], s) else ([Issue name msg], s)
  | _ => ([Issue name msgRequired], "")
  end.

(** [z.string().regex(re, msg).optional()] and [z.enum(..).optional()]:
    an absent property stays absent in the output object, an own
    [undefined] stays an own [undefined]. *)
Definition zOptional (ok : string -> bool) (msg : string -> string)
           (name : string) (p : prop string) : list issue * prop string :=
  match p with
  | Value s => if ok s then ([], p) else ([Issue name (msg s)], p)
  | _ => ([], p)
  end.

(** [.default(d)] *)
Definition zDefault {A} (d : A) (p : prop A) : A :=
  match p with Value a => a | _ => d end.

Module turnoInsertSchema.

(** [turnoInsertSchema.parse(data)]: every property is checked, in the
    order of the schema, and the issues are collected.  The body holds
    strings under [personaId], which [z.string()] accepts as they are. *)
Definition parse (data : TurnoInput) : Result TurnoInsert :=
  let '(e1, f) := zRegex isoDateRegex msgFecha "fecha" (in_fecha data) in
  let '(e2, t) :=
    zOptional (fun s => bool_decide (s ∈ turnoEnum)) msgEnum "turno" (in_turno data) in
  let '(e3, s) :=
    zOptional time24Regex (fun _ => msgHora) "startShift" (in_startShift data) in
  let '(e4, e) :=
    zOptional time24Regex (fun _ => msgHora) "endShift" (in_endShift data) in
  let '(e5, p) :=
    zOptional (fun _ => true) (fun _ => "") "personaId" (in_personaId data) in
  match e1 ++ e2 ++ e3 ++ e4 ++ e5 with
  | [] =>
      Ok {| i_fecha := f; i_turno := t; i_startShift := s; i_endShift := e;
            i_esVacaciones := zDefault false (in_esVacaciones data);
            i_notas := zDefault "" (in_notas data);
            i_personaId := p |}
  | issues => Err (ZodError issues)
  end.

End turnoInsertSchema.

(** [generateTurnoId(fecha, personaId)] *)
Definition generateTurnoId (fecha : string) (personaId : option string) : string :=
  if truthyStr personaId then fecha +:+ "_" +:+ default "" personaId else fecha.

(** [createTurnoDocument(data)], with [now] the reading of the clock. *)
Definition createTurnoDocument (now : string) (data : TurnoInsert) : TurnoDocument :=
  {| id := generateTurnoId (i_fecha data) (get (i_personaId data));
     fecha := i_fecha data;
     turno := get (i_turno data);
     startShift := get (i_startShift data);
     endShift := get (i_endShift data);
     esVacaciones := i_esVacaciones data;
     notas := Some (if JS.truthy (i_notas data) then i_notas data else "");
     personaId := get (i_personaId data);
     createdAt := now;
     updatedAt := now |}.

(** ** The Excel row schema *)

(** A spreadsheet cell as the row object holds it. *)
Inductive jsval :=
  | JUndefined
  | JString (s : string)
  | JNumber (n : Z)
  | JBoolean (b : bool).

(** The row object handed to [excelRowSchema.parse]. *)
Record ExcelRowInput := {
  x_fecha : jsval;
  x_turno : jsval;
  x_startshift : jsval;
  x_endshift : jsval;
  x_vacaciones : jsval;
  x_notas : jsval
}.

(** [ExcelRow], the output type of [excelRowSchema]. *)
Record ExcelRow := {
  r_fecha : string;
  r_turno : option string;
  r_startshift : option string;
  r_endshift : option string;
  r_vacaciones : bool;
  r_notas : string
}.

(** What parsing one property yields: a value, an issue for the
    [ZodError], or an exception thrown by a [transform] callback, which zod
    does not catch. *)
Inductive field (A : Type) :=
  | FOk (a : A)
  | FIssue (i : issue)
  | FThrow (e : error).
Arguments FOk {A} a.
Arguments FIssue {A} i.
Arguments FThrow {A} e.

(** The pattern [^(\d{1,2})[\/\-](\d{1,2})[\/\-](\d{4})$] with its three
    captures. *)
Definition excelDateRegex (s : string)
  : option (list ascii * list ascii * list ascii) :=
  head (
    '(g1, r1) ← digits12 (JS.chars s);
    r2 ← oneOf ["/"; "-"]%char r1;
    '(g2, r3) ← digits12 r2;
    r4 ← oneOf ["/"; "-"]%char r3;
    '(g3, r5) ← digitsN 4 r4;
    atEnd (g1, g2, g3) r5).

Definition fechaTransform (val : string) : Result string :=
  let cleaned := JS.trim val in
  match excelDateRegex cleaned with
  | Some (day, month, year) =>
      Ok (JS.str year +:+ "-" +:+ JS.padStart 2 "0" (JS.str month)
          +:+ "-" +:+ JS.padStart 2 "0" (JS.str day))
  | None =>
      if isoDateRegex cleaned then Ok cleaned
      else Err (InvalidExcelDate cleaned)
  end.

Inductive meridiem := AM | PM.

(** [(am|pm)] under the [i] flag. *)
Definition ampmGroup (l : list ascii) : list (meridiem * list ascii) :=
  match l with
  | a :: m :: r =>
      if existsb (Ascii.eqb m) ["m"; "M"]%char then
        if existsb (Ascii.eqb a) ["a"; "A"]%char then [(AM, r)]
        else if existsb (Ascii.eqb a) ["p"; "P"]%char then [(PM, r)]
        else []
      else []
  | _ => []
  end.

(** [g?] for a group [g]: the match of [g] first, then the empty match
    with the capture [undefined]. *)
Definition optGroup {A} (g : list ascii -> list (A * list ascii))
           (l : list ascii) : list (option A * list ascii) :=
  (prod_map Some (fun r => r) <$> g l) ++ [(None, l)].

(** [\s*]: the longest run of white space first, then the shorter ones. *)
Fixpoint spaces (l : list ascii) : list (list ascii) :=
  match l with
  | c :: r => (if JS.isSpace c then spaces r else []) ++ [l]
  | [] => [[]]
  end.

(** The pattern [^(\d{1,2}):?(\d{2})?\s*(am|pm)?$] under the [i] flag, with
    its three captures. *)
Definition timeRegex (s : string)
  : option (list ascii * option (list ascii) * option meridiem) :=
  head (
    '(hours, r1) ← digits12 (JS.chars s);
    r2 ← oneOf [":"%char] r1 ++ [r1];
    '(minutes, r3) ← optGroup (digitsN 2) r2;
    r4 ← spaces r3;
    '(ampm, r5) ← optGroup ampmGroup r4;
    atEnd (hours, minutes, ampm) r5).

(** The [transform] callback of the [startshift] column. *)
Definition startshiftTransform (val : option string) : Result (option string) :=
  match val with
  | None => Ok None
  | Some v =>
      if negb (JS.truthy v) || String.eqb (JS.trim v) "" then Ok None
      else
        let cleaned := JS.trim v in
        match timeRegex cleaned with
        | Some (hours, minutes, ampm) =>
            let minutes := default (JS.chars "00") minutes in
            let hour := JS.parseInt hours in
            let min := JS.parseInt minutes in
            let hour :=
              match ampm with
              | Some AM => if (hour =? 12)%nat then 0 else hour
              | Some PM => if negb (hour =? 12)%nat then hour + 12 else hour
              | None => hour
              end in
            if (23 <? hour)%nat || (59 <? min)%nat then Err (InvalidTime cleaned)
            else Ok (Some (JS.padStart 2 "0" (JS.natToString hour) +:+ ":"
                           +:+ JS.padStart 2 "0" (JS.natToString min)))
        | None =>
            if time24Regex cleaned then Ok (Some cleaned)
            else Err (InvalidTime cleaned)
        end
  end.

(** The [transform] callback of the [endshift] column, written out a
    second time in the source. *)
Definition endshiftTransform (val : option string) : Result (option string) :=
  match val with
  | None => Ok None
  | Some v =>
      if negb (JS.truthy v) || String.eqb (JS.trim v) "" then Ok None
      else
        let cleaned := JS.trim v in
        match timeRegex cleaned with
        | Some (hours, minutes, ampm) =>
            let minutes := default (JS.chars "00") minutes in
            let hour := JS.parseInt hours in
            let min := JS.parseInt minutes in
            let hour :=
              match ampm with
              | Some AM => if (hour =? 12)%nat then 0 else hour
              | Some PM => if negb (hour =? 12)%nat then hour + 12 else hour
              | None => hour
              end in
            if (23 <? hour)%nat || (59 <? min)%nat then Err (InvalidTime cleaned)
            else Ok (Some (JS.padStart 2 "0" (JS.natToString hour) +:+ ":"
                           +:+ JS.padStart 2 "0" (JS.natToString min)))
        | None =>
            if time24Regex cleaned then Ok (Some cleaned)
            else Err (InvalidTime cleaned)
        end
  end.

(** The [transform] callback of the [vacaciones] column. *)
Definition vacacionesTransform (val : jsval) : bool :=
  match val with
  | JBoolean b => b
  | JNumber n => (n =? 1)%Z
  | JString s =>
      let lower := JS.trim (JS.toLowerCase s) in
      String.eqb lower "sí" || String.eqb lower "si"
      || String.eqb lower "true" || String.eqb lower "1"
  | JUndefined => false
  end.

(** The text zod gives a cell that is not a string. *)
Definition msgExpectedString (v : jsval) : string :=
  "Expected string, received "
  +:+ match v with
      | JUndefined => "undefined"
      | JString _ => "string"
      | JNumber _ => "number"
      | JBoolean _ => "boolean"
      end.

(** [z.string().transform(f)]: the type check first, the callback only on
    a string. *)
Definition zString {A} (name : string) (f : string -> Result A) (v : jsval)
  : field A :=
  match v with
  | JString s => match f s with Ok a => FOk a | Err e => FThrow e end
  | JUndefined => FIssue (Issue name msgRequired)
  | _ => FIssue (Issue name (msgExpectedString v))
  end.

(** [z.string().optional().transform(f)] *)
Definition zStringOpt {A} (name : string) (f : option string -> Result A)
           (v : jsval) : field A :=
  match v with
  | JString s => match f (Some s) with Ok a => FOk a | Err e => FThrow e end
  | JUndefined => match f None with Ok a => FOk a | Err e => FThrow e end
  | _ => FIssue (Issue name (msgExpectedString v))
  end.

(** [z.union([z.string(), z.number(), z.boolean()]).transform(f)] *)
Definition zUnion {A} (name : string) (f : jsval -> A) (v : jsval) : field A :=
  match v with
  | JUndefined => FIssue (Issue name msgUnion)
  | _ => FOk (f v)
  end.

Definition issuesOf {A} (f : field A) : list issue :=
  match f with FIssue i => [i] | _ => [] end.

Module excelRowSchema.

(** [excelRowSchema.parse(row)]: the properties are parsed in the order of
    the schema; an exception of a callback leaves [parse] at once,
    otherwise the issues of all properties make up the [ZodError]. *)
Definition parse (row : ExcelRowInput) : Result ExcelRow :=
  let f1 := zString "fecha" fechaTransform (x_fecha row) in
  let f2 := zStringOpt "turno"
              (fun val => Ok ((fun s => JS.trim (JS.toLowerCase s)) <$> val))
              (x_turno row) in
  let f3 := zStringOpt "startshift" startshiftTransform (x_startshift row) in
  let f4 := zStringOpt "endshift" endshiftTransform (x_endshift row) in
  let f5 := zUnion "vacaciones" vacacionesTransform (x_vacaciones row) in
  let f6 := zStringOpt "notas"
              (fun val =>
                 let t := JS.trim <$> val in
                 Ok (if truthyStr t then default "" t else ""))
              (x_notas row) in
  match f1, f2, f3, f4, f5, f6 with
  | FThrow e, _, _, _, _, _ => Err e
  | _, FThrow e, _, _, _, _ => Err e
  | _, _, FThrow e, _, _, _ => Err e
  | _, _, _, FThrow e, _, _ => Err e
  | _, _, _, _, FThrow e, _ => Err e
  | _, _, _, _, _, FThrow e => Err e
  | FOk a, FOk b, FOk c, FOk d, FOk e, FOk f =>
      Ok {| r_fecha := a; r_turno := b; r_startshift := c; r_endshift := d;
            r_vacaciones := e; r_notas := f |}
  | _, _, _, _, _, _ =>
      Err (ZodError (issuesOf f1 ++ issuesOf f2 ++ issuesOf f3 ++ issuesOf f4
                     ++ issuesOf f5 ++ issuesOf f6))
  end.

End excelRowSchema.

(* ===================================================================== *)
(** * The world outside the process *)
(* ===================================================================== *)

(** The Cosmos container (its documents, in insertion order), the failures
    of the network ([fault n]: the [n]-th call of the SDK is rejected with
    an error that is neither 404 nor 409), the wall clock ([clock n]: what
    the [n]-th [new Date().toISOString()] reads) and the module-level locale
    configuration. *)
Record World := {
  container : list TurnoDocument;
  fault : nat -> bool;
  calls : nat;
  clock : nat -> string;
  ticks : nat;
  globalLocaleConfig : LocaleConfig
}.

(** An asynchronous method: it may change the world and either returns or
    throws. *)
Definition M (A : Type) : Type := World -> World * Result A.

Definition ret {A} (a : A) : M A := fun w => (w, Ok a).
Definition throw {A} (e : error) : M A := fun w => (w, Err e).
Definition bind {A B} (m : M A) (k : A -> M B) : M B :=
  fun w => match m w with
           | (w', Ok a) => k a w'
           | (w', Err e) => (w', Err e)
           end.
(** [try { m } catch (error) { h error }] *)
Definition tryCatch {A} (m : M A) (h : error -> M A) : M A :=
  fun w => match m w with
           | (w', Ok a) => (w', Ok a)
           | (w', Err e) => h e w'
           end.

Notation "'let!' x ':=' m 'in' k" := (bind m (fun x => k))
  (at level 10, x name, m at level 100, k at level 200).

(** The world after one more reading of the clock. *)
Definition afterTick (w : World) : World :=
  {| container := container w; fault := fault w; calls := calls w;
     clock := clock w; ticks := S (ticks w);
     globalLocaleConfig := globalLocaleConfig w |}.

(** The world after one more call of the SDK that left the documents [c]. *)
Definition afterCall (w : World) (c : list TurnoDocument) : World :=
  {| container := c; fault := fault w; calls := S (calls w);
     clock := clock w; ticks := ticks w;
     globalLocaleConfig := globalLocaleConfig w |}.

(** [new Date().toISOString()] *)
Definition now : M string :=
  fun w => (afterTick w, Ok (clock w (ticks w))).

(** One round trip to the container: either the call fails, or [op] runs
    on the documents. *)
Definition sdkCall {A}
           (op : list TurnoDocument -> list TurnoDocument * Result A) : M A :=
  fun w =>
    let '(c, r) :=
      if fault w (calls w) then (container w, Err (CosmosError 503))
      else op (container w) in
    (afterCall w c, r).

(** The document [container.item(id, partitionKey)] designates; the
    partition key of the container is [/fecha]. *)
Definition sameItem (itemId partitionKey : string) (d : TurnoDocument) : bool :=
  String.eqb (id d) itemId && String.eqb (fecha d) partitionKey.

(** [container.item(id, pk).read()]: [resource] is [undefined] when there
    is no such document. *)
Definition itemRead (itemId pk : string) : M (option TurnoDocument) :=
  sdkCall (fun c => (c, Ok (find (sameItem itemId pk) c))).

(** [container.items.create(document)] *)
Definition itemsCreate (document : TurnoDocument) : M TurnoDocument :=
  sdkCall (fun c =>
    if existsb (sameItem (id document) (fecha document)) c
    then (c, Err (CosmosError 409))
    else (c ++ [document], Ok document)).

(** [container.item(id, pk).replace(document)] *)
Definition itemReplace (itemId pk : string) (document : TurnoDocument)
  : M TurnoDocument :=
  sdkCall (fun c =>
    if existsb (sameItem itemId pk) c then
      if sameItem itemId pk document
      then (map (fun d => if sameItem itemId pk d then document else d) c,
            Ok document)
      else (c, Err (CosmosError 400))
    else (c, Err (CosmosError 404))).

(** [container.items.query(querySpec).fetchAll()], the [WHERE] clause given
    as a predicate. *)
Definition itemsQuery (where_ : TurnoDocument -> bool) : M (list TurnoDocument) :=
  sdkCall (fun c => (c, Ok (List.filter where_ c))).

(** [container.item(id, pk).delete()]: a 404 when there is no such
    document. *)
Definition itemDelete (itemId pk : string) : M unit :=
  sdkCall (fun c =>
    if existsb (sameItem itemId pk) c
    then (List.filter (fun d => negb (sameItem itemId pk d)) c, Ok tt)
    else (c, Err (CosmosError 404))).

(** The order of [ORDER BY c.fecha ASC]: strings compare by their
    characters. *)
Definition fechaAsc (a b : TurnoDocument) : Prop :=
  String.leb (fecha a) (fecha b) = true.

#[global] Instance fechaAsc_dec : RelDecision fechaAsc :=
  fun a b => decide (String.leb (fecha a) (fecha b) = true).

(** A query that ends in [ORDER BY c.fecha ASC]. *)
Definition itemsQueryAsc (where_ : TurnoDocument -> bool) : M (list TurnoDocument) :=
  sdkCall (fun c => (c, Ok (merge_sort fechaAsc (List.filter where_ c)))).

(** A query that selects [c.id, c.fecha] only. *)
Definition itemsQueryKeys (where_ : TurnoDocument -> bool)
  : M (list (string * string)) :=
  sdkCall (fun c => (c, Ok ((fun d => (id d, fecha d)) <$> List.filter where_ c))).

(* ===================================================================== *)
(** * repositories/turno.repository.ts *)
(* ===================================================================== *)

(** A line of [BulkResult.warnings]; each constructor stands for one
    message template. *)
Inductive warning :=
  | WPriority (row : nat)
      (** "Fila <row>: Se especificó turno y vacaciones, se priorizarán las vacaciones" *)
  | WZod (row : nat) (issues : list issue)   (** "Fila <row>: <path>: <message>, ..." *)
  | WRowError (row : nat) (e : error)        (** "Fila <row>: Error procesando fila - <message>" *)
  | WDuplicate (fecha : string)              (** "Fecha duplicada en archivo: <fecha>" *)
  | WStorage (fecha : string) (e : error).
      (** "Error procesando turno para fecha <fecha>: <message>" *)

Record BulkResult := {
  inserted : nat;
  updated : nat;
  skipped : nat;
  warnings : list warning;
  items : list (option TurnoDocument)   (** [None] is a [null] entry *)
}.

Record Stats := {
  total : nat;
  porTurno : gmap string JS.counter;   (** the own properties of the object *)
  vacaciones : nat
}.

Module TurnoRepository.

Definition create (data : TurnoInsert) : M TurnoDocument :=
  tryCatch
    (let! t := now in
     let document := createTurnoDocument t data in
     let! resource := itemsCreate document in
     ret resource)
    (fun error =>
       match error with
       | CosmosError 409 => throw (AlreadyExists (i_fecha data))
       | _ => throw error
       end).

(** [id.split('_')[0]] *)
Definition firstSegment (itemId : string) : string :=
  default "" (head (JS.split "_" itemId)).

(** [{...existing, ...data, updatedAt}] as the container keeps it. *)
Definition merged (existing : TurnoDocument) (data : TurnoUpdate)
           (t : string) : TurnoDocument :=
  {| id := id existing;
     fecha := default (fecha existing) (u_fecha data);
     turno := spread (turno existing) (u_turno data);
     startShift := spread (startShift existing) (u_startShift data);
     endShift := spread (endShift existing) (u_endShift data);
     esVacaciones := default (esVacaciones existing) (u_esVacaciones data);
     notas := match u_notas data with Some n => Some n | None => notas existing end;
     personaId := spread (personaId existing) (u_personaId data);
     createdAt := createdAt existing;
     updatedAt := t |}.

Definition update (itemId : string) (data : TurnoUpdate)
  : M (option TurnoDocument) :=
  tryCatch
    (let pk := if truthyStr (u_fecha data) then default "" (u_fecha data)
               else firstSegment itemId in
     let! existing := itemRead itemId pk in
     match existing with
     | None => ret None
     | Some existing =>
         let! t := now in
         let updatedDocument := merged existing data t in
         let! resource := itemReplace itemId (fecha updatedDocument) updatedDocument in
         ret (Some resource)
     end)
    (fun error =>
       match error with
       | CosmosError 404 => ret None
       | _ => throw error
       end).

Definition findById (itemId partitionKey : string) : M (option TurnoDocument) :=
  tryCatch
    (let! resource := itemRead itemId partitionKey in ret resource)
    (fun error =>
       match error with
       | CosmosError 404 => ret None
       | _ => throw error
       end).

Definition findByFecha (fecha : string) (personaId : option string)
  : M (option TurnoDocument) :=
  let itemId := generateTurnoId fecha personaId in
  findById itemId fecha.

(** [upsert]; the cast [as TurnoDocument] of the result of [update] leaves
    a [null] as it is. *)
Definition upsert (data : TurnoInsert) : M (option TurnoDocument) :=
  let! existing := findByFecha (i_fecha data) (get (i_personaId data)) in
  match existing with
  | Some existing => update (id existing) (asUpdate data)
  | None => let! d := create data in ret (Some d)
  end.

(** The body of the [for ... of] loop of [bulkUpsert], the five
    accumulators in [acc]. *)
Definition bulkStep (turnoData : TurnoInsert) (acc : BulkResult) : M BulkResult :=
  tryCatch
    (let! existing :=
       findByFecha (i_fecha turnoData) (get (i_personaId turnoData)) in
     let! result := upsert turnoData in
     ret {| inserted := match existing with
                        | Some _ => inserted acc
                        | None => S (inserted acc)
                        end;
            updated := match existing with
                       | Some _ => S (updated acc)
                       | None => updated acc
                       end;
            skipped := skipped acc;
            warnings := warnings acc;
            items := items acc ++ [result] |})
    (fun error =>
       ret {| inserted := inserted acc;
              updated := updated acc;
              skipped := S (skipped acc);
              warnings := warnings acc ++ [WStorage (i_fecha turnoData) error];
              items := items acc |}).

Fixpoint bulkLoop (turnosData : list TurnoInsert) (acc : BulkResult)
  : M BulkResult :=
  match turnosData with
  | [] => ret acc
  | turnoData :: rest =>
      let! acc' := bulkStep turnoData acc in
      bulkLoop rest acc'
  end.

Definition bulkUpsert (turnosData : list TurnoInsert) : M BulkResult :=
  bulkLoop turnosData
    {| inserted := 0; updated := 0; skipped := 0; warnings := []; items := [] |}.

(** The [WHERE] clause [getStats] builds. *)
Definition statsWhere (from to : option string) (c : TurnoDocument) : bool :=
  if truthyStr from && truthyStr to then
    String.leb (default "" from) (fecha c) && String.leb (fecha c) (default "" to)
  else if truthyStr from then String.leb (default "" from) (fecha c)
  else if truthyStr to then String.leb (fecha c) (default "" to)
  else true.

(** The loop [for (const turno of allTurnos)] of [getStats]:
    [if (turno.esVacaciones) stats.vacaciones++
     else if (turno.turno)
       stats.porTurno[turno.turno] = (stats.porTurno[turno.turno] || 0) + 1]. *)
Fixpoint statsLoop (allTurnos : list TurnoDocument) (stats : Stats) : Stats :=
  match allTurnos with
  | [] => stats
  | t :: rest =>
      statsLoop rest
        (if esVacaciones t then
           {| total := total stats; porTurno := porTurno stats;
              vacaciones := S (vacaciones stats) |}
         else if truthyStr (turno t) then
           {| total := total stats;
              porTurno := JS.increment (porTurno stats) (default "" (turno t));
              vacaciones := vacaciones stats |}
         else stats)
  end.

Definition getStats (from to : option string) : M Stats :=
  let! allTurnos := itemsQuery (statsWhere from to) in
  ret (statsLoop allTurnos
         {| total := length allTurnos; porTurno := ∅; vacaciones := 0 |}).

Definition delete (itemId partitionKey : string) : M bool :=
  tryCatch
    (let! _ := itemDelete itemId partitionKey in ret true)
    (fun error =>
       match error with
       | CosmosError 404 => ret false
       | _ => throw error
       end).

(** The [WHERE] clause of [findByDateRange]. *)
Definition rangeWhere (from to : string) (persona : option string)
           (c : TurnoDocument) : bool :=
  String.leb from (fecha c) && String.leb (fecha c) to
  && (if truthyStr persona
      then bool_decide (personaId c = persona) else true).

Definition findByDateRange (from to : string) (personaId : option string)
  : M (list TurnoDocument) :=
  itemsQueryAsc (rangeWhere from to personaId).

(** The loop of [deleteOlderThan]: a failed deletion is logged and not
    counted. *)
Fixpoint deleteLoop (resources : list (string * string)) (deletedCount : nat)
  : M nat :=
  match resources with
  | [] => ret deletedCount
  | item :: rest =>
      let! deletedCount :=
        tryCatch
          (let! _ := itemDelete item.1 item.2 in ret (S deletedCount))
          (fun error => ret deletedCount) in
      deleteLoop rest deletedCount
  end.

Definition deleteOlderThan (date : string) : M nat :=
  let! resources := itemsQueryKeys (fun c => String.ltb (fecha c) date) in
  deleteLoop resources 0.

End TurnoRepository.

(* ===================================================================== *)
(** * repositories/turno.json.repository.ts *)
(* ===================================================================== *)

Module JsonTurnoRepository.

(** The loop [for (const turno of filteredData)] of [getStats], written
    out in the JSON repository a second time. *)
Fixpoint statsLoop (filteredData : list TurnoDocument) (stats : Stats) : Stats :=
  match filteredData with
  | [] => stats
  | t :: rest =>
      statsLoop rest
        (if esVacaciones t then
           {| total := total stats; porTurno := porTurno stats;
              vacaciones := S (vacaciones stats) |}
         else if truthyStr (turno t) then
           {| total := total stats;
              porTurno := JS.increment (porTurno stats) (default "" (turno t));
              vacaciones := vacaciones stats |}
         else stats)
  end.

(** [getStats] on the snapshot [data] that [loadData] returned. *)
Definition getStats (data : list TurnoDocument) (from to : option string) : Stats :=
  let filteredData :=
    if truthyStr from || truthyStr to then
      List.filter
        (fun turno =>
           if truthyStr from && String.ltb (fecha turno) (default "" from) then false
           else if truthyStr to && String.ltb (default "" to) (fecha turno) then false
           else true)
        data
    else data in
  statsLoop filteredData
    {| total := length filteredData; porTurno := ∅; vacaciones := 0 |}.

(** [findById] on the snapshot [data]; the partition key is not looked at. *)
Definition findById (data : list TurnoDocument) (itemId partitionKey : string)
  : option TurnoDocument :=
  find (fun turno => String.eqb (id turno) itemId) data.

Definition findByFecha (data : list TurnoDocument) (fecha : string)
           (personaId : option string) : option TurnoDocument :=
  let itemId := generateTurnoId fecha personaId in
  findById data itemId fecha.

(** One entry of [data/turno.json]; [null] and an absent property are
    [None] (the two times are read through a cast and are strings when
    they are there). *)
Record JsonTurnoData := {
  j_fecha : string;
  j_turno : option string;
  j_startShift : option string;
  j_endShift : option string;
  j_esVacaciones : bool;
  j_notas : string
}.

(** [transformJsonToDocument(jsonItem)], with [now] the reading of the
    clock. *)
Definition transformJsonToDocument (now : string) (jsonItem : JsonTurnoData)
  : TurnoDocument :=
  {| id := generateTurnoId (j_fecha jsonItem) None;
     fecha := j_fecha jsonItem;
     turno := if truthyStr (j_turno jsonItem) then j_turno jsonItem else None;
     startShift := if truthyStr (j_startShift jsonItem)
                   then j_startShift jsonItem else None;
     endShift := if truthyStr (j_endShift jsonItem)
                 then j_endShift jsonItem else None;
     esVacaciones := j_esVacaciones jsonItem;
     notas := Some (if JS.truthy (j_notas jsonItem) then j_notas jsonItem else "");
     personaId := None;
     createdAt := now;
     updatedAt := now |}.

(** What [loadData] caches for the entries [jsonData] of the file:
    [jsonData.map(item => this.transformJsonToDocument(item))], the clock
    being read once per entry ([clock i] for the entry at index [i]). *)
Definition loadData (clock : nat -> string) (jsonData : list JsonTurnoData)
  : list TurnoDocument :=
  imap (fun i => transformJsonToDocument (clock i)) jsonData.

End JsonTurnoRepository.

(* ===================================================================== *)
(** * services/turno.service.ts *)
(* ===================================================================== *)

(** An own property holding [o]: [undefined] or a value. *)
Definition ofOption {A} (o : option A) : prop A :=
  match o with Some a => Value a | None => Undefined end.

Module TurnoService.

(** [const [h, m] = s.split(':').map(Number); h * 60 + m]; [None] is [NaN]. *)
Definition minutesOf (s : string) : option Z :=
  let parts := JS.split ":" s in
  match LocalizedDate.getZ parts 0, LocalizedDate.getZ parts 1 with
  | Some h, Some m => Some (h * 60 + m)%Z
  | _, _ => None
  end.

(** [startMinutes >= endMinutes && endMinutes !== 0] on numbers that may be
    [NaN]. *)
Definition badOrder (startMinutes endMinutes : option Z) : bool :=
  match startMinutes, endMinutes with
  | Some s, Some e => (e <=? s)%Z && negb (e =? 0)%Z
  | _, _ => false
  end.

(** The vacation rule: [if (validatedData.esVacaciones) { turno = undefined;
    startShift = undefined; endShift = undefined }]. *)
Definition clearOnVacation (v : TurnoInsert) : TurnoInsert :=
  if i_esVacaciones v then
    {| i_fecha := i_fecha v; i_turno := Undefined; i_startShift := Undefined;
       i_endShift := Undefined; i_esVacaciones := i_esVacaciones v;
       i_notas := i_notas v; i_personaId := i_personaId v |}
  else v.

(** The three checks that follow the vacation rule, in the order of the
    source. *)
Definition checkRules (v : TurnoInsert) : Result TurnoInsert :=
  let turno := get (i_turno v) in
  let startShift := get (i_startShift v) in
  let endShift := get (i_endShift v) in
  if truthyStr turno && i_esVacaciones v then Err ConflictingState
  else if (truthyStr startShift && negb (truthyStr endShift))
          || (negb (truthyStr startShift) && truthyStr endShift)
  then Err IncompleteTimeRange
  else if truthyStr startShift && truthyStr endShift
          && badOrder (minutesOf (default "" startShift))
                      (minutesOf (default "" endShift))
  then Err InvalidTimeOrder
  else Ok v.

(** The body of [upsertTurno] up to the call of the repository: schema,
    date normalisation, vacation rule, checks. *)
Definition validate (global : LocaleConfig) (data : TurnoInput) : Result TurnoInsert :=
  match turnoInsertSchema.parse data with
  | Err e => Err e
  | Ok validatedData =>
      let normalized :=
        if JS.truthy (i_fecha validatedData) then
          match normalizeDateInput global (i_fecha validatedData) None with
          | Ok f =>
              Ok {| i_fecha := f; i_turno := i_turno validatedData;
                    i_startShift := i_startShift validatedData;
                    i_endShift := i_endShift validatedData;
                    i_esVacaciones := i_esVacaciones validatedData;
                    i_notas := i_notas validatedData;
                    i_personaId := i_personaId validatedData |}
          | Err e => Err e
          end
        else Ok validatedData in
      match normalized with
      | Err e => Err e
      | Ok validatedData => checkRules (clearOnVacation validatedData)
      end
  end.

Definition upsertTurno (data : TurnoInput) : M (option TurnoDocument) :=
  tryCatch
    (fun w =>
       match validate (globalLocaleConfig w) data with
       | Ok validatedData => TurnoRepository.upsert validatedData w
       | Err e => (w, Err e)
       end)
    (fun error =>
       match error with
       | ZodError issues => throw (DatosInvalidos issues)
       | _ => throw error
       end).

(** The first loop of [processExcelData]: row [i] of the sheet is reported
    as row [i + 2]. *)
Fixpoint rowsLoop (i : nat) (excelData : list ExcelRowInput)
         (warnings : list warning) (validRows : list TurnoInsert)
  : list warning * list TurnoInsert :=
  match excelData with
  | [] => (warnings, validRows)
  | row :: rest =>
      let rowNumber := i + 2 in
      match excelRowSchema.parse row with
      | Ok validatedRow =>
          let warnings :=
            if r_vacaciones validatedRow && truthyStr (r_turno validatedRow)
            then warnings ++ [WPriority rowNumber] else warnings in
          let turnoData :=
            {| i_fecha := r_fecha validatedRow;
               i_turno := if r_vacaciones validatedRow then Undefined
                          else ofOption (r_turno validatedRow);
               i_startShift := if r_vacaciones validatedRow then Undefined
                               else ofOption (r_startshift validatedRow);
               i_endShift := if r_vacaciones validatedRow then Undefined
                             else ofOption (r_endshift validatedRow);
               i_esVacaciones := r_vacaciones validatedRow;
               i_notas := if JS.truthy (r_notas validatedRow)
                          then r_notas validatedRow else "";
               i_personaId := Missing |} in
          rowsLoop (S i) rest warnings (validRows ++ [turnoData])
      | Err (ZodError issues) =>
          rowsLoop (S i) rest (warnings ++ [WZod rowNumber issues]) validRows
      | Err e =>
          rowsLoop (S i) rest (warnings ++ [WRowError rowNumber e]) validRows
      end
  end.

(** The second loop of [processExcelData]: duplicates of a date within the
    file. *)
Fixpoint dedupLoop (validRows : list TurnoInsert) (fechasVistas : gset string)
         (warnings : list warning) (uniqueRows : list TurnoInsert)
  : list warning * list TurnoInsert :=
  match validRows with
  | [] => (warnings, uniqueRows)
  | row :: rest =>
      if bool_decide (i_fecha row ∈ fechasVistas) then
        dedupLoop rest fechasVistas (warnings ++ [WDuplicate (i_fecha row)]) uniqueRows
      else
        dedupLoop rest ({[i_fecha row]} ∪ fechasVistas) warnings (uniqueRows ++ [row])
  end.

Definition processExcelData (excelData : list ExcelRowInput) : M BulkResult :=
  let '(warnings1, validRows) := rowsLoop 0 excelData [] [] in
  let '(warnings2, uniqueRows) := dedupLoop validRows ∅ warnings1 [] in
  tryCatch
    (let! result := TurnoRepository.bulkUpsert uniqueRows in
     ret {| inserted := inserted result; updated := updated result;
            skipped := skipped result; warnings := warnings2;
            items := items result |})
    (fun error => throw BulkSaveError).

(** The result of [checkDateConflicts]. *)
Record ConflictCheck := {
  hasConflict : bool;
  existingTurno : option TurnoDocument
}.

(** [checkDateConflicts]: a failure of the repository is logged and
    answered with "no conflict". *)
Definition checkDateConflicts (fecha : string) (personaId : option string)
  : M ConflictCheck :=
  tryCatch
    (let! existing := TurnoRepository.findByFecha fecha personaId in
     ret {| hasConflict := match existing with Some _ => true | None => false end;
            existingTurno := existing |})
    (fun error => ret {| hasConflict := false; existingTurno := None |}).

End TurnoService.

(* ===================================================================== *)
(** * The Excel mapping helpers *)
(* ===================================================================== *)

(** [mapExcelRowToTurno(excelRow)] *)
Definition mapExcelRowToTurno (excelRow : ExcelRow) : TurnoInsert :=
  {| i_fecha := r_fecha excelRow;
     i_turno := if r_vacaciones excelRow then Undefined
                else ofOption (r_turno excelRow);
     i_startShift := if r_vacaciones excelRow then Undefined
                     else ofOption (r_startshift excelRow);
     i_endShift := if r_vacaciones excelRow then Undefined
                   else ofOption (r_endshift excelRow);
     i_esVacaciones := r_vacaciones excelRow;
     i_notas := if JS.truthy (r_notas excelRow) then r_notas excelRow else "";
     i_personaId := Missing |}.

(** [mapExcelRowsToTurnos(excelRows)] *)
Definition mapExcelRowsToTurnos (excelRows : list ExcelRow) : list TurnoInsert :=
  map mapExcelRowToTurno excelRows.


(* ===================================================================== *)
(** * controllers/turno.controller.ts *)
(* ===================================================================== *)

(** A validated row read as a row object again: the controller hands the
    output of the schema on, and the service parses what it is given. *)
Definition asRowObject (r : ExcelRow) : ExcelRowInput :=
  let cell (o : option string) :=
    match o with Some s => JString s | None => JUndefined end in
  {| x_fecha := JString (r_fecha r);
     x_turno := cell (r_turno r);
     x_startshift := cell (r_startshift r);
     x_endshift := cell (r_endshift r);
     x_vacaciones := JBoolean (r_vacaciones r);
     x_notas := JString (r_notas r) |}.

Module TurnoController.

(** The loop of [processExcelUpload] over the row objects of the sheet: a
    row that passes the schema is replaced by its validated form, a row
    that fails is kept as it is for the service to report. *)
Definition validatedData (excelData : list ExcelRowInput) : list ExcelRowInput :=
  map (fun row =>
         match excelRowSchema.parse row with
         | Ok validatedRow => asRowObject validatedRow
         | Err _ => row
         end) excelData.

End TurnoController.

(** The validated body read as a request body again: [upsertTurno] of the
    controller hands [validation.data] to the service, which validates what
    it is given. *)
Definition asBody (v : TurnoInsert) : TurnoInput :=
  {| in_fecha := Value (i_fecha v);
     in_turno := i_turno v;
     in_startShift := i_startShift v;
     in_endShift := i_endShift v;
     in_esVacaciones := Value (i_esVacaciones v);
     in_notas := Value (i_notas v);
     in_personaId := i_personaId v |}.

(* ===================================================================== *)
(** * Vocabulary of the properties *)
(* ===================================================================== *)

(** The number a counter holds; a counter that has become a string holds
    none. *)
Definition counterValue (v : JS.counter) : nat :=
  match v with JS.CNum n => n | JS.CStr _ => 0 end.

(** The sum of the counters of [porTurno] that are numbers. *)
Definition sumCounts (m : gmap string JS.counter) : nat :=
  map_fold (fun _ v acc => counterValue v + acc) 0 m.

(** A shift type that is not the name of a property a plain object
    inherits; the three declared shift types are of this kind. *)
Definition ordinaryName (k : string) : bool :=
  negb (String.eqb k "__proto__") && negb (bool_decide (k ∈ JS.prototypeFunctions)).

(** Every counter of the table is a positive number. *)
Definition numeric (m : gmap string JS.counter) : Prop :=
  map_Forall (fun _ v => ∃ n, v = JS.CNum n ∧ 0 < n) m.

(** What a table holds under a name it has counted [n] times. *)
Definition counted (n : nat) : option JS.counter :=
  match n with 0 => None | S _ => Some (JS.CNum n) end.

(** The records that count as vacation, and those tallied under a shift
    type. *)
Definition isVacation (t : TurnoDocument) : bool := esVacaciones t.
Definition hasShift (t : TurnoDocument) : bool :=
  negb (esVacaciones t) && truthyStr (turno t).

(** The non-vacation records that carry the shift type [k]. *)
Definition hasShiftType (k : string) (t : TurnoDocument) : bool :=
  hasShift t && bool_decide (turno t = Some k).

(** The key of a document in the container: partition key and id. *)
Definition docKey (d : TurnoDocument) : string * string := (id d, fecha d).

(** The key under which the repository files a candidate. *)
Definition keyOf (data : TurnoInsert) : string * string :=
  (generateTurnoId (i_fecha data) (get (i_personaId data)), i_fecha data).

(** The document stored under a key. *)
Definition stored (c : list TurnoDocument) (k : string * string)
  : option TurnoDocument :=
  find (sameItem k.1 k.2) c.

(** The documents after [replace] of the item [k] by [doc]. *)
Definition replaced (k : string * string) (doc : TurnoDocument)
           (c : list TurnoDocument) : list TurnoDocument :=
  map (fun d => if sameItem k.1 k.2 d then doc else d) c.

(** What one [upsert] does to the container and what it returns: it files
    a new document, replaces the stored one by the merge, or fails on a
    rejected call and leaves the documents alone. *)
Inductive upsertOutcome (data : TurnoInsert) (w w' : World)
  : Result (option TurnoDocument) → Prop :=
  | UpsertCreated :
      stored (container w) (keyOf data) = None →
      container w' = container w ++ [createTurnoDocument (clock w (ticks w)) data] →
      upsertOutcome data w w'
        (Ok (Some (createTurnoDocument (clock w (ticks w)) data)))
  | UpsertReplaced (e : TurnoDocument) :
      stored (container w) (keyOf data) = Some e →
      container w'
      = replaced (keyOf data)
          (TurnoRepository.merged e (asUpdate data) (clock w (ticks w)))
          (container w) →
      upsertOutcome data w w'
        (Ok (Some (TurnoRepository.merged e (asUpdate data) (clock w (ticks w)))))
  | UpsertFailed :
      container w' = container w →
      upsertOutcome data w w' (Err (CosmosError 503)).

(** The document the repository writes for a candidate: a fresh one, or
    the merge into the document stored under the key of the candidate. *)
Inductive written (data : TurnoInsert) : TurnoDocument → Prop :=
  | WrittenNew (t : string) : written data (createTurnoDocument t data)
  | WrittenOver (e : TurnoDocument) (t : string) :
      docKey e = keyOf data →
      written data (TurnoRepository.merged e (asUpdate data) t).

(** The accumulators after one more record was counted. *)
Definition countInserted (acc : BulkResult) (d : TurnoDocument) : BulkResult :=
  {| inserted := S (inserted acc); updated := updated acc; skipped := skipped acc;
     warnings := warnings acc; items := items acc ++ [Some d] |}.
Definition countUpdated (acc : BulkResult) (d : TurnoDocument) : BulkResult :=
  {| inserted := inserted acc; updated := S (updated acc); skipped := skipped acc;
     warnings := warnings acc; items := items acc ++ [Some d] |}.
Definition countSkipped (acc : BulkResult) (f : string) (e : error) : BulkResult :=
  {| inserted := inserted acc; updated := updated acc; skipped := S (skipped acc);
     warnings := warnings acc ++ [WStorage f e]; items := items acc |}.

(** One turn of the loop of [bulkUpsert]. *)
Inductive stepOutcome (data : TurnoInsert) (acc : BulkResult) (w w' : World)
  : BulkResult → Prop :=
  | StepInserted (d : TurnoDocument) :
      stored (container w) (keyOf data) = None →
      written data d →
      container w' = container w ++ [d] →
      stepOutcome data acc w w' (countInserted acc d)
  | StepUpdated (e d : TurnoDocument) :
      stored (container w) (keyOf data) = Some e →
      written data d →
      container w' = replaced (keyOf data) d (container w) →
      stepOutcome data acc w w' (countUpdated acc d)
  | StepSkipped (err : error) :
      container w' = container w →
      stepOutcome data acc w w' (countSkipped acc (i_fecha data) err).

(** Whether the key of [d] held a document in the container [c]. *)
Definition existedIn (c : list TurnoDocument) (d : TurnoDocument) : bool :=
  match stored c (docKey d) with Some _ => true | None => false end.

(** Whether the key [k] held a document in the container [c]. *)
Definition keyHeld (c : list TurnoDocument) (k : string * string) : bool :=
  match stored c k with Some _ => true | None => false end.

(** The turns of the loop of [bulkUpsert] over the candidates, with what
    each one persisted ([None] for a skipped candidate) and the SDK calls
    it made, numbered from [a] on, under the schedule [rejected] of the
    network: a candidate is persisted by a turn none of whose calls is
    rejected, and skipped by a turn that ends at its first rejected call.
    The next turn starts at the next call; the last one ends before [z]. *)
Inductive turns (rejected : nat → bool)
  : nat → list TurnoInsert → list (option TurnoDocument) → nat → Prop :=
  | TurnsDone (a : nat) : turns rejected a [] [] a
  | TurnPersisted (a b z : nat) (c : TurnoInsert) (d : TurnoDocument)
                  (cs : list TurnoInsert) (outs : list (option TurnoDocument)) :
      a < b →
      (∀ i, a ≤ i < b → rejected i = false) →
      written c d →
      turns rejected b cs outs z →
      turns rejected a (c :: cs) (Some d :: outs) z
  | TurnSkipped (a b z : nat) (c : TurnoInsert)
                (cs : list TurnoInsert) (outs : list (option TurnoDocument)) :
      a ≤ b →
      (∀ i, a ≤ i < b → rejected i = false) →
      rejected b = true →
      turns rejected (S b) cs outs z →
      turns rejected a (c :: cs) (None :: outs) z.

(** The documents the turns persisted, in their order. *)
Fixpoint persisted (outs : list (option TurnoDocument)) : list TurnoDocument :=
  match outs with
  | [] => []
  | Some d :: outs => d :: persisted outs
  | None :: outs => persisted outs
  end.

(** The warnings of the skipped candidates, in their order. *)
Fixpoint skipWarnings (cs : list TurnoInsert) (outs : list (option TurnoDocument))
  : list warning :=
  match cs, outs with
  | c :: cs, None :: outs =>
      WStorage (i_fecha c) (CosmosError 503) :: skipWarnings cs outs
  | _ :: cs, Some _ :: outs => skipWarnings cs outs
  | _, _ => []
  end.

(** The minutes since midnight a well-formed [HH:MM] string denotes, read
    off the positions of its digits. *)
Definition clockMinutes (s : string) : nat :=
  match JS.chars s with
  | [h1; h2; _; m1; m2] =>
      60 * (10 * JS.digitVal h1 + JS.digitVal h2)
      + (10 * JS.digitVal m1 + JS.digitVal m2)
  | _ => 0
  end.

(** The shape of the candidates the Excel import builds: the three shift
    properties are own properties, and hold [undefined] under vacation. *)
Definition excelShaped (c : TurnoInsert) : Prop :=
  i_turno c ≠ Missing ∧ i_startShift c ≠ Missing ∧ i_endShift c ≠ Missing
  ∧ (i_esVacaciones c = true →
     i_turno c = Undefined ∧ i_startShift c = Undefined ∧ i_endShift c = Undefined).

(** At most one document per key, as the container guarantees. *)
Definition uniqueKeys (c : list TurnoDocument) : Prop := NoDup (docKey <$> c).

(** Whether a date lies before the cut-off of [deleteOlderThan]. *)
Definition olderThan (date : string) (d : TurnoDocument) : bool :=
  String.ltb (fecha d) date.

(** The document [d] with its [updatedAt] set to [t]. *)
Definition touched (d : TurnoDocument) (t : string) : TurnoDocument :=
  {| id := id d; fecha := fecha d; turno := turno d;
     startShift := startShift d; endShift := endShift d;
     esVacaciones := esVacaciones d; notas := notas d;
     personaId := personaId d; createdAt := createdAt d; updatedAt := t |}.

(** A method that leaves at most one document per key when it found the
    container so. *)
Definition keepsUniqueKeys {A} (m : M A) : Prop :=
  ∀ w, uniqueKeys (container w) → uniqueKeys (container (m w).1).

(** A document has both times or neither. *)
Definition paired (d : TurnoDocument) : Prop :=
  is_Some (startShift d) ↔ is_Some (endShift d).

(** The error [upsertTurno] rethrows for an error of its body. *)
Definition rethrown (e : error) : error :=
  match e with ZodError issues => DatosInvalidos issues | _ => e end.

(** The rows of a sheet that pass the schema, as the schema returns them. *)
Definition parsedRows (excelData : list ExcelRowInput) : list ExcelRow :=
  omap (fun row => match excelRowSchema.parse row with
                   | Ok r => Some r
                   | Err _ => None
                   end) excelData.


(** The text the time callbacks build from an hour and a minute. *)
Definition hhmm (hour min : nat) : string :=
  JS.padStart 2 "0" (JS.natToString hour) +:+ ":"
  +:+ JS.padStart 2 "0" (JS.natToString min).

(** [trim] on the characters, and what it leaves: no white space in front. *)
Definition trimList (l : list ascii) : list ascii :=
  rev (JS.trimStart (rev (JS.trimStart l))).
Definition noLeadingSpace (l : list ascii) : Prop :=
  match l with c :: _ => JS.isSpace c = false | [] => True end.

(** Whether the start-time callback returns a text as it is. *)
Definition keptByShiftTransform (t : string) : bool :=
  match startshiftTransform (Some t) with
  | Ok (Some t') => String.eqb t t'
  | _ => false
  end.

(** The person a key is made for: a falsy [personaId] is no person. *)
Definition personOf (personaId : option string) : option string :=
  if truthyStr personaId then personaId else None.

(** A date of the form YYYY-MM-DD as the number YYYYMMDD, whose order is
    the order of the calendar: year first, then month, then day. *)
Definition dateNumber (s : string) : Z :=
  match JS.chars s with
  | [y1; y2; y3; y4; _; m1; m2; _; d1; d2] =>
      ((Z.of_nat (JS.parseInt [y1; y2; y3; y4]) * 100
        + Z.of_nat (JS.parseInt [m1; m2])) * 100
       + Z.of_nat (JS.parseInt [d1; d2]))%Z
  | _ => 0%Z
  end.

(* ===================================================================== *)
(** * Sample data *)
(* ===================================================================== *)

(** The successful result of a computation, if any. *)
Definition toOption {A} (r : Result A) : option A :=
  match r with Ok a => Some a | Err _ => None end.

Definition esAR : LocaleConfig :=
  {| timezone := ARGENTINA_TIMEZONE; locale := ARGENTINA_LOCALE;
     weekStartsOn := Some 1 |}.

(** An empty container, a network that never fails, a clock that reads
    ["T0"], ["T1"], ... *)
Definition emptyWorld : World :=
  {| container := []; fault := fun _ => false; calls := 0;
     clock := fun n => "T" +:+ JS.natToString n; ticks := 0;
     globalLocaleConfig := esAR |}.

(** A request body with a date, a shift type and a time range. *)
Definition shiftInput (fecha turno startShift endShift : string) : TurnoInput :=
  {| in_fecha := Value fecha; in_turno := Value turno;
     in_startShift := Value startShift; in_endShift := Value endShift;
     in_esVacaciones := Value false; in_notas := Missing;
     in_personaId := Missing |}.

(** A request body with a date and a shift type only. *)
Definition plainInput (fecha turno : string) : TurnoInput :=
  {| in_fecha := Value fecha; in_turno := Value turno;
     in_startShift := Missing; in_endShift := Missing;
     in_esVacaciones := Missing; in_notas := Missing;
     in_personaId := Missing |}.

(** A request body with a date and nothing else. *)
Definition bareInput (fecha : string) : TurnoInput :=
  {| in_fecha := Value fecha; in_turno := Missing;
     in_startShift := Missing; in_endShift := Missing;
     in_esVacaciones := Missing; in_notas := Missing;
     in_personaId := Missing |}.

(** A request body that declares vacation and a full shift at once. *)
Definition vacationInput : TurnoInput :=
  {| in_fecha := Value "2025-01-01"; in_turno := Value "mañana";
     in_startShift := Value "07:00"; in_endShift := Value "15:00";
     in_esVacaciones := Value true; in_notas := Missing;
     in_personaId := Missing |}.

(** A request body with a start time and no end time. *)
Definition halfRangeInput : TurnoInput :=
  {| in_fecha := Value "2025-01-01"; in_turno := Missing;
     in_startShift := Value "07:00"; in_endShift := Missing;
     in_esVacaciones := Missing; in_notas := Missing;
     in_personaId := Missing |}.

(** What [validate] makes of [plainInput fecha turno]. *)
Definition plainCandidate (fecha turno : string) : TurnoInsert :=
  {| i_fecha := fecha; i_turno := Value turno; i_startShift := Missing;
     i_endShift := Missing; i_esVacaciones := false; i_notas := "";
     i_personaId := Missing |}.

(** The document of a morning shift from 07:00 to 15:00, created at [T0]. *)
Definition morningDoc : TurnoDocument :=
  {| id := "2025-01-01"; fecha := "2025-01-01"; turno := Some "mañana";
     startShift := Some "07:00"; endShift := Some "15:00";
     esVacaciones := false; notas := Some ""; personaId := None;
     createdAt := "T0"; updatedAt := "T0" |}.

(** The world after the morning shift of 2025-01-01 was stored. *)
Definition morningWorld : World :=
  (TurnoService.upsertTurno (shiftInput "2025-01-01" "mañana" "07:00" "15:00")
     emptyWorld).1.

(** The world after a day without shift and without vacation was stored. *)
Definition bareDayWorld : World :=
  (TurnoService.upsertTurno (bareInput "2025-01-01") emptyWorld).1.

(** [morningWorld] with a network that rejects the call number 5. *)
Definition flakyWorld : World :=
  {| container := container morningWorld; fault := fun n => (n =? 5)%nat;
     calls := 0; clock := clock morningWorld; ticks := ticks morningWorld;
     globalLocaleConfig := esAR |}.

Definition threeCandidates : list TurnoInsert :=
  [plainCandidate "2025-01-01" "tarde"; plainCandidate "2025-01-02" "noche";
   plainCandidate "2025-01-03" "mañana"].

(** A spreadsheet row with a date, a shift type and a vacation flag. *)
Definition sheetRow (fecha turno vacaciones : jsval) : ExcelRowInput :=
  {| x_fecha := fecha; x_turno := turno; x_startshift := JUndefined;
     x_endshift := JUndefined; x_vacaciones := vacaciones;
     x_notas := JUndefined |}.

(** The three rows of the import scenario. *)
Definition scenarioRows : list ExcelRowInput :=
  [sheetRow (JString "2025-01-01") (JString "mañana") (JBoolean false);
   sheetRow (JString "2025-01-01") (JString "tarde") (JBoolean false);
   sheetRow (JString "2025-01-02") JUndefined (JBoolean true)].

(** Four rows whose shift-type column holds free text: two names that
    every plain object inherits, one of them twice, and a declared shift
    type. *)
Definition inheritedRows : list ExcelRowInput :=
  [sheetRow (JString "2025-01-01") (JString "__proto__") (JBoolean false);
   sheetRow (JString "2025-01-02") (JString "constructor") (JBoolean false);
   sheetRow (JString "2025-01-03") (JString "constructor") (JBoolean false);
   sheetRow (JString "2025-01-04") (JString "noche") (JBoolean false)].

(** The world after the import stored them. *)
Definition inheritedWorld : World :=
  (TurnoService.processExcelData inheritedRows emptyWorld).1.

(** A spreadsheet row with the two time columns filled in. *)
Definition lateRow (startshift endshift : jsval) : ExcelRowInput :=
  {| x_fecha := JString "15/1/2025"; x_turno := JString "Noche";
     x_startshift := startshift; x_endshift := endshift;
     x_vacaciones := JString "no"; x_notas := JUndefined |}.

Definition eveningRow : ExcelRowInput := lateRow (JString "7:30 pm") (JString "12 am").

(** A spreadsheet row that declares vacation and a full shift at once. *)
Definition vacationRow : ExcelRowInput :=
  {| x_fecha := JString "2/1/2025"; x_turno := JString "Mañana";
     x_startshift := JString "7"; x_endshift := JString "3 pm";
     x_vacaciones := JString "Sí"; x_notas := JUndefined |}.

(** The world after the import of [scenarioRows]: the morning shift of
    2025-01-01 and the vacation day 2025-01-02. *)
Definition januaryWorld : World :=
  (TurnoService.processExcelData scenarioRows emptyWorld).1.


(** A [turno.json] with a night shift and a vacation day, and a Cosmos
    container that holds the documents the development backend makes of
    it. *)
Definition jsonFile : list JsonTurnoRepository.JsonTurnoData :=
  [ {| JsonTurnoRepository.j_fecha := "2025-01-01";
       JsonTurnoRepository.j_turno := Some "noche";
       JsonTurnoRepository.j_startShift := Some "22:00";
       JsonTurnoRepository.j_endShift := Some "06:00";
       JsonTurnoRepository.j_esVacaciones := false;
       JsonTurnoRepository.j_notas := "" |};
    {| JsonTurnoRepository.j_fecha := "2025-01-02";
       JsonTurnoRepository.j_turno := None;
       JsonTurnoRepository.j_startShift := None;
       JsonTurnoRepository.j_endShift := None;
       JsonTurnoRepository.j_esVacaciones := true;
       JsonTurnoRepository.j_notas := "playa" |} ].

Definition jsonWorld : World :=
  {| container := JsonTurnoRepository.loadData (clock emptyWorld) jsonFile;
     fault := fun _ => false; calls := 0; clock := clock emptyWorld;
     ticks := 2; globalLocaleConfig := esAR |}.

(* ===================================================================== *)
(** * Dates and times *)
(* ===================================================================== *)

(** C7.  [normalizeDateInput] returns a string in the canonical
    [YYYY-MM-DD] form as it is; under a locale that does not start with
    [en-US] it turns ["15/1/2025"] into ["2025-01-15"]; and it fails with
    the invalid-format error on a string that matches neither the canonical
    nor the short pattern. *)
Theorem normalizeDateInput_spec (global : LocaleConfig)
        (config : option LocaleConfig) (canonical other : string) :
  (isoDateRegex canonical = true →
   normalizeDateInput global canonical config = Ok canonical)
  ∧ (JS.startsWith "en-US" (locale (default global config)) = false →
     normalizeDateInput global "15/1/2025" config = Ok "2025-01-15")
  ∧ (isoDateRegex other = false → shortDateRegex other = false →
     normalizeDateInput global other config = Err (InvalidDateFormat other)).
Proof.
  unfold normalizeDateInput. repeat split.
  - by intros ->.
  - intros Hloc.
    change (isoDateRegex "15/1/2025") with false.
    change (shortDateRegex "15/1/2025") with true. cbv iota.
    unfold LocalizedDate.fromShort. rewrite Hloc. reflexivity.
  - by intros -> ->.
Qed.

(** C8.  The time columns of the Excel schema read ["7"] as ["07:00"],
    ["7:30 pm"] as ["19:30"], ["12 am"] as ["00:00"] and reject ["25:00"]
    with the invalid-time error; the callback of the end column agrees with
    the one of the start column on every value, and a parsed row carries
    the normalised times of both columns. *)
Theorem excel_time_normalization :
  startshiftTransform (Some "7") = Ok (Some "07:00")
  ∧ startshiftTransform (Some "7:30 pm") = Ok (Some "19:30")
  ∧ startshiftTransform (Some "12 am") = Ok (Some "00:00")
  ∧ startshiftTransform (Some "25:00") = Err (InvalidTime "25:00")
  ∧ (∀ val, endshiftTransform val = startshiftTransform val)
  ∧ (r_startshift <$> toOption (excelRowSchema.parse eveningRow) = Some (Some "19:30")
     ∧ r_endshift <$> toOption (excelRowSchema.parse eveningRow) = Some (Some "00:00"))
  ∧ excelRowSchema.parse (lateRow (JString "25:00") (JString "7")) = Err (InvalidTime "25:00")
  ∧ excelRowSchema.parse (lateRow (JString "7") (JString "25:00")) = Err (InvalidTime "25:00").
Proof. split_and!; reflexivity. Qed.

(* ===================================================================== *)
(** * The container *)
(* ===================================================================== *)

Lemma sameItem_spec (i p : string) (d : TurnoDocument) :
  sameItem i p d = true ↔ docKey d = (i, p).
Proof.
  unfold sameItem, docKey. rewrite andb_true_iff, !String.eqb_eq.
  split; [intros [-> ->]; done | intros [= -> ->]; done].
Qed.

Lemma sameItem_other (k : string * string) (d : TurnoDocument) :
  docKey d ≠ k → sameItem k.1 k.2 d = false.
Proof.
  intros Hne. destruct (sameItem k.1 k.2 d) eqn:E; [|done].
  apply sameItem_spec in E. destruct k; simpl in *. congruence.
Qed.

Lemma stored_key (c : list TurnoDocument) (k : string * string) (d : TurnoDocument) :
  stored c k = Some d → docKey d = k.
Proof.
  unfold stored. intros H. apply find_some in H as [_ H].
  apply sameItem_spec in H. by destruct k.
Qed.

Lemma stored_existsb (c : list TurnoDocument) (k : string * string) :
  existsb (sameItem k.1 k.2) c
  = match stored c k with Some _ => true | None => false end.
Proof.
  unfold stored. induction c as [|d c IH]; simpl; [done|].
  by destruct (sameItem k.1 k.2 d).
Qed.

Lemma stored_app (c : list TurnoDocument) (d : TurnoDocument) (k : string * string) :
  stored (c ++ [d]) k
  = match stored c k with
    | Some x => Some x
    | None => if sameItem k.1 k.2 d then Some d else None
    end.
Proof.
  unfold stored. induction c as [|x c IH]; simpl; [done|].
  by destruct (sameItem k.1 k.2 x).
Qed.

Lemma stored_replaced_same (c : list TurnoDocument) (k : string * string)
      (doc e : TurnoDocument) :
  stored c k = Some e → docKey doc = k → stored (replaced k doc c) k = Some doc.
Proof.
  unfold stored, replaced. intros H Hk.
  assert (Hd : sameItem k.1 k.2 doc = true) by (apply sameItem_spec; by destruct k).
  induction c as [|x c IH]; simpl in *; [done|].
  destruct (sameItem k.1 k.2 x) eqn:E; [by rewrite Hd | rewrite E; auto].
Qed.

Lemma stored_replaced_other (c : list TurnoDocument) (k k' : string * string)
      (doc : TurnoDocument) :
  k' ≠ k → docKey doc = k → stored (replaced k doc c) k' = stored c k'.
Proof.
  unfold stored, replaced. intros Hne Hk.
  assert (Hd : sameItem k'.1 k'.2 doc = false) by (apply sameItem_other; congruence).
  induction c as [|x c IH]; simpl; [done|].
  destruct (sameItem k.1 k.2 x) eqn:E.
  - apply sameItem_spec in E.
    rewrite Hd, (sameItem_other k' x); [done | destruct k; simpl in *; congruence].
  - destruct (sameItem k'.1 k'.2 x); [done | apply IH].
Qed.

(* ===================================================================== *)
(** * The repository, method by method *)
(* ===================================================================== *)

Lemma findById_run (i p : string) (w : World) :
  TurnoRepository.findById i p w
  = (afterCall w (container w),
     if fault w (calls w) then Err (CosmosError 503)
     else Ok (stored (container w) (i, p))).
Proof.
  unfold TurnoRepository.findById, tryCatch, bind, itemRead, sdkCall, ret, throw.
  by destruct (fault w (calls w)).
Qed.

Lemma create_run (data : TurnoInsert) (w : World) :
  TurnoRepository.create data w
  = let doc := createTurnoDocument (clock w (ticks w)) data in
    if fault w (calls w)
    then (afterCall (afterTick w) (container w), Err (CosmosError 503))
    else match stored (container w) (keyOf data) with
         | Some _ =>
             (afterCall (afterTick w) (container w), Err (AlreadyExists (i_fecha data)))
         | None => (afterCall (afterTick w) (container w ++ [doc]), Ok doc)
         end.
Proof.
  unfold TurnoRepository.create, tryCatch, bind, now, itemsCreate, sdkCall, ret, throw.
  simpl. destruct (fault w (calls w)); [done|].
  change (existsb _ (container w))
    with (existsb (sameItem (keyOf data).1 (keyOf data).2) (container w)).
  rewrite stored_existsb. by destruct (stored (container w) (keyOf data)).
Qed.

Lemma firstSegment_generate (p : option string) :
  TurnoRepository.firstSegment (generateTurnoId "" p) = "".
Proof.
  unfold generateTurnoId. destruct (truthyStr p); [|done].
  unfold TurnoRepository.firstSegment, JS.split. simpl.
  unfold JS.chars. simpl. done.
Qed.

(** The partition key [update] reads with, when the id is the one
    [upsert] found. *)
Lemma update_pk (data : TurnoInsert) :
  (if truthyStr (u_fecha (asUpdate data)) then default "" (u_fecha (asUpdate data))
   else TurnoRepository.firstSegment (keyOf data).1) = i_fecha data.
Proof.
  simpl. unfold JS.truthy.
  destruct (String.eqb_spec (i_fecha data) "") as [E|E]; simpl; [|done].
  rewrite E. apply firstSegment_generate.
Qed.

Lemma update_run (data : TurnoInsert) (e : TurnoDocument) (w : World) :
  stored (container w) (keyOf data) = Some e →
  TurnoRepository.update (id e) (asUpdate data) w
  = let doc := TurnoRepository.merged e (asUpdate data) (clock w (ticks w)) in
    if fault w (calls w)
    then (afterCall w (container w), Err (CosmosError 503))
    else if fault w (S (calls w))
    then (afterCall (afterTick (afterCall w (container w))) (container w),
          Err (CosmosError 503))
    else (afterCall (afterTick (afterCall w (container w)))
            (replaced (keyOf data) doc (container w)),
          Ok (Some doc)).
Proof.
  intros He. pose proof (stored_key _ _ _ He) as Hk.
  assert (Hid : id e = (keyOf data).1) by (by rewrite <- Hk).
  unfold TurnoRepository.update. rewrite Hid, update_pk.
  unfold tryCatch, bind, itemRead, sdkCall, now, ret, throw. simpl.
  destruct (fault w (calls w)); [done|]. simpl.
  pose proof He as He'. unfold stored in He'. simpl in He'. rewrite He'.
  unfold itemReplace, sdkCall. simpl.
  destruct (fault w (S (calls w))); [done|].
  pose proof (stored_existsb (container w) (keyOf data)) as Hex.
  rewrite He in Hex. simpl in Hex. rewrite Hex.
  unfold sameItem at 1. simpl. simpl in Hid. rewrite Hid, !String.eqb_refl. simpl.
  done.
Qed.

Lemma upsert_run (data : TurnoInsert) (w : World) :
  TurnoRepository.upsert data w
  = if fault w (calls w) then (afterCall w (container w), Err (CosmosError 503))
    else
      let w1 := afterCall w (container w) in
      match stored (container w) (keyOf data) with
      | Some e => TurnoRepository.update (id e) (asUpdate data) w1
      | None =>
          if fault w (S (calls w))
          then (afterCall (afterTick w1) (container w), Err (CosmosError 503))
          else (afterCall (afterTick w1)
                  (container w ++ [createTurnoDocument (clock w (ticks w)) data]),
                Ok (Some (createTurnoDocument (clock w (ticks w)) data)))
      end.
Proof.
  unfold TurnoRepository.upsert, TurnoRepository.findByFecha, bind.
  rewrite findById_run.
  destruct (fault w (calls w)); [done|].
  change (stored (container w) _) with (stored (container w) (keyOf data)).
  destruct (stored (container w) (keyOf data)) as [e|] eqn:He; [done|].
  rewrite create_run. simpl.
  destruct (fault w (S (calls w))); [done|].
  by rewrite He.
Qed.

Lemma upsert_outcome (data : TurnoInsert) (w : World) :
  upsertOutcome data w (TurnoRepository.upsert data w).1
                       (TurnoRepository.upsert data w).2.
Proof.
  rewrite upsert_run.
  destruct (fault w (calls w)); [by constructor|].
  cbv zeta.
  destruct (stored (container w) (keyOf data)) as [e|] eqn:He.
  - rewrite (update_run data e) by done. simpl.
    destruct (fault w (S (calls w))); [by constructor|].
    destruct (fault w (S (S (calls w)))); [by constructor|].
    by apply (UpsertReplaced _ _ _ e).
  - destruct (fault w (S (calls w))); [by constructor|].
    by constructor.
Qed.

Lemma merged_key (data : TurnoInsert) (e : TurnoDocument) (t : string) :
  docKey e = keyOf data →
  docKey (TurnoRepository.merged e (asUpdate data) t) = keyOf data.
Proof. unfold docKey, keyOf. simpl. by intros [= -> _]. Qed.

Lemma written_key (data : TurnoInsert) (d : TurnoDocument) :
  written data d → docKey d = keyOf data.
Proof. intros [t | e t Hk]; [done | by apply merged_key]. Qed.

Lemma bulkStep_outcome (data : TurnoInsert) (acc : BulkResult) (w : World) :
  ∃ w' acc', TurnoRepository.bulkStep data acc w = (w', Ok acc')
             ∧ stepOutcome data acc w w' acc'.
Proof.
  unfold TurnoRepository.bulkStep, tryCatch, bind, TurnoRepository.findByFecha.
  rewrite findById_run.
  destruct (fault w (calls w)).
  { eexists _, _. split; [done|]. by constructor. }
  change (stored (container w) _) with (stored (container w) (keyOf data)).
  pose proof (upsert_outcome data (afterCall w (container w))) as Hup.
  destruct (TurnoRepository.upsert data (afterCall w (container w))) as [w' r].
  simpl in Hup.
  inversion Hup as [Hs Hc | e Hs Hc | Hc]; subst; simpl in *.
  - rewrite Hs. eexists _, _. split; [done|].
    apply StepInserted; [done | constructor | done].
  - rewrite Hs. eexists _, _. split; [done|].
    apply (StepUpdated _ _ _ _ e); [done | | done].
    constructor. by eapply stored_key.
  - eexists _, _. split; [done|]. by constructor.
Qed.

Lemma stepOutcome_frame (data : TurnoInsert) (acc acc' : BulkResult) (w w' : World)
      (k : string * string) :
  stepOutcome data acc w w' acc' → k ≠ keyOf data →
  stored (container w') k = stored (container w) k.
Proof.
  intros [d Hs Hk%written_key Hc | e d Hs Hk%written_key Hc | err Hc] Hne;
    rewrite Hc.
  - rewrite stored_app, (sameItem_other k d) by congruence.
    by destruct (stored (container w) k).
  - by apply stored_replaced_other.
  - done.
Qed.

Lemma filter_split_length {A} (f : A → bool) (l : list A) :
  length (List.filter (fun x => negb (f x)) l) + length (List.filter f l) = length l.
Proof. induction l as [|a l IH]; simpl; [done|]. destruct (f a); simpl; lia. Qed.

Lemma bulkLoop_spec (turnosData : list TurnoInsert) :
  ∀ (w : World) (acc : BulkResult),
    NoDup (keyOf <$> turnosData) →
    ∃ w' r docs ws,
      TurnoRepository.bulkLoop turnosData acc w = (w', Ok r)
      ∧ items r = items acc ++ (Some <$> docs)
      ∧ warnings r = warnings acc ++ ws
      ∧ inserted r
        = inserted acc
          + length (List.filter (fun d => negb (existedIn (container w) d)) docs)
      ∧ updated r
        = updated acc + length (List.filter (existedIn (container w)) docs)
      ∧ skipped r = skipped acc + length ws
      ∧ length ws + length docs = length turnosData
      ∧ (∀ x, x ∈ ws → ∃ c err, c ∈ turnosData ∧ x = WStorage (i_fecha c) err)
      ∧ (∀ d, d ∈ docs →
           (∃ c, c ∈ turnosData ∧ written c d)
           ∧ stored (container w') (docKey d) = Some d)
      ∧ (∀ k, k ∉ docKey <$> docs →
           stored (container w') k = stored (container w) k).
Proof.
  induction turnosData as [|c cs IH]; intros w acc Hnd.
  - exists w, acc, [], []. simpl. rewrite !app_nil_r.
    split_and!; try done; try lia; by intros ? ?%elem_of_nil.
  - apply NoDup_cons in Hnd as [Hc Hnd].
    destruct (bulkStep_outcome c acc w) as (w1 & acc1 & Hrun & Hout).
    destruct (IH w1 acc1 Hnd)
      as (w' & r & docs & ws & Hloop & Hit & Hwa & Hin & Hup & Hsk & Hlen
          & Hws & Hdocs & Hfr).
    assert (Hkeys : ∀ d, d ∈ docs → docKey d ∈ keyOf <$> cs).
    { intros d Hd. destruct (Hdocs d Hd) as [(c' & Hc' & Hw) _].
      rewrite (written_key _ _ Hw). by apply list_elem_of_fmap_2. }
    assert (Hsame : ∀ d, d ∈ docs →
              existedIn (container w1) d = existedIn (container w) d).
    { intros d Hd. unfold existedIn.
      rewrite (stepOutcome_frame _ _ _ _ _ _ Hout); [done|].
      intros E. apply Hc. rewrite <- E. by apply Hkeys. }
    assert (Hf1 : List.filter (existedIn (container w1)) docs
                  = List.filter (existedIn (container w)) docs).
    { apply filter_ext_in. intros d Hd. apply Hsame. by apply list_elem_of_In. }
    assert (Hf2 : List.filter (fun d => negb (existedIn (container w1) d)) docs
                  = List.filter (fun d => negb (existedIn (container w) d)) docs).
    { apply filter_ext_in. intros d Hd. f_equal. apply Hsame. by apply list_elem_of_In. }
    assert (Hnotin : keyOf c ∉ docKey <$> docs).
    { intros Hk. apply list_elem_of_fmap in Hk as (d & Hk & Hd).
      apply Hc. rewrite Hk. by apply Hkeys. }
    assert (Hrest : ∀ k, k ≠ keyOf c → k ∉ docKey <$> docs →
              stored (container w') k = stored (container w) k).
    { intros k Hk1 Hk2. rewrite Hfr by done.
      by apply (stepOutcome_frame _ _ _ _ _ _ Hout). }
    assert (Hwsc : ∀ x, x ∈ ws →
              ∃ c' err, c' ∈ c :: cs ∧ x = WStorage (i_fecha c') err).
    { intros x Hx. destruct (Hws x Hx) as (c' & err & ? & ?).
      exists c', err. split; [by right | done]. }
    assert (Hdocsc : ∀ d, d ∈ docs →
              (∃ c', c' ∈ c :: cs ∧ written c' d)
              ∧ stored (container w') (docKey d) = Some d).
    { intros d Hd. destruct (Hdocs d Hd) as [(c' & Hc' & Hw) ?].
      split; [|done]. exists c'. split; [by right | done]. }
    rewrite Hf1 in Hup. rewrite Hf2 in Hin.
    simpl. unfold bind. rewrite Hrun, Hloop.
    destruct Hout as [d Hs Hw Hcont | e d Hs Hw Hcont | err Hcont];
      try pose proof (written_key _ _ Hw) as Hk.
    + exists w', r, (d :: docs), ws. simpl in *.
      assert (Hex : existedIn (container w) d = false).
      { unfold existedIn. by rewrite Hk, Hs. }
      rewrite Hex. simpl.
      rewrite Hit, <- app_assoc. simpl.
      assert (Hd : stored (container w') (docKey d) = Some d).
      { rewrite Hk, Hfr by done. rewrite Hcont, stored_app, Hs.
        assert (sameItem (keyOf c).1 (keyOf c).2 d = true) as ->; [|done].
        apply sameItem_spec. rewrite Hk. by destruct (keyOf c). }
      split_and!; try done; try lia.
      * intros d' [-> | H]%elem_of_cons; [|by apply Hdocsc].
        split; [|done]. exists c. split; [by left | done].
      * intros k [Hk1 Hk2]%not_elem_of_cons. apply Hrest; [congruence | done].
    + exists w', r, (d :: docs), ws. simpl in *.
      assert (Hex : existedIn (container w) d = true).
      { unfold existedIn. by rewrite Hk, Hs. }
      rewrite Hex. simpl.
      rewrite Hit, <- app_assoc. simpl.
      assert (Hd : stored (container w') (docKey d) = Some d).
      { rewrite Hk, Hfr by done. rewrite Hcont.
        by apply (stored_replaced_same _ _ _ e). }
      split_and!; try done; try lia.
      * intros d' [-> | H]%elem_of_cons; [|by apply Hdocsc].
        split; [|done]. exists c. split; [by left | done].
      * intros k [Hk1 Hk2]%not_elem_of_cons. apply Hrest; [congruence | done].
    + exists w', r, docs, (WStorage (i_fecha c) err :: ws). simpl in *.
      rewrite Hwa, <- app_assoc. simpl.
      split_and!; try done; try lia.
      * intros x [-> | Hx]%elem_of_cons; [|by apply Hwsc].
        exists c, err. split; [by left | done].
      * intros k Hk'. rewrite Hfr by done. by rewrite Hcont.
Qed.

(* ===================================================================== *)
(** * Clock times *)
(* ===================================================================== *)

Lemma str_chars (s : string) : JS.str (JS.chars s) = s.
Proof. apply String.string_of_list_ascii_of_string. Qed.

Lemma isDigit_not_colon (c : ascii) : JS.isDigit c = true → Ascii.eqb c ":" = false.
Proof.
  intros H. destruct (Ascii.eqb_spec c ":") as [->|]; [|done]. discriminate H.
Qed.

Lemma isDigit_zero (c : ascii) :
  JS.isDigit c = true → JS.digitVal c = 0 → c = "0"%char.
Proof.
  unfold JS.isDigit, JS.digitVal. intros H H0.
  apply andb_true_iff in H as [H1 H2]. apply Nat.leb_le in H1.
  assert (E : nat_of_ascii c = 48) by lia.
  rewrite <- (ascii_nat_embedding c), E. reflexivity.
Qed.

Lemma existsb_isDigit (c : ascii) (cls : list ascii) :
  forallb JS.isDigit cls = true → existsb (Ascii.eqb c) cls = true →
  JS.isDigit c = true.
Proof.
  intros Hall Hex. apply existsb_exists in Hex as (x & Hin & Hx).
  apply Ascii.eqb_eq in Hx as ->.
  rewrite forallb_forall in Hall. by apply Hall.
Qed.

(** What the pattern of [time24Regex] says of the characters. *)
Lemma time24Regex_inv (s : string) :
  time24Regex s = true →
  ∃ h1 h2 m1 m2,
    JS.chars s = [h1; h2; ":"%char; m1; m2]
    ∧ JS.isDigit h1 = true ∧ JS.isDigit h2 = true
    ∧ JS.isDigit m1 = true ∧ JS.isDigit m2 = true.
Proof.
  unfold time24Regex.
  destruct (JS.chars s) as [|h1 [|h2 [|c [|m1 [|m2 [|? ?]]]]]]; try discriminate.
  intros H.
  apply andb_true_iff in H as [H Hm2]. apply andb_true_iff in H as [H Hm1].
  apply andb_true_iff in H as [H Hc]. apply Ascii.eqb_eq in Hc as ->.
  exists h1, h2, m1, m2. split; [done|].
  split_and!; try done.
  - apply orb_true_iff in H as [H | H]; apply andb_true_iff in H as [H H'].
    + by apply (existsb_isDigit _ ["0"; "1"]%char).
    + by apply Ascii.eqb_eq in H as ->.
  - apply orb_true_iff in H as [H | H]; apply andb_true_iff in H as [H H'].
    + done.
    + by apply (existsb_isDigit _ ["0"; "1"; "2"; "3"]%char).
  - by apply (existsb_isDigit _ ["0"; "1"; "2"; "3"; "4"; "5"]%char).
Qed.

Lemma time24Regex_truthy (s : string) : time24Regex s = true → JS.truthy s = true.
Proof.
  intros H. unfold JS.truthy.
  destruct (String.eqb_spec s "") as [->|]; [discriminate H | done].
Qed.

(** On a well-formed time the computation of the service, by [split] and
    [Number], yields the minutes since midnight. *)
Lemma minutesOf_clock (s : string) :
  time24Regex s = true →
  TurnoService.minutesOf s = Some (Z.of_nat (clockMinutes s)).
Proof.
  intros H. destruct (time24Regex_inv s H) as (h1 & h2 & m1 & m2 & Hs & D1 & D2 & D3 & D4).
  unfold TurnoService.minutesOf, clockMinutes, JS.split. rewrite Hs. simpl.
  rewrite (isDigit_not_colon h1), (isDigit_not_colon h2),
    (isDigit_not_colon m1), (isDigit_not_colon m2) by done.
  simpl. unfold LocalizedDate.getZ. simpl. unfold JS.Number.
  change (JS.chars (String h1 (String h2 ""))) with [h1; h2].
  change (JS.chars (String m1 (String m2 ""))) with [m1; m2].
  simpl. rewrite D1, D2, D3, D4. simpl. f_equal. unfold JS.digitsVal. simpl. lia.
Qed.

Lemma clockMinutes_zero (s : string) :
  time24Regex s = true → (clockMinutes s = 0 ↔ s = "00:00").
Proof.
  intros H. split; [|by intros ->].
  destruct (time24Regex_inv s H) as (h1 & h2 & m1 & m2 & Hs & D1 & D2 & D3 & D4).
  unfold clockMinutes. rewrite Hs. intros H0.
  rewrite <- (str_chars s), Hs.
  rewrite (isDigit_zero h1), (isDigit_zero h2), (isDigit_zero m1), (isDigit_zero m2)
    by (done || lia).
  reflexivity.
Qed.

(* ===================================================================== *)
(** * Validation *)
(* ===================================================================== *)

Lemma zOptional_inv (ok : string → bool) (msg : string → string) (name : string)
      (p q : prop string) :
  zOptional ok msg name p = ([], q) →
  q = p ∧ ∀ s, p = Value s → ok s = true.
Proof.
  unfold zOptional. destruct p as [| |s]; try (intros [= <-]; split; [done | by intros ? [=]]).
  destruct (ok s) eqn:E; [|discriminate].
  intros [= <-]. split; [done | by intros ? [= <-]].
Qed.

(** What a successful [parse] guarantees of its output. *)
Lemma parse_ok (data : TurnoInput) (v : TurnoInsert) :
  turnoInsertSchema.parse data = Ok v →
  isoDateRegex (i_fecha v) = true
  ∧ i_turno v = in_turno data
  ∧ i_startShift v = in_startShift data
  ∧ i_endShift v = in_endShift data
  ∧ i_esVacaciones v = zDefault false (in_esVacaciones data)
  ∧ i_notas v = zDefault "" (in_notas data)
  ∧ i_personaId v = in_personaId data
  ∧ (∀ s, i_startShift v = Value s → time24Regex s = true)
  ∧ (∀ s, i_endShift v = Value s → time24Regex s = true).
Proof.
  unfold turnoInsertSchema.parse.
  destruct (zRegex _ _ _ (in_fecha data)) as [e1 f] eqn:E1.
  destruct (zOptional _ _ "turno" _) as [e2 t] eqn:E2.
  destruct (zOptional _ _ "startShift" _) as [e3 s] eqn:E3.
  destruct (zOptional _ _ "endShift" _) as [e4 e] eqn:E4.
  destruct (zOptional _ _ "personaId" _) as [e5 p] eqn:E5.
  destruct (e1 ++ e2 ++ e3 ++ e4 ++ e5) eqn:Eall; [|discriminate].
  apply app_eq_nil in Eall as [-> Eall]. apply app_eq_nil in Eall as [-> Eall].
  apply app_eq_nil in Eall as [-> Eall]. apply app_eq_nil in Eall as [-> ->].
  apply zOptional_inv in E2 as [-> _]. apply zOptional_inv in E3 as [-> H3].
  apply zOptional_inv in E4 as [-> H4]. apply zOptional_inv in E5 as [-> _].
  intros [= <-]. simpl. split_and!; try done.
  unfold zRegex in E1. destruct (in_fecha data) as [| |s0]; try discriminate.
  destruct (isoDateRegex s0) eqn:E; by inversion E1; subst.
Qed.

(** After a successful [parse] the date is canonical already, and the
    rest of [validate] is the vacation rule followed by the checks. *)
Lemma validate_parsed (global : LocaleConfig) (data : TurnoInput) (v : TurnoInsert) :
  turnoInsertSchema.parse data = Ok v →
  TurnoService.validate global data
  = TurnoService.checkRules (TurnoService.clearOnVacation v).
Proof.
  intros Hp. pose proof (parse_ok _ _ Hp) as (Hiso & _).
  unfold TurnoService.validate. rewrite Hp.
  unfold normalizeDateInput. rewrite Hiso.
  destruct (JS.truthy (i_fecha v)); by destruct v.
Qed.

Lemma truthyStr_time (p : prop string) :
  (∀ s, p = Value s → time24Regex s = true) →
  truthyStr (get p) = match p with Value _ => true | _ => false end.
Proof.
  intros H. destruct p as [| |s]; simpl; try done.
  apply time24Regex_truthy. by apply H.
Qed.

(** C3.  For a candidate that passed the schema and still has both times
    after the vacation rule, both are well-formed and validation fails with
    the time-order error exactly when the start is numerically at or after
    the end and the end is not ["00:00"].  So 07:00 to 15:00 passes, 22:00
    to 06:00 fails with that error, and 22:00 to 00:00 passes. *)
Theorem time_order_rule :
  (∀ global data v s e,
     turnoInsertSchema.parse data = Ok v →
     i_startShift (TurnoService.clearOnVacation v) = Value s →
     i_endShift (TurnoService.clearOnVacation v) = Value e →
     time24Regex s = true ∧ time24Regex e = true
     ∧ (TurnoService.validate global data = Err InvalidTimeOrder
        ↔ clockMinutes e ≤ clockMinutes s ∧ e ≠ "00:00"))
  ∧ is_Some (toOption (TurnoService.validate esAR
                         (shiftInput "2025-01-01" "mañana" "07:00" "15:00")))
  ∧ TurnoService.validate esAR (shiftInput "2025-01-01" "noche" "22:00" "06:00")
    = Err InvalidTimeOrder
  ∧ is_Some (toOption (TurnoService.validate esAR
                         (shiftInput "2025-01-01" "noche" "22:00" "00:00"))).
Proof.
  split; [|split_and!; vm_compute; solve [reflexivity | by eexists]].
  intros global data v s e Hp Hs He.
  pose proof (parse_ok _ _ Hp) as (_ & _ & _ & _ & _ & _ & _ & H3 & H4).
  rewrite (validate_parsed _ _ _ Hp).
  unfold TurnoService.clearOnVacation in *.
  destruct (i_esVacaciones v) eqn:Hv; [discriminate Hs|].
  pose proof (H3 s Hs) as Rs. pose proof (H4 e He) as Re.
  split; [done|]. split; [done|].
  unfold TurnoService.checkRules. rewrite Hv, Hs, He. simpl.
  rewrite andb_false_r, (time24Regex_truthy s), (time24Regex_truthy e) by done.
  simpl. rewrite (minutesOf_clock s), (minutesOf_clock e) by done.
  unfold TurnoService.badOrder.
  pose proof (clockMinutes_zero e Re) as Hz.
  destruct (Z.leb_spec (Z.of_nat (clockMinutes e)) (Z.of_nat (clockMinutes s)))
    as [Hle | Hgt];
    destruct (Z.eqb_spec (Z.of_nat (clockMinutes e)) 0) as [H0 | Hn0]; simpl.
  - split; [discriminate|]. intros [_ Hne]. exfalso. apply Hne, Hz. lia.
  - split; [intros _ | done]. split; [lia|]. intros E. apply Hz in E. lia.
  - split; [discriminate | lia].
  - split; [discriminate | lia].
Qed.

(** C9.  For a candidate that passed the schema, validation fails with
    the incomplete-range error exactly when, after the vacation rule, one
    of [startShift] and [endShift] is present and the other is not. *)
Theorem incomplete_range_rule (global : LocaleConfig) (data : TurnoInput)
        (v : TurnoInsert) :
  turnoInsertSchema.parse data = Ok v →
  let c := TurnoService.clearOnVacation v in
  TurnoService.validate global data = Err IncompleteTimeRange
  ↔ (is_Some (get (i_startShift c)) ∧ get (i_endShift c) = None)
    ∨ (get (i_startShift c) = None ∧ is_Some (get (i_endShift c))).
Proof.
  intros Hp c. pose proof (parse_ok _ _ Hp) as (_ & _ & _ & _ & _ & _ & _ & H3 & H4).
  rewrite (validate_parsed _ _ _ Hp). fold c.
  unfold TurnoService.checkRules.
  assert (Hc3 : ∀ s, i_startShift c = Value s → time24Regex s = true).
  { subst c. unfold TurnoService.clearOnVacation.
    destruct (i_esVacaciones v); [by intros ? [=] | done]. }
  assert (Hc4 : ∀ s, i_endShift c = Value s → time24Regex s = true).
  { subst c. unfold TurnoService.clearOnVacation.
    destruct (i_esVacaciones v); [by intros ? [=] | done]. }
  assert (Hconf : truthyStr (get (i_turno c)) && i_esVacaciones c = false).
  { subst c. unfold TurnoService.clearOnVacation.
    destruct (i_esVacaciones v) eqn:E; simpl; [done | by rewrite E, andb_false_r]. }
  rewrite Hconf, (truthyStr_time _ Hc3), (truthyStr_time _ Hc4).
  destruct (i_startShift c) as [| |s], (i_endShift c) as [| |e]; simpl;
    try destruct (TurnoService.badOrder _ _);
    (split;
     [ intros H;
       first [ discriminate H
             | left; split; [by eexists | done]
             | right; split; [done | by eexists] ]
     | intros [[Hs He] | [Hs He]];
       first [ done | by destruct Hs | by destruct He | discriminate ] ]).
Qed.

(** One turn of the loop, with the calls it makes: the first read of
    [findByFecha], the read of [upsert], and then the create, or the read
    and the replace of [update]. *)
Lemma bulkStep_turn (data : TurnoInsert) (acc : BulkResult) (w : World) :
  ∃ w' acc',
    TurnoRepository.bulkStep data acc w = (w', Ok acc')
    ∧ fault w' = fault w
    ∧ ((∃ d, acc' = {| inserted := inserted acc'; updated := updated acc';
                       skipped := skipped acc; warnings := warnings acc;
                       items := items acc ++ [Some d] |}
             ∧ written data d
             ∧ calls w < calls w'
             ∧ ∀ i, calls w ≤ i < calls w' → fault w i = false)
       ∨ (∃ b, acc' = countSkipped acc (i_fecha data) (CosmosError 503)
               ∧ calls w' = S b
               ∧ calls w ≤ b
               ∧ fault w b = true
               ∧ ∀ i, calls w ≤ i < b → fault w i = false)).
Proof.
  unfold TurnoRepository.bulkStep, tryCatch, bind, TurnoRepository.findByFecha.
  rewrite findById_run.
  destruct (fault w (calls w)) eqn:F0.
  { eexists _, _. split_and!; [done | done |]. right. exists (calls w).
    split_and!; [done | done | done | done |]. intros i Hi. lia. }
  change (stored (container w) _) with (stored (container w) (keyOf data)).
  rewrite upsert_run. simpl.
  destruct (fault w (S (calls w))) eqn:F1.
  { eexists _, _. split_and!; [done | done |]. right. exists (S (calls w)).
    split_and!; [done | done | lia | done |].
    intros i Hi. by assert (i = calls w) as -> by lia. }
  destruct (stored (container w) (keyOf data)) as [e|] eqn:He.
  - rewrite (update_run data e) by done. simpl.
    destruct (fault w (S (S (calls w)))) eqn:F2.
    { eexists _, _. split_and!; [done | done |]. right. exists (S (S (calls w))).
      split_and!; [done | done | lia | done |].
      intros i Hi.
      assert (i = calls w ∨ i = S (calls w)) as [-> | ->] by lia; done. }
    destruct (fault w (S (S (S (calls w))))) eqn:F3.
    { eexists _, _. split_and!; [done | done |]. right.
      exists (S (S (S (calls w)))).
      split_and!; [done | done | lia | done |].
      intros i Hi.
      assert (i = calls w ∨ i = S (calls w) ∨ i = S (S (calls w)))
        as [-> | [-> | ->]] by lia; done. }
    eexists _, _. split_and!; [done | done |]. left. eexists.
    split_and!; [done | | simpl; lia |].
    + constructor. by eapply stored_key.
    + simpl. intros i Hi.
      assert (i = calls w ∨ i = S (calls w) ∨ i = S (S (calls w))
              ∨ i = S (S (S (calls w))))
        as [-> | [-> | [-> | ->]]] by lia; done.
  - destruct (fault w (S (S (calls w)))) eqn:F2.
    { eexists _, _. split_and!; [done | done |]. right. exists (S (S (calls w))).
      split_and!; [done | done | lia | done |].
      intros i Hi.
      assert (i = calls w ∨ i = S (calls w)) as [-> | ->] by lia; done. }
    eexists _, _. split_and!; [done | done |]. left. eexists.
    split_and!; [done | constructor | simpl; lia |].
    simpl. intros i Hi.
    assert (i = calls w ∨ i = S (calls w) ∨ i = S (S (calls w)))
      as [-> | [-> | ->]] by lia; done.
Qed.

Lemma bulkLoop_turns (turnosData : list TurnoInsert) :
  ∀ (w : World) (acc : BulkResult),
    ∃ w' r outs,
      TurnoRepository.bulkLoop turnosData acc w = (w', Ok r)
      ∧ fault w' = fault w
      ∧ turns (fault w) (calls w) turnosData outs (calls w')
      ∧ items r = items acc ++ (Some <$> persisted outs)
      ∧ warnings r = warnings acc ++ skipWarnings turnosData outs.
Proof.
  induction turnosData as [|c cs IH]; intros w acc.
  - exists w, acc, []. simpl. rewrite !app_nil_r.
    split_and!; [done | done | constructor | done | done].
  - destruct (bulkStep_turn c acc w)
      as (w1 & acc1 & Hrun & Hf
          & [(d & Hacc & Hw & Hlt & Hok) | (b & Hacc & Hb & Hle & Hrej & Hok)]).
    + destruct (IH w1 acc1) as (w' & r & outs & Hloop & Hf' & Ht & Hit & Hwa).
      exists w', r, (Some d :: outs). simpl. unfold bind. rewrite Hrun, Hloop.
      rewrite Hf in Hf', Ht. rewrite Hacc in Hit, Hwa. simpl in Hit, Hwa.
      rewrite <- app_assoc in Hit.
      split_and!; [done | done | | done | done].
      by apply (TurnPersisted _ _ (calls w1)).
    + destruct (IH w1 acc1) as (w' & r & outs & Hloop & Hf' & Ht & Hit & Hwa).
      exists w', r, (None :: outs). simpl. unfold bind. rewrite Hrun, Hloop.
      rewrite Hf in Hf', Ht. rewrite Hb in Ht.
      rewrite Hacc in Hit, Hwa. simpl in Hit, Hwa.
      rewrite <- app_assoc in Hwa.
      split_and!; [done | done | | done | done].
      by apply (TurnSkipped _ _ b).
Qed.

Lemma turns_length (rejected : nat → bool) (a z : nat) (cs : list TurnoInsert)
      (outs : list (option TurnoDocument)) :
  turns rejected a cs outs z → length outs = length cs ∧ a ≤ z.
Proof.
  induction 1 as [a | a b z c d cs outs Hab _ _ _ [IH1 IH2]
                    | a b z c cs outs Hab _ _ _ [IH1 IH2]]; simpl;
    split; lia.
Qed.

(** The documents persisted have the keys of candidates. *)
Lemma turns_keys (rejected : nat → bool) (a z : nat) (cs : list TurnoInsert)
      (outs : list (option TurnoDocument)) :
  turns rejected a cs outs z →
  ∀ k, k ∈ docKey <$> persisted outs → k ∈ keyOf <$> cs.
Proof.
  induction 1 as [a | a b z c d cs outs _ _ Hw _ IH
                    | a b z c cs outs _ _ _ _ IH]; simpl; intros k Hk.
  - done.
  - apply elem_of_cons in Hk as [-> | Hk].
    + rewrite (written_key _ _ Hw). by left.
    + right. by apply IH.
  - right. by apply IH.
Qed.

(** Among candidates with pairwise different keys, nothing is persisted
    under the key of a skipped one. *)
Lemma turns_skipped_key (rejected : nat → bool) (a z : nat)
      (cs : list TurnoInsert) (outs : list (option TurnoDocument)) :
  turns rejected a cs outs z →
  NoDup (keyOf <$> cs) →
  ∀ i c, cs !! i = Some c → outs !! i = Some None →
         keyOf c ∉ docKey <$> persisted outs.
Proof.
  induction 1 as [a | a b z c d cs outs _ _ Hw Ht IH
                    | a b z c cs outs _ _ _ Ht IH]; simpl;
    intros Hnd i c' Hc Ho.
  - done.
  - apply NoDup_cons in Hnd as [Hc' Hnd].
    destruct i as [|i]; [done|]. simpl in Hc, Ho.
    apply not_elem_of_cons. split; [|by eapply IH].
    rewrite (written_key _ _ Hw). intros E. apply Hc'. rewrite <- E.
    apply list_elem_of_fmap_2. by eapply list_elem_of_lookup_2.
  - apply NoDup_cons in Hnd as [Hc' Hnd].
    destruct i as [|i]; simpl in Hc, Ho.
    + injection Hc as <-. intros Hk. apply Hc'. by eapply turns_keys.
    + by eapply IH.
Qed.

(** Under a network that rejects no call from [a] on, every candidate is
    persisted. *)
Lemma turns_working (rejected : nat → bool) (a z : nat) (cs : list TurnoInsert)
      (outs : list (option TurnoDocument)) :
  turns rejected a cs outs z →
  (∀ i, a ≤ i → rejected i = false) →
  skipWarnings cs outs = []
  ∧ docKey <$> persisted outs = keyOf <$> cs.
Proof.
  induction 1 as [a | a b z c d cs outs Hab _ Hw _ IH
                    | a b z c cs outs Hab _ Hrej _ IH]; simpl; intros Hall.
  - done.
  - destruct IH as [H1 H2]; [intros i Hi; apply Hall; lia|].
    split; [exact H1|]. rewrite (written_key _ _ Hw). f_equal. exact H2.
  - rewrite Hall in Hrej by done. discriminate.
Qed.

Lemma filter_fmap_length {A B} (f : B → bool) (g : A → B) (l : list A) :
  length (List.filter f (g <$> l)) = length (List.filter (fun a => f (g a)) l).
Proof.
  induction l as [|a l IH]; [done|].
  rewrite fmap_cons. simpl. destruct (f (g a)); simpl; rewrite IH; done.
Qed.

(* ===================================================================== *)
(** * Upsert and bulk upsert *)
(* ===================================================================== *)

(** C4.  [bulkUpsert] on candidates with pairwise different keys always
    returns: every candidate is counted once, as inserted, updated or
    skipped; each skip comes with one warning naming the date of a
    candidate; the items are documents written for candidates and each is
    what the container holds under its key afterwards; the documents written
    to keys that held a document before number [updated], the others
    [inserted]; and a key without an item holds what it held before.
    The loop takes the candidates in turn: a candidate none of whose SDK
    calls is rejected is persisted, its document carries its key and is the
    next item; a candidate is skipped exactly at its first rejected call,
    its warning carries its date and the error of the SDK, the container
    keeps what it held under its key, and the loop goes on with the next
    candidate at the next call.  When the network rejects no call, nothing
    is skipped, the items carry the keys of the candidates in their order,
    [updated] is the number of candidates whose key held a document before
    and [inserted] the number of the others. *)
Theorem bulkUpsert_accounting (turnosData : list TurnoInsert) (w : World) :
  NoDup (keyOf <$> turnosData) →
  ∃ w' r docs outs,
    TurnoRepository.bulkUpsert turnosData w = (w', Ok r)
    ∧ inserted r + updated r + skipped r = length turnosData
    ∧ length (warnings r) = skipped r
    ∧ (∀ x, x ∈ warnings r → ∃ c err, c ∈ turnosData ∧ x = WStorage (i_fecha c) err)
    ∧ items r = Some <$> docs
    ∧ updated r = length (List.filter (existedIn (container w)) docs)
    ∧ inserted r
      = length (List.filter (fun d => negb (existedIn (container w) d)) docs)
    ∧ (∀ d, d ∈ docs →
         (∃ c, c ∈ turnosData ∧ written c d)
         ∧ stored (container w') (docKey d) = Some d)
    ∧ (∀ k, k ∉ docKey <$> docs →
         stored (container w') k = stored (container w) k)
    ∧ turns (fault w) (calls w) turnosData outs (calls w')
    ∧ docs = persisted outs
    ∧ warnings r = skipWarnings turnosData outs
    ∧ (∀ i c, turnosData !! i = Some c → outs !! i = Some None →
         stored (container w') (keyOf c) = stored (container w) (keyOf c))
    ∧ ((∀ i, calls w ≤ i → fault w i = false) →
       skipped r = 0
       ∧ docKey <$> docs = keyOf <$> turnosData
       ∧ updated r
         = length (List.filter (fun c => keyHeld (container w) (keyOf c))
                     turnosData)
       ∧ inserted r
         = length (List.filter (fun c => negb (keyHeld (container w) (keyOf c)))
                     turnosData)).
Proof.
  intros Hnd. unfold TurnoRepository.bulkUpsert.
  set (acc0 := {| inserted := 0; updated := 0; skipped := 0;
                  warnings := []; items := [] |}).
  destruct (bulkLoop_spec turnosData w acc0 Hnd)
    as (w' & r & docs & ws & Hloop & Hit & Hwa & Hin & Hup & Hsk & Hlen
        & Hws & Hdocs & Hfr).
  destruct (bulkLoop_turns turnosData w acc0)
    as (w2 & r2 & outs & Hloop2 & Hf & Ht & Hit2 & Hwa2).
  rewrite Hloop in Hloop2. injection Hloop2 as <- <-.
  simpl in *. subst ws.
  assert (Hd : docs = persisted outs).
  { rewrite Hit in Hit2. by apply (inj (fmap Some)) in Hit2. }
  exists w', r, docs, outs.
  split_and!; try done; try lia.
  - pose proof (filter_split_length (existedIn (container w)) docs). lia.
  - intros i c Hc Ho. apply Hfr. rewrite Hd. by eapply turns_skipped_key.
  - intros Hall. destruct (turns_working _ _ _ _ _ Ht Hall) as [Hw0 Hk].
    rewrite <- Hd in Hk.
    split_and!.
    + rewrite Hsk, Hwa2, Hw0. done.
    + done.
    + rewrite Hup.
      change (List.filter (existedIn (container w)) docs)
        with (List.filter (fun d => keyHeld (container w) (docKey d)) docs).
      by rewrite <- (filter_fmap_length (keyHeld (container w)) docKey docs),
                 Hk, filter_fmap_length.
    + rewrite Hin.
      change (List.filter (fun d => negb (existedIn (container w) d)) docs)
        with (List.filter (fun d => negb (keyHeld (container w) (docKey d))) docs).
      by rewrite <- (filter_fmap_length (fun k => negb (keyHeld (container w) k))
                       docKey docs),
                 Hk, filter_fmap_length.
Qed.

(** C1, as amended.  When the key of the input holds a document and the
    three calls go through, [upsert] stores and returns the merge of the
    input over that document: a property the input carries replaces the
    stored one (and removes it when it carries [undefined]), an optional
    property the input does not carry keeps its stored value, [createdAt]
    is kept and [updatedAt] is the reading of the clock; no other key is
    touched. *)
Theorem upsert_existing_merges (data : TurnoInsert) (w : World) (e : TurnoDocument) :
  stored (container w) (keyOf data) = Some e →
  fault w (calls w) = false →
  fault w (S (calls w)) = false →
  fault w (S (S (calls w))) = false →
  ∃ w' d,
    TurnoRepository.upsert data w = (w', Ok (Some d))
    ∧ stored (container w') (keyOf data) = Some d
    ∧ (∀ k, k ≠ keyOf data → stored (container w') k = stored (container w) k)
    ∧ id d = id e
    ∧ fecha d = i_fecha data
    ∧ esVacaciones d = i_esVacaciones data
    ∧ notas d = Some (i_notas data)
    ∧ turno d = spread (turno e) (i_turno data)
    ∧ startShift d = spread (startShift e) (i_startShift data)
    ∧ endShift d = spread (endShift e) (i_endShift data)
    ∧ personaId d = spread (personaId e) (i_personaId data)
    ∧ createdAt d = createdAt e
    ∧ updatedAt d = clock w (ticks w).
Proof.
  intros He F0 F1 F2.
  rewrite upsert_run, F0. cbv zeta. rewrite He.
  rewrite (update_run data e) by done. simpl. rewrite F1, F2.
  eexists _, _. split; [done|]. simpl.
  split_and!; try done.
  - apply (stored_replaced_same _ _ _ e); [done|].
    apply merged_key. by eapply stored_key.
  - intros k Hk. apply stored_replaced_other; [done|].
    apply merged_key. by eapply stored_key.
Qed.

(* ===================================================================== *)
(** * The Excel import *)
(* ===================================================================== *)

(** What a document written for a candidate takes from it. *)
Lemma written_fields (data : TurnoInsert) (d : TurnoDocument) :
  written data d →
  esVacaciones d = i_esVacaciones data
  ∧ (i_turno data ≠ Missing → turno d = get (i_turno data))
  ∧ (i_startShift data ≠ Missing → startShift d = get (i_startShift data))
  ∧ (i_endShift data ≠ Missing → endShift d = get (i_endShift data)).
Proof.
  intros [t | e t Hk]; simpl; [done|].
  split; [done|].
  split_and!; intros H;
    match goal with |- spread _ ?p = _ => by destruct p end.
Qed.

Lemma upsert_written (data : TurnoInsert) (w w' : World) (d : option TurnoDocument) :
  TurnoRepository.upsert data w = (w', Ok d) → ∃ d', d = Some d' ∧ written data d'.
Proof.
  intros H. pose proof (upsert_outcome data w) as Hout. rewrite H in Hout.
  simpl in Hout. inversion Hout as [Hs Hc | e Hs Hc | Hc]; subst.
  - eexists. split; [done | constructor].
  - eexists. split; [done|]. constructor. by eapply stored_key.
Qed.

(** The items of [bulkLoop] beyond those it started with are documents
    written for candidates. *)
Lemma bulkLoop_items (turnosData : list TurnoInsert) :
  ∀ (w w' : World) (acc r : BulkResult),
    TurnoRepository.bulkLoop turnosData acc w = (w', Ok r) →
    ∀ x, x ∈ items r →
         x ∈ items acc ∨ ∃ c d, c ∈ turnosData ∧ x = Some d ∧ written c d.
Proof.
  induction turnosData as [|c cs IH]; intros w w' acc r Hrun x Hx.
  - inversion Hrun; subst. by left.
  - simpl in Hrun. unfold bind in Hrun.
    destruct (bulkStep_outcome c acc w) as (w1 & acc1 & Hstep & Hout).
    rewrite Hstep in Hrun.
    destruct (IH _ _ _ _ Hrun x Hx) as [Hacc | (c' & d & Hc' & -> & Hw)].
    + destruct Hout as [d Hs Hw Hcont | e d Hs Hw Hcont | err Hcont]; simpl in Hacc.
      * apply elem_of_app in Hacc as [? | ->%list_elem_of_singleton]; [by left|].
        right. exists c, d. split; [by left | done].
      * apply elem_of_app in Hacc as [? | ->%list_elem_of_singleton]; [by left|].
        right. exists c, d. split; [by left | done].
      * by left.
    + right. exists c', d. split; [by right | done].
Qed.

Lemma ofOption_own {A} (o : option A) : ofOption o ≠ Missing.
Proof. by destruct o. Qed.

Lemma rowsLoop_shaped (excelData : list ExcelRowInput) :
  ∀ i warnings validRows,
    Forall excelShaped validRows →
    Forall excelShaped (TurnoService.rowsLoop i excelData warnings validRows).2.
Proof.
  induction excelData as [|row rest IH]; intros i ws vs Hvs; simpl; [done|].
  destruct (excelRowSchema.parse row) as [r | err].
  - apply IH. apply Forall_app. split; [done|]. apply Forall_singleton.
    unfold excelShaped. simpl.
    destruct (r_vacaciones r); split_and!;
      try done; try apply ofOption_own.
  - destruct err; by apply IH.
Qed.

Lemma dedupLoop_subset (validRows : list TurnoInsert) :
  ∀ seen warnings uniqueRows c,
    c ∈ (TurnoService.dedupLoop validRows seen warnings uniqueRows).2 →
    c ∈ uniqueRows ∨ c ∈ validRows.
Proof.
  induction validRows as [|row rest IH]; intros seen ws us c Hc; simpl in *; [by left|].
  case_bool_decide.
  - destruct (IH _ _ _ _ Hc); [by left | right; by right].
  - destruct (IH _ _ _ _ Hc) as [[? | ->%list_elem_of_singleton]%elem_of_app | ?].
    + by left.
    + right. by left.
    + right. by right.
Qed.

(** C2.  A vacation record carries no shift: the record [upsertTurno]
    returns for an input with [esVacaciones = true], and every vacation
    record among the items the Excel import returns, has neither [turno]
    nor [startShift] nor [endShift], whatever the input held there. *)
Theorem vacation_clears_shift :
  (∀ data w w' d,
     in_esVacaciones data = Value true →
     TurnoService.upsertTurno data w = (w', Ok d) →
     ∃ d', d = Some d' ∧ esVacaciones d' = true
           ∧ turno d' = None ∧ startShift d' = None ∧ endShift d' = None)
  ∧ (∀ excelData w w' r d,
       TurnoService.processExcelData excelData w = (w', Ok r) →
       Some d ∈ items r → esVacaciones d = true →
       turno d = None ∧ startShift d = None ∧ endShift d = None).
Proof.
  split.
  - intros data w w' d Hvac Hrun.
    unfold TurnoService.upsertTurno, tryCatch in Hrun.
    destruct (TurnoService.validate (globalLocaleConfig w) data) as [v | err] eqn:Hval.
    + destruct (TurnoRepository.upsert v w) as [w1 [d1 | err]] eqn:Hup;
        [| destruct err; discriminate Hrun].
      inversion Hrun; subst.
      destruct (upsert_written _ _ _ _ Hup) as (d' & -> & Hw).
      exists d'. split; [done|].
      destruct (turnoInsertSchema.parse data) as [v0 | err] eqn:Hp.
      2:{ unfold TurnoService.validate in Hval. rewrite Hp in Hval. discriminate. }
      rewrite (validate_parsed _ _ _ Hp) in Hval.
      pose proof (parse_ok _ _ Hp) as (_ & _ & _ & _ & Hv0 & _).
      rewrite Hvac in Hv0. simpl in Hv0.
      unfold TurnoService.clearOnVacation in Hval. rewrite Hv0 in Hval.
      unfold TurnoService.checkRules in Hval. simpl in Hval.
      inversion Hval; subst.
      destruct (written_fields _ _ Hw) as (Hv & Ht & Hs & He). simpl in *.
      rewrite Hv, Ht, Hs, He by done. done.
    + destruct err; discriminate Hrun.
  - intros excelData w w' r d Hrun Hd Hvac.
    unfold TurnoService.processExcelData in Hrun.
    destruct (TurnoService.rowsLoop 0 excelData [] []) as [ws1 validRows] eqn:Hrows.
    destruct (TurnoService.dedupLoop validRows ∅ ws1 []) as [ws2 uniqueRows] eqn:Hdd.
    unfold tryCatch, bind, TurnoRepository.bulkUpsert in Hrun.
    destruct (TurnoRepository.bulkLoop uniqueRows _ w) as [w1 [r1 | err]] eqn:Hloop;
      [|discriminate Hrun].
    inversion Hrun; subst. simpl in Hd.
    destruct (bulkLoop_items _ _ _ _ _ Hloop _ Hd) as [Hnil | (c & d' & Hc & [= <-] & Hw)].
    { simpl in Hnil. by apply elem_of_nil in Hnil. }
    assert (Hshape : excelShaped c).
    { pose proof (rowsLoop_shaped excelData 0 [] [] ltac:(constructor)) as Hall.
      rewrite Hrows in Hall. simpl in Hall.
      rewrite Forall_forall in Hall. apply Hall.
      pose proof (dedupLoop_subset validRows ∅ ws1 [] c) as Hsub.
      rewrite Hdd in Hsub. simpl in Hsub.
      destruct (Hsub Hc) as [Hn | ?]; [by apply elem_of_nil in Hn | done]. }
    destruct Hshape as (Ht & Hs & He & Hv).
    destruct (written_fields _ _ Hw) as (Hvd & Htd & Hsd & Hed).
    rewrite Htd, Hsd, Hed by done.
    rewrite Hvd in Hvac. destruct (Hv Hvac) as (-> & -> & ->). done.
Qed.

(** The dates [dedupLoop] has seen after a run of rows. *)
Lemma dedupLoop_app (rows1 rows2 : list TurnoInsert) :
  ∀ (seen : gset string) warnings uniqueRows,
    TurnoService.dedupLoop (rows1 ++ rows2) seen warnings uniqueRows
    = let '(ws, us) := TurnoService.dedupLoop rows1 seen warnings uniqueRows in
      TurnoService.dedupLoop rows2 (seen ∪ list_to_set (i_fecha <$> rows1)) ws us.
Proof.
  induction rows1 as [|r rest IH]; intros seen ws us; simpl.
  - by rewrite union_empty_r_L.
  - case_bool_decide as Hin; rewrite IH.
    + assert (E : ∀ X : gset string, seen ∪ ({[i_fecha r]} ∪ X) = seen ∪ X).
      { intros X. apply set_eq. intros x.
        rewrite !elem_of_union, elem_of_singleton. split.
        - intros [H | [-> | H]]; [by left | by left | by right].
        - intros [H | H]; [by left | right; by right]. }
      by rewrite E.
    + by rewrite (union_comm_L {[i_fecha r]} seen), (assoc_L (∪)).
Qed.

(** C5.  The duplicate check of the import keeps a row exactly when no
    earlier row of the file has its date and otherwise drops it with one
    duplicate-date warning: nothing is kept of an empty file, and a row
    added at the end of the file is kept or reported according to the dates
    of all the rows before it.  On the three rows of the scenario and an
    empty container two records are stored, both counted as inserted, and
    the only warning is the duplicate of 2025-01-01. *)
Theorem dedup_first_wins :
  (∀ ws, TurnoService.dedupLoop [] ∅ ws [] = (ws, []))
  ∧ (∀ rows r ws,
       TurnoService.dedupLoop (rows ++ [r]) ∅ ws []
       = let '(ws', uniqueRows) := TurnoService.dedupLoop rows ∅ ws [] in
         if bool_decide (i_fecha r ∈ i_fecha <$> rows)
         then (ws' ++ [WDuplicate (i_fecha r)], uniqueRows)
         else (ws', uniqueRows ++ [r]))
  ∧ (∃ w' d1 d2,
       TurnoService.processExcelData scenarioRows emptyWorld
       = (w', Ok {| inserted := 2; updated := 0; skipped := 0;
                    warnings := [WDuplicate "2025-01-01"];
                    items := [Some d1; Some d2] |})
       ∧ container w' = [d1; d2]
       ∧ (fecha d1, turno d1, esVacaciones d1) = ("2025-01-01", Some "mañana", false)
       ∧ (fecha d2, turno d2, esVacaciones d2) = ("2025-01-02", None, true)).
Proof.
  split; [done|]. split; [|by eexists _, _, _; vm_compute].
  intros rows r ws. rewrite dedupLoop_app.
  destruct (TurnoService.dedupLoop rows ∅ ws []) as [ws' us]. simpl.
  rewrite union_empty_l_L.
  destruct (decide (i_fecha r ∈ i_fecha <$> rows)) as [Hin | Hout].
  - rewrite !bool_decide_eq_true_2; [done | done | by apply elem_of_list_to_set].
  - rewrite !bool_decide_eq_false_2; [done | done | by rewrite elem_of_list_to_set].
Qed.

(* ===================================================================== *)
(** * Statistics *)
(* ===================================================================== *)

Lemma increment_other (o : gmap string JS.counter) (k k' : string) :
  k ≠ k' → JS.increment o k' !! k = o !! k.
Proof.
  intros Hne. unfold JS.increment.
  destruct (String.eqb k' "__proto__"); [done|].
  destruct (o !! k') as [[n|s]|];
    [| destruct (JS.truthy s) | destruct (bool_decide _)];
    by rewrite lookup_insert_ne.
Qed.

Lemma ordinaryName_spec (k : string) :
  ordinaryName k = true →
  String.eqb k "__proto__" = false
  ∧ bool_decide (k ∈ JS.prototypeFunctions) = false.
Proof.
  unfold ordinaryName. intros [Hp Hf]%andb_prop.
  by apply negb_true_iff in Hp, Hf.
Qed.

Lemma increment_ordinary (o : gmap string JS.counter) (k : string) (n : nat) :
  ordinaryName k = true →
  o !! k = counted n →
  JS.increment o k = <[k := JS.CNum (S n)]> o.
Proof.
  intros [Hp Hf]%ordinaryName_spec Hk. unfold JS.increment.
  rewrite Hp, Hk. destruct n as [|n]; simpl.
  - by rewrite Hf.
  - by rewrite Nat.add_1_r.
Qed.

Lemma numeric_lookup (m : gmap string JS.counter) (k : string) :
  numeric m → ∃ n, m !! k = counted n.
Proof.
  intros Hm. destruct (m !! k) as [v|] eqn:Hk; [|by exists 0].
  destruct (Hm k v Hk) as (n & -> & Hn).
  exists n. by destruct n; [lia|].
Qed.

Lemma sumCounts_insert (m : gmap string JS.counter) (k : string) (n : nat) :
  m !! k = counted n →
  sumCounts (<[k := JS.CNum (S n)]> m) = S (sumCounts m).
Proof.
  intros Hk. unfold sumCounts.
  destruct n as [|n]; simpl in Hk.
  - rewrite map_fold_insert_L; [simpl; lia | intros; lia | done].
  - rewrite <- (insert_delete_eq m).
    rewrite map_fold_insert_L; [| intros; lia | apply lookup_delete_eq].
    rewrite (map_fold_delete_L _ _ k (JS.CNum (S n)) m);
      [simpl; lia | intros; lia | done].
Qed.

Lemma numeric_increment (m : gmap string JS.counter) (k : string) :
  numeric m → ordinaryName k = true →
  numeric (JS.increment m k)
  ∧ sumCounts (JS.increment m k) = S (sumCounts m).
Proof.
  intros Hm Hk. destruct (numeric_lookup m k Hm) as [n Hn].
  rewrite (increment_ordinary m k n Hk Hn). split.
  - apply map_Forall_insert_2; [|done]. exists (S n). split; [done | lia].
  - by apply sumCounts_insert.
Qed.

Lemma hasShift_turno (t : TurnoDocument) :
  hasShift t = true →
  esVacaciones t = false ∧ truthyStr (turno t) = true
  ∧ turno t = Some (default "" (turno t)).
Proof.
  unfold hasShift. intros [Hv Ht]%andb_prop. apply negb_true_iff in Hv.
  split_and!; [done | done |]. by destruct (turno t).
Qed.

Lemma statsLoop_totals (l : list TurnoDocument) (s : Stats) :
  total (TurnoRepository.statsLoop l s) = total s
  ∧ vacaciones (TurnoRepository.statsLoop l s)
    = vacaciones s + length (List.filter isVacation l).
Proof.
  revert s. induction l as [|t l IH]; intros s; simpl; [lia|].
  unfold isVacation at 1.
  destruct (esVacaciones t); [| destruct (truthyStr (turno t))];
    match goal with |- context [TurnoRepository.statsLoop l ?s'] =>
      destruct (IH s') as [-> ->] end; simpl; lia.
Qed.

Lemma statsLoop_key (l : list TurnoDocument) (s : Stats) (k : string) (n : nat) :
  ordinaryName k = true →
  porTurno s !! k = counted n →
  porTurno (TurnoRepository.statsLoop l s) !! k
  = counted (n + length (List.filter (hasShiftType k) l)).
Proof.
  intros Hk. revert s n. induction l as [|t l IH]; intros s n Hs; simpl.
  - by rewrite Nat.add_0_r.
  - unfold hasShiftType at 1, hasShift.
    destruct (esVacaciones t); simpl; [by apply IH|].
    destruct (truthyStr (turno t)) eqn:Ht; simpl; [|by apply IH].
    destruct (turno t) as [x|] eqn:Hx; [|done]. simpl.
    destruct (decide (x = k)) as [-> | Hne].
    + rewrite bool_decide_eq_true_2 by done. simpl.
      rewrite <- Nat.add_succ_comm. apply IH. simpl.
      rewrite (increment_ordinary _ k n Hk Hs). by rewrite lookup_insert_eq.
    + rewrite bool_decide_eq_false_2 by congruence.
      apply IH. simpl. by rewrite increment_other.
Qed.

Lemma statsLoop_untouched (l : list TurnoDocument) (s : Stats) (k : string) :
  (∀ t, t ∈ l → hasShiftType k t = false) →
  porTurno (TurnoRepository.statsLoop l s) !! k = porTurno s !! k.
Proof.
  revert s. induction l as [|t l IH]; intros s Hl; simpl; [done|].
  assert (Hl' : ∀ t, t ∈ l → hasShiftType k t = false).
  { intros t' Hin. apply Hl. by right. }
  pose proof (Hl t ltac:(left)) as Ht.
  unfold hasShiftType, hasShift in Ht.
  destruct (esVacaciones t); simpl in *; [by rewrite IH|].
  destruct (truthyStr (turno t)) eqn:Htr; simpl in *; [|by rewrite IH].
  rewrite IH by done. simpl. apply increment_other.
  apply bool_decide_eq_false in Ht.
  destruct (turno t) as [x|]; [|done]. simpl. intros ->. by apply Ht.
Qed.

Lemma statsLoop_sum (l : list TurnoDocument) (s : Stats) :
  numeric (porTurno s) →
  (∀ t, t ∈ l → hasShift t = true → ordinaryName (default "" (turno t)) = true) →
  numeric (porTurno (TurnoRepository.statsLoop l s))
  ∧ sumCounts (porTurno (TurnoRepository.statsLoop l s))
    = sumCounts (porTurno s) + length (List.filter hasShift l).
Proof.
  revert s. induction l as [|t l IH]; intros s Hs Hl; simpl.
  - split; [done | lia].
  - assert (Hl' : ∀ t, t ∈ l → hasShift t = true
                  → ordinaryName (default "" (turno t)) = true).
    { intros t' Hin. apply Hl. by right. }
    pose proof (Hl t ltac:(left)) as Ht.
    unfold hasShift in *.
    destruct (esVacaciones t); simpl in *;
      [match goal with |- context [TurnoRepository.statsLoop l ?s'] =>
         by apply (IH s') end|].
    destruct (truthyStr (turno t)); simpl in *; [|by apply IH].
    destruct (numeric_increment (porTurno s) (default "" (turno t)) Hs (Ht eq_refl))
      as [Hn Hsum].
    match goal with |- context [TurnoRepository.statsLoop l ?s'] =>
      destruct (IH s' Hn Hl') as [Hn' ->] end.
    simpl. split; [done | lia].
Qed.

Lemma statsLoop_same (l : list TurnoDocument) (s : Stats) :
  JsonTurnoRepository.statsLoop l s = TurnoRepository.statsLoop l s.
Proof.
  revert s. induction l as [|t l IH]; intros s; simpl; [done|]. apply IH.
Qed.

Lemma filter_partition_length (l : list TurnoDocument) :
  length (List.filter hasShift l) + length (List.filter isVacation l) ≤ length l.
Proof.
  induction l as [|t l IH]; simpl; [lia|].
  unfold hasShift, isVacation in *.
  destruct (esVacaciones t); simpl; [lia|].
  destruct (truthyStr (turno t)); simpl; lia.
Qed.

Lemma filter_all_shift (l : list TurnoDocument) :
  (∀ t, t ∈ l → esVacaciones t = false → truthyStr (turno t) = true) →
  length (List.filter hasShift l) + length (List.filter isVacation l) = length l.
Proof.
  induction l as [|t l IH]; simpl; intros H; [lia|].
  assert (Hl : ∀ t, t ∈ l → esVacaciones t = false → truthyStr (turno t) = true).
  { intros t' Hin. apply H. by right. }
  specialize (IH Hl).
  pose proof (H t ltac:(left)) as Ht.
  unfold hasShift, isVacation in *.
  destruct (esVacaciones t); simpl; [lia|].
  rewrite Ht by done. simpl. lia.
Qed.

Lemma getStats_run (from to : option string) (w : World) :
  fault w (calls w) = false →
  TurnoRepository.getStats from to w
  = (afterCall w (container w),
     Ok (TurnoRepository.statsLoop
           (List.filter (TurnoRepository.statsWhere from to) (container w))
           {| total := length (List.filter (TurnoRepository.statsWhere from to) (container w));
              porTurno := ∅; vacaciones := 0 |})).
Proof.
  intros Hf. unfold TurnoRepository.getStats, bind, itemsQuery, sdkCall, ret.
  by rewrite Hf.
Qed.

(** C6, as amended.  With no storage failure, the statistics over the
    stored records selected by the optional inclusive date range report
    [total] as their number and [vacaciones] as the number of those with
    [esVacaciones = true]; under every shift type that is not the name of a
    property a plain object inherits, [porTurno] holds the number of
    selected non-vacation records with that shift type (and no entry when
    there is none).  When the shift types of the selected non-vacation
    records are all of that kind, every counter is a positive number and
    the counters sum to the number of non-vacation records that carry a
    shift type; that sum is at most [total - vacaciones], and equal to it
    when every selected non-vacation record carries a shift type. *)
Theorem getStats_counts (from to : option string) (w : World) :
  fault w (calls w) = false →
  ∃ w' s,
    TurnoRepository.getStats from to w = (w', Ok s)
    ∧ let selected := List.filter (TurnoRepository.statsWhere from to) (container w) in
      total s = length selected
      ∧ vacaciones s = length (List.filter isVacation selected)
      ∧ (∀ k, ordinaryName k = true →
           porTurno s !! k
           = counted (length (List.filter (hasShiftType k) selected)))
      ∧ ((∀ t, t ∈ selected → hasShift t = true →
            ordinaryName (default "" (turno t)) = true) →
         numeric (porTurno s)
         ∧ sumCounts (porTurno s) = length (List.filter hasShift selected)
         ∧ sumCounts (porTurno s) ≤ total s - vacaciones s
         ∧ ((∀ t, t ∈ selected → esVacaciones t = false →
               truthyStr (turno t) = true) →
            sumCounts (porTurno s) = total s - vacaciones s)).
Proof.
  intros Hf. eexists _, _. split; [by apply getStats_run|].
  cbv zeta.
  set (selected := List.filter _ _).
  set (s0 := {| total := length selected; porTurno := ∅; vacaciones := 0 |}).
  destruct (statsLoop_totals selected s0) as [Ht Hv].
  simpl in Ht, Hv. rewrite Ht, Hv.
  split_and!; [done | done | |].
  - intros k Hk. by apply (statsLoop_key selected s0 k 0).
  - intros Hord.
    destruct (statsLoop_sum selected s0) as [Hn Hp];
      [apply map_Forall_empty | done |].
    assert (H0 : sumCounts ∅ = 0) by apply map_fold_empty.
    simpl in Hp. rewrite H0 in Hp. simpl in Hp. rewrite Hp.
    pose proof (filter_partition_length selected).
    split_and!; [done | done | lia |].
    intros Hall. pose proof (filter_all_shift selected Hall). lia.
Qed.

Lemma leb_not_ltb (a b : string) : String.leb a b = negb (String.ltb b a).
Proof.
  unfold String.leb, String.ltb. rewrite (String.compare_antisym b a).
  by destruct (String.compare a b).
Qed.

Lemma filter_true {A} (l : list A) : List.filter (fun _ => true) l = l.
Proof. induction l as [|a l IH]; simpl; congruence. Qed.

Lemma statsWhere_json (from to : option string) (l : list TurnoDocument) :
  List.filter (TurnoRepository.statsWhere from to) l
  = if truthyStr from || truthyStr to then
      List.filter
        (fun turno =>
           if truthyStr from && String.ltb (fecha turno) (default "" from) then false
           else if truthyStr to && String.ltb (default "" to) (fecha turno) then false
           else true)
        l
    else l.
Proof.
  unfold TurnoRepository.statsWhere.
  destruct (truthyStr from), (truthyStr to); simpl;
    try apply filter_true;
    apply filter_ext; intros t; rewrite ?leb_not_ltb;
    repeat match goal with |- context [String.ltb ?a ?b] => destruct (String.ltb a b) end;
    reflexivity.
Qed.

(** C10, as amended.  On the same documents and the same optional bounds,
    the statistics of the Cosmos repository (when the query is answered)
    and of the JSON repository are equal.  In both, [total] is the number
    of selected records and [vacaciones] the number of those with
    [esVacaciones = true], whatever their shift type; under a shift type
    that is not the name of a property a plain object inherits, [porTurno]
    holds the number of selected records without the vacation flag that
    carry that shift type; and [porTurno] has no entry under a name that no
    selected non-vacation record carries as its shift type. *)
Theorem getStats_backends_agree (from to : option string) (w : World) :
  fault w (calls w) = false →
  ∃ s,
    snd (TurnoRepository.getStats from to w) = Ok s
    ∧ JsonTurnoRepository.getStats (container w) from to = s
    ∧ let selected := List.filter (TurnoRepository.statsWhere from to) (container w) in
      total s = length selected
      ∧ vacaciones s = length (List.filter isVacation selected)
      ∧ (∀ k, ordinaryName k = true →
           porTurno s !! k
           = counted (length (List.filter (hasShiftType k) selected)))
      ∧ (∀ k, (∀ t, t ∈ selected → hasShiftType k t = false) →
           porTurno s !! k = None).
Proof.
  intros Hf. eexists. split; [by rewrite getStats_run|].
  split.
  { unfold JsonTurnoRepository.getStats.
    rewrite <- statsWhere_json. apply statsLoop_same. }
  cbv zeta.
  set (selected := List.filter _ _).
  set (s0 := {| total := length selected; porTurno := ∅; vacaciones := 0 |}).
  destruct (statsLoop_totals selected s0) as [Ht Hv].
  simpl in Ht, Hv. rewrite Ht, Hv.
  split_and!; [done | done | |].
  - intros k Hk. by apply (statsLoop_key selected s0 k 0).
  - intros k Hnone. by rewrite statsLoop_untouched.
Qed.

(* ===================================================================== *)
(** * More of the repository *)
(* ===================================================================== *)

Lemma stored_None (c : list TurnoDocument) (k : string * string) :
  stored c k = None ↔ k ∉ docKey <$> c.
Proof.
  unfold stored. induction c as [|d c IH]; simpl.
  - split; [intros _ H; by apply elem_of_nil in H | done].
  - destruct (sameItem k.1 k.2 d) eqn:E.
    + apply sameItem_spec in E. split; [done|]. intros H. exfalso. apply H.
      rewrite E. destruct k. by left.
    + rewrite IH, not_elem_of_cons. split; [|by intros [_ ?]].
      intros H. split; [|done]. intros ->.
      assert (sameItem (docKey d).1 (docKey d).2 d = true)
        by (by apply sameItem_spec).
      congruence.
Qed.

Lemma stored_elem (c : list TurnoDocument) (k : string * string) (d : TurnoDocument) :
  stored c k = Some d → d ∈ c.
Proof. unfold stored. intros H%find_some. by apply list_elem_of_In, H. Qed.

Lemma replaced_keys (k : string * string) (doc : TurnoDocument)
      (c : list TurnoDocument) :
  docKey doc = k → docKey <$> replaced k doc c = docKey <$> c.
Proof.
  intros Hk. unfold replaced. induction c as [|d c IH]; [done|].
  cbn [map]. rewrite !fmap_cons. f_equal; [|exact IH].
  destruct (sameItem k.1 k.2 d) eqn:E; [|done].
  apply sameItem_spec in E. rewrite Hk, E. by destruct k.
Qed.

Lemma replaced_length (k : string * string) (doc : TurnoDocument)
      (c : list TurnoDocument) :
  length (replaced k doc c) = length c.
Proof. unfold replaced. apply length_map. Qed.

Lemma stored_filter_same (c : list TurnoDocument) (k : string * string) :
  stored (List.filter (fun d => negb (sameItem k.1 k.2 d)) c) k = None.
Proof.
  unfold stored. induction c as [|d c IH]; simpl; [done|].
  destruct (sameItem k.1 k.2 d) eqn:E; simpl; [done | by rewrite E].
Qed.

Lemma stored_filter_other (c : list TurnoDocument) (k k' : string * string) :
  k' ≠ k →
  stored (List.filter (fun d => negb (sameItem k.1 k.2 d)) c) k' = stored c k'.
Proof.
  intros Hne. unfold stored. induction c as [|d c IH]; simpl; [done|].
  destruct (sameItem k.1 k.2 d) eqn:E; simpl.
  - apply sameItem_spec in E. rewrite (sameItem_other k' d); [done|].
    destruct k; simpl in *. congruence.
  - by destruct (sameItem k'.1 k'.2 d).
Qed.

Lemma delete_run (itemId pk : string) (w : World) :
  TurnoRepository.delete itemId pk w
  = if fault w (calls w) then (afterCall w (container w), Err (CosmosError 503))
    else match stored (container w) (itemId, pk) with
         | Some _ =>
             (afterCall w
                (List.filter (fun d => negb (sameItem itemId pk d)) (container w)),
              Ok true)
         | None => (afterCall w (container w), Ok false)
         end.
Proof.
  unfold TurnoRepository.delete, tryCatch, bind, itemDelete, sdkCall, ret, throw.
  destruct (fault w (calls w)); [done|].
  pose proof (stored_existsb (container w) (itemId, pk)) as Hex. simpl in Hex.
  rewrite Hex. by destruct (stored (container w) (itemId, pk)).
Qed.

(** X1.  [delete] on a working connection answers whether the document was
    there; afterwards the key is free, [findById] finds nothing under it,
    and every other key holds what it held. *)
Theorem delete_then_find (itemId pk : string) (w : World) :
  fault w (calls w) = false →
  ∃ w',
    TurnoRepository.delete itemId pk w
    = (w', Ok (bool_decide (is_Some (stored (container w) (itemId, pk)))))
    ∧ stored (container w') (itemId, pk) = None
    ∧ (∀ k, k ≠ (itemId, pk) → stored (container w') k = stored (container w) k)
    ∧ (fault w' (calls w') = false →
       (TurnoRepository.findById itemId pk w').2 = Ok None).
Proof.
  intros Hf. rewrite delete_run, Hf.
  destruct (stored (container w) (itemId, pk)) as [d|] eqn:Hs.
  - eexists. split; [by rewrite bool_decide_eq_true_2|]. simpl.
    split_and!.
    + apply (stored_filter_same _ (itemId, pk)).
    + intros k Hk. by apply (stored_filter_other _ (itemId, pk)).
    + intros Hf'. rewrite findById_run. simpl in *. rewrite Hf'. simpl.
      f_equal. apply (stored_filter_same _ (itemId, pk)).
  - eexists. split.
    + rewrite bool_decide_eq_false_2; [done | by intros [? ?]].
    + simpl. split_and!; [done | done |].
      intros Hf'. rewrite findById_run. simpl in *. by rewrite Hf', Hs.
Qed.



Lemma upsert_stored (data : TurnoInsert) (w w' : World) (d : TurnoDocument) :
  TurnoRepository.upsert data w = (w', Ok (Some d)) →
  stored (container w') (keyOf data) = Some d ∧ written data d.
Proof.
  intros Hup.
  pose proof (upsert_outcome data w) as Hout. rewrite Hup in Hout. simpl in Hout.
  inversion Hout as [Hs Hc | e Hs Hc | Hc]; subst.
  - split; [|constructor]. rewrite Hc, stored_app, Hs.
    assert (sameItem (keyOf data).1 (keyOf data).2
              (createTurnoDocument (clock w (ticks w)) data) = true) as ->; [|done].
    by apply sameItem_spec.
  - assert (Hk : docKey e = keyOf data) by (by eapply stored_key).
    split; [|by constructor]. rewrite Hc.
    apply (stored_replaced_same _ _ _ e); [done | by apply merged_key].
Qed.

Lemma spread_get {A} (p : prop A) : spread (get p) p = get p.
Proof. by destruct p. Qed.

Lemma spread_spread {A} (b : option A) (p : prop A) :
  spread (spread b p) p = spread b p.
Proof. by destruct p. Qed.

(** Merging the input a second time changes [updatedAt] only. *)
Lemma merged_written (data : TurnoInsert) (d : TurnoDocument) (t : string) :
  written data d → TurnoRepository.merged d (asUpdate data) t = touched d t.
Proof.
  intros [t0 | e t0 Hk]; unfold TurnoRepository.merged, touched; simpl.
  - rewrite !spread_get. f_equal. f_equal. unfold JS.truthy.
    by destruct (String.eqb_spec (i_notas data) "") as [-> | ?].
  - by rewrite !spread_spread.
Qed.

(** X4.  [upsert] is idempotent up to [updatedAt]: repeating a successful
    [upsert] with the same input on a working connection returns the same
    document with a fresh [updatedAt], stores it under the same key and
    adds no document. *)
Theorem upsert_twice (data : TurnoInsert) (w w1 : World) (d1 : TurnoDocument) :
  TurnoRepository.upsert data w = (w1, Ok (Some d1)) →
  fault w1 (calls w1) = false →
  fault w1 (S (calls w1)) = false →
  fault w1 (S (S (calls w1))) = false →
  ∃ w2,
    TurnoRepository.upsert data w1
    = (w2, Ok (Some (touched d1 (clock w1 (ticks w1)))))
    ∧ stored (container w2) (keyOf data) = Some (touched d1 (clock w1 (ticks w1)))
    ∧ length (container w2) = length (container w1).
Proof.
  intros Hup F0 F1 F2.
  destruct (upsert_stored _ _ _ _ Hup) as [Hs Hw].
  rewrite upsert_run, F0. cbv zeta. rewrite Hs.
  rewrite (update_run data d1) by done. simpl. rewrite F1, F2.
  rewrite (merged_written _ _ _ Hw).
  eexists. split; [done|]. simpl. split.
  - apply (stored_replaced_same _ _ _ d1); [done|].
    unfold docKey. simpl. by apply (stored_key _ _ _ Hs).
  - apply replaced_length.
Qed.

(** X5.  [create] on a working connection succeeds exactly when the key of
    the input is free: then the new document is stored under that key;
    otherwise it throws the already-exists error for the date and changes
    nothing. *)
Theorem create_free_or_conflict (data : TurnoInsert) (w : World) :
  fault w (calls w) = false →
  ∃ w' r,
    TurnoRepository.create data w = (w', r)
    ∧ match stored (container w) (keyOf data) with
      | Some _ =>
          r = Err (AlreadyExists (i_fecha data)) ∧ container w' = container w
      | None =>
          r = Ok (createTurnoDocument (clock w (ticks w)) data)
          ∧ stored (container w') (keyOf data)
            = Some (createTurnoDocument (clock w (ticks w)) data)
          ∧ length (container w') = S (length (container w))
      end.
Proof.
  intros Hf. rewrite create_run. cbv zeta. rewrite Hf.
  destruct (stored (container w) (keyOf data)) as [e|] eqn:Hs.
  - by eexists _, _.
  - eexists _, _. split; [done|]. simpl. split_and!; [done | |].
    + rewrite stored_app, Hs.
      assert (sameItem (keyOf data).1 (keyOf data).2
                (createTurnoDocument (clock w (ticks w)) data) = true) as ->; [|done].
      by apply sameItem_spec.
    + rewrite length_app. simpl. lia.
Qed.

Lemma update_keys (itemId : string) (data : TurnoUpdate) (w : World) :
  docKey <$> container (TurnoRepository.update itemId data w).1
  = docKey <$> container w.
Proof.
  unfold TurnoRepository.update, tryCatch, bind, itemRead, sdkCall, now, ret, throw.
  set (pk := if truthyStr (u_fecha data) then _ else _).
  destruct (fault w (calls w)); [done|].
  destruct (find (sameItem itemId pk) (container w)) as [e|]; [|done]. simpl.
  unfold itemReplace, sdkCall. simpl.
  destruct (fault w (S (calls w))); [done|].
  set (doc := TurnoRepository.merged e data (clock w (ticks w))).
  set (pk' := default (fecha e) (u_fecha data)).
  destruct (existsb (sameItem itemId pk') (container w)); [|done].
  destruct (sameItem itemId pk' doc) eqn:Hd; [|done]. simpl.
  apply (replaced_keys (itemId, pk')). by apply sameItem_spec in Hd.
Qed.

(** X6.  [update] never adds or removes a document and never changes a key;
    on a working connection it answers [null], and changes nothing, when no
    document is stored under the id and the partition key it reads. *)
Theorem update_never_creates (itemId : string) (data : TurnoUpdate) (w : World) :
  docKey <$> container (TurnoRepository.update itemId data w).1
  = docKey <$> container w
  ∧ (fault w (calls w) = false →
     stored (container w)
       (itemId, if truthyStr (u_fecha data) then default "" (u_fecha data)
                else TurnoRepository.firstSegment itemId) = None →
     TurnoRepository.update itemId data w = (afterCall w (container w), Ok None)).
Proof.
  split; [apply update_keys|].
  intros Hf Hs.
  unfold TurnoRepository.update, tryCatch, bind, itemRead, sdkCall, now, ret, throw.
  rewrite Hf. unfold stored in Hs. simpl in Hs. by rewrite Hs.
Qed.

Lemma filter_keys_subset (f : TurnoDocument → bool) (c : list TurnoDocument)
      (k : string * string) :
  k ∈ docKey <$> List.filter f c → k ∈ docKey <$> c.
Proof.
  intros (d & -> & Hd)%list_elem_of_fmap.
  apply list_elem_of_fmap_2. apply list_elem_of_In in Hd.
  apply filter_In in Hd as [Hd _]. by apply list_elem_of_In.
Qed.

Lemma filter_uniqueKeys (f : TurnoDocument → bool) (c : list TurnoDocument) :
  uniqueKeys c → uniqueKeys (List.filter f c).
Proof.
  unfold uniqueKeys. induction c as [|d c IH]; [done|].
  rewrite fmap_cons. intros [Hd Hc]%NoDup_cons. cbn [List.filter].
  destruct (f d); [|by apply IH].
  rewrite fmap_cons. apply NoDup_cons. split; [|by apply IH].
  intros Hin. apply Hd. by eapply filter_keys_subset.
Qed.

Lemma stepOutcome_uniqueKeys (data : TurnoInsert) (acc acc' : BulkResult)
      (w w' : World) :
  stepOutcome data acc w w' acc' →
  uniqueKeys (container w) → uniqueKeys (container w').
Proof.
  unfold uniqueKeys.
  intros [d Hs Hk%written_key Hc | e d Hs Hk%written_key Hc | err Hc] Hu;
    rewrite Hc.
  - rewrite fmap_app. apply NoDup_app. split_and!; [done | | apply NoDup_singleton].
    intros k Hin ->%list_elem_of_singleton.
    rewrite Hk in Hin. by apply stored_None in Hs.
  - by rewrite replaced_keys.
  - done.
Qed.

Lemma bulkLoop_uniqueKeys (turnosData : list TurnoInsert) :
  ∀ acc, keepsUniqueKeys (TurnoRepository.bulkLoop turnosData acc).
Proof.
  induction turnosData as [|c cs IH]; intros acc w Hu; [done|].
  simpl. unfold bind.
  destruct (bulkStep_outcome c acc w) as (w1 & acc1 & Hstep & Hout).
  rewrite Hstep. apply IH. by eapply stepOutcome_uniqueKeys.
Qed.

Lemma upsert_uniqueKeys (data : TurnoInsert) :
  keepsUniqueKeys (TurnoRepository.upsert data).
Proof.
  intros w Hu. pose proof (upsert_outcome data w) as Hout.
  unfold uniqueKeys in *.
  inversion Hout as [Hs Hc | e Hs Hc | Hc]; rewrite Hc.
  - rewrite fmap_app. apply NoDup_app. split_and!; [done | | apply NoDup_singleton].
    intros k Hin ->%list_elem_of_singleton.
    by apply stored_None in Hs.
  - rewrite replaced_keys; [done|]. apply merged_key. by eapply stored_key.
  - done.
Qed.

Lemma deleteLoop_container (resources : list (string * string)) :
  ∀ n w, ∃ f, container (TurnoRepository.deleteLoop resources n w).1
              = List.filter f (container w).
Proof.
  induction resources as [|k rs IH]; intros n w; simpl.
  - exists (fun _ => true). by rewrite filter_true.
  - unfold bind, tryCatch, itemDelete, sdkCall, ret.
    destruct (fault w (calls w)).
    + destruct (IH n (afterCall w (container w))) as [f Hf]. by exists f.
    + destruct (existsb (sameItem k.1 k.2) (container w)).
      * destruct (IH (S n) (afterCall w
                    (List.filter (fun d => negb (sameItem k.1 k.2 d)) (container w))))
          as [f Hf].
        exists (fun d => negb (sameItem k.1 k.2 d) && f d).
        rewrite Hf. simpl. clear.
        induction (container w) as [|d c IHc]; simpl; [done|].
        destruct (sameItem k.1 k.2 d); simpl; [done|].
        destruct (f d); by rewrite IHc.
      * destruct (IH n (afterCall w (container w))) as [f Hf]. by exists f.
Qed.

(** X7.  Every method that writes keeps the container at one document per
    key: [create], [update], [upsert], [bulkUpsert], [delete] and
    [deleteOlderThan] of the repository, [upsertTurno] and
    [processExcelData] of the service. *)
Theorem writes_keep_unique_keys :
  (∀ data, keepsUniqueKeys (TurnoRepository.create data))
  ∧ (∀ itemId data, keepsUniqueKeys (TurnoRepository.update itemId data))
  ∧ (∀ data, keepsUniqueKeys (TurnoRepository.upsert data))
  ∧ (∀ turnosData, keepsUniqueKeys (TurnoRepository.bulkUpsert turnosData))
  ∧ (∀ itemId pk, keepsUniqueKeys (TurnoRepository.delete itemId pk))
  ∧ (∀ date, keepsUniqueKeys (TurnoRepository.deleteOlderThan date))
  ∧ (∀ data, keepsUniqueKeys (TurnoService.upsertTurno data))
  ∧ (∀ excelData, keepsUniqueKeys (TurnoService.processExcelData excelData)).
Proof.
  split_and!.
  - intros data w Hu. rewrite create_run. cbv zeta.
    destruct (fault w (calls w)); [done|].
    destruct (stored (container w) (keyOf data)) eqn:Hs; [done|]. simpl.
    unfold uniqueKeys. rewrite fmap_app.
    apply NoDup_app. split_and!; [done | | apply NoDup_singleton].
    intros k Hin ->%list_elem_of_singleton.
    by apply stored_None in Hs.
  - intros itemId data w Hu. unfold uniqueKeys. by rewrite update_keys.
  - apply upsert_uniqueKeys.
  - intros turnosData. apply bulkLoop_uniqueKeys.
  - intros itemId pk w Hu. rewrite delete_run.
    destruct (fault w (calls w)); [done|].
    destruct (stored (container w) (itemId, pk)); [|done].
    by apply filter_uniqueKeys.
  - intros date w Hu. unfold TurnoRepository.deleteOlderThan, bind, itemsQueryKeys, sdkCall.
    destruct (fault w (calls w)); [done|].
    destruct (deleteLoop_container
                ((fun d => (id d, fecha d)) <$> List.filter
                   (fun c => String.ltb (fecha c) date) (container w)) 0
                (afterCall w (container w))) as [f Hf].
    rewrite Hf. by apply filter_uniqueKeys.
  - intros data w Hu. unfold TurnoService.upsertTurno, tryCatch.
    destruct (TurnoService.validate (globalLocaleConfig w) data) as [v | err].
    + pose proof (upsert_uniqueKeys v w Hu) as Hv.
      destruct (TurnoRepository.upsert v w) as [w1 [d | err]]; [done|].
      by destruct err.
    + by destruct err.
  - intros excelData w Hu. unfold TurnoService.processExcelData.
    destruct (TurnoService.rowsLoop 0 excelData [] []) as [ws1 validRows].
    destruct (TurnoService.dedupLoop validRows ∅ ws1 []) as [ws2 uniqueRows].
    unfold tryCatch, bind, TurnoRepository.bulkUpsert.
    pose proof (bulkLoop_uniqueKeys uniqueRows
                  {| inserted := 0; updated := 0; skipped := 0;
                     warnings := []; items := [] |} w Hu) as Hb.
    by destruct (TurnoRepository.bulkLoop uniqueRows _ w) as [w1 [r | err]].
Qed.

Lemma fechaAsc_total : Total fechaAsc.
Proof. intros a b. apply String.leb_total. Qed.

(** X8.  On a working connection [findByDateRange] returns the stored
    documents whose date lies between the two bounds, both included, and,
    when a non-empty person is asked for, that belong to that person; each
    such document comes once for each time it is stored, in ascending order
    of the date, and the container is left as it was. *)
Theorem findByDateRange_sorted (from to : string) (persona : option string)
        (w : World) :
  fault w (calls w) = false →
  ∃ l,
    TurnoRepository.findByDateRange from to persona w
    = (afterCall w (container w), Ok l)
    ∧ Sorted fechaAsc l
    ∧ l ≡ₚ List.filter (TurnoRepository.rangeWhere from to persona) (container w)
    ∧ ∀ d, d ∈ l ↔
           d ∈ container w
           ∧ String.leb from (fecha d) = true
           ∧ String.leb (fecha d) to = true
           ∧ (truthyStr persona = true → personaId d = persona).
Proof.
  intros Hf. eexists. split.
  { unfold TurnoRepository.findByDateRange, itemsQueryAsc, sdkCall. by rewrite Hf. }
  pose proof fechaAsc_total as Htotal.
  split; [apply Sorted_merge_sort, _|].
  split; [apply merge_sort_Permutation|].
  intros d. rewrite merge_sort_Permutation, list_elem_of_In, filter_In.
  rewrite <- list_elem_of_In. unfold TurnoRepository.rangeWhere.
  rewrite !andb_true_iff.
  destruct (truthyStr persona); [rewrite bool_decide_eq_true|].
  - split; [intros (? & (? & ?) & ?) | intros (? & ? & ? & ?)]; split_and!; auto.
  - split; [intros (? & (? & ?) & ?) | intros (? & ? & ? & ?)];
      split_and!; auto; discriminate.
Qed.

Lemma uniqueKeys_inj (c : list TurnoDocument) (d d' : TurnoDocument) :
  uniqueKeys c → d ∈ c → d' ∈ c → docKey d = docKey d' → d = d'.
Proof.
  unfold uniqueKeys. induction c as [|x c IH]; [by intros _ ?%elem_of_nil|].
  rewrite fmap_cons. intros [Hx Hc]%NoDup_cons Hd Hd' Hk.
  apply elem_of_cons in Hd as [-> | Hd]; apply elem_of_cons in Hd' as [-> | Hd'].
  - done.
  - exfalso. apply Hx. rewrite Hk. by apply list_elem_of_fmap_2.
  - exfalso. apply Hx. rewrite <- Hk. by apply list_elem_of_fmap_2.
  - by apply IH.
Qed.

Lemma stored_None_not (c : list TurnoDocument) (k : string * string) :
  stored c k ≠ None → k ∈ docKey <$> c.
Proof.
  intros H. destruct (decide (k ∈ docKey <$> c)) as [|Hn]; [done|].
  by apply stored_None in Hn.
Qed.

Lemma stored_None_not_inv (c : list TurnoDocument) (k : string * string) :
  k ∈ docKey <$> c → stored c k ≠ None.
Proof. intros Hin Hs. by apply stored_None in Hs. Qed.

(** The keys [deleteLoop] has deleted decide what is left and what is
    counted. *)
Lemma deleteLoop_spec (resources : list (string * string)) :
  ∀ n w,
    ∃ w' deleted,
      TurnoRepository.deleteLoop resources n w = (w', Ok (n + length deleted))
      ∧ sublist deleted resources
      ∧ container w'
        = List.filter (fun d => bool_decide (docKey d ∉ deleted)) (container w)
      ∧ (∀ k, k ∈ deleted → k ∈ docKey <$> container w)
      ∧ ((∀ i, fault w i = false) → NoDup resources →
         (∀ k, k ∈ resources → k ∈ docKey <$> container w) →
         deleted = resources).
Proof.
  induction resources as [|k rs IH]; intros n w.
  - exists w, []. simpl. rewrite Nat.add_0_r. split_and!; try done.
    + symmetry. apply filter_true.
    + by intros k ?%elem_of_nil.
  - simpl. unfold bind, tryCatch, itemDelete, sdkCall, ret.
    destruct (fault w (calls w)) eqn:Hf.
    { destruct (IH n (afterCall w (container w)))
        as (w' & deleted & Hrun & Hsub & Hc & Hst & Hall).
      exists w', deleted. rewrite Hrun.
      split_and!; [done | by apply sublist_cons | done | done |].
      intros Hno. by rewrite Hno in Hf. }
    pose proof (stored_existsb (container w) k) as Hex. rewrite Hex.
    destruct (stored (container w) k) as [e|] eqn:Hs.
    + destruct (IH (S n) (afterCall w
                  (List.filter (fun d => negb (sameItem k.1 k.2 d)) (container w))))
        as (w' & deleted & Hrun & Hsub & Hc & Hst & Hall).
      simpl in *.
      exists w', (k :: deleted). rewrite Hrun. simpl.
      split_and!.
      * f_equal. f_equal. lia.
      * by apply sublist_skip.
      * rewrite Hc. clear.
        induction (container w) as [|d c IHc]; simpl; [done|].
        destruct (sameItem k.1 k.2 d) eqn:E; simpl.
        -- apply sameItem_spec in E.
           rewrite bool_decide_eq_false_2; [done|].
           intros Hn. apply Hn. rewrite E. destruct k. by left.
        -- assert (Hne : docKey d ≠ k).
           { intros <-. by rewrite (proj2 (sameItem_spec _ _ d)) in E. }
           destruct (decide (docKey d ∈ deleted)) as [Hin | Hout].
           ++ rewrite !bool_decide_eq_false_2; [done | |]; intros Hn; apply Hn;
                [by right | done].
           ++ rewrite !bool_decide_eq_true_2; [by f_equal | |];
                [by intros [? | ?]%elem_of_cons | done].
      * intros k' [-> | Hk']%elem_of_cons.
        -- pose proof (stored_key _ _ _ Hs) as <-. apply list_elem_of_fmap_2.
           by eapply stored_elem, Hs.
        -- eapply filter_keys_subset. by apply Hst.
      * intros Hno [Hk Hnd]%NoDup_cons Hin. f_equal.
        apply Hall; [done | done |].
        intros k' Hk'. assert (Hne : k' ≠ k) by (by intros ->).
        apply stored_None_not. rewrite stored_filter_other by done.
        apply stored_None_not_inv. apply Hin. by right.
    + destruct (IH n (afterCall w (container w)))
        as (w' & deleted & Hrun & Hsub & Hc & Hst & Hall).
      exists w', deleted. rewrite Hrun.
      split_and!; [done | by apply sublist_cons | done | done |].
      intros Hno Hnd Hin. exfalso.
      apply stored_None in Hs. apply Hs, Hin. by left.
Qed.

Lemma filter_notin_length (c : list TurnoDocument) (deleted : list (string * string)) :
  uniqueKeys c → NoDup deleted →
  (∀ k, k ∈ deleted → k ∈ docKey <$> c) →
  length (List.filter (fun d => bool_decide (docKey d ∉ deleted)) c)
  + length deleted = length c.
Proof.
  intros Hu Hnd Hin.
  rewrite <- (filter_split_length (fun d => bool_decide (docKey d ∈ deleted)) c).
  f_equal.
  - f_equal. apply filter_ext. intros d. apply bool_decide_not.
  - rewrite <- (length_fmap docKey). symmetry. apply Permutation_length.
    apply NoDup_Permutation; [by apply filter_uniqueKeys | done |].
    intros k. split.
    + intros (d & -> & Hd)%list_elem_of_fmap.
      apply list_elem_of_In, filter_In in Hd as [_ Hd].
      by apply bool_decide_eq_true in Hd.
    + intros Hk. destruct (proj1 (list_elem_of_fmap _ _ _) (Hin k Hk)) as (d & -> & Hd).
      apply list_elem_of_fmap_2, list_elem_of_In, filter_In.
      split; [by apply list_elem_of_In | by apply bool_decide_eq_true].
Qed.

(** X9.  [deleteOlderThan] on a container with one document per key, once
    its query is answered, returns the number of documents it removed;
    what is left was stored before, and no document dated at or after the
    cut-off is lost.  When no call fails it removes exactly the documents
    dated strictly before the cut-off and returns their number. *)
Theorem deleteOlderThan_exact (date : string) (w : World) :
  uniqueKeys (container w) →
  fault w (calls w) = false →
  ∃ w' n,
    TurnoRepository.deleteOlderThan date w = (w', Ok n)
    ∧ n + length (container w') = length (container w)
    ∧ (∀ d, d ∈ container w' → d ∈ container w)
    ∧ (∀ d, d ∈ container w → olderThan date d = false → d ∈ container w')
    ∧ ((∀ i, fault w i = false) →
       n = length (List.filter (olderThan date) (container w))
       ∧ container w'
         = List.filter (fun d => negb (olderThan date d)) (container w)).
Proof.
  intros Hu Hf.
  unfold TurnoRepository.deleteOlderThan, bind, itemsQueryKeys, sdkCall.
  rewrite Hf.
  change (fun d => (id d, fecha d)) with docKey.
  change (fun c => String.ltb (fecha c) date) with (olderThan date).
  set (rs := docKey <$> List.filter (olderThan date) (container w)).
  destruct (deleteLoop_spec rs 0 (afterCall w (container w)))
    as (w' & deleted & Hrun & Hsub & Hc & Hst & Hall).
  simpl in *. rewrite Hrun. exists w', (length deleted).
  assert (Hrs : NoDup rs) by (by apply filter_uniqueKeys).
  assert (Hold : ∀ d, d ∈ container w → docKey d ∈ rs → olderThan date d = true).
  { intros d Hd (d' & Hk & Hd')%list_elem_of_fmap.
    apply list_elem_of_In, filter_In in Hd' as [Hd' Ho].
    apply list_elem_of_In in Hd'.
    by rewrite (uniqueKeys_inj _ _ _ Hu Hd Hd' Hk). }
  split; [done|]. split_and!.
  - rewrite Hc, Nat.add_comm.
    apply filter_notin_length; [done | by eapply sublist_NoDup | done].
  - intros d Hd. rewrite Hc in Hd.
    apply list_elem_of_In, filter_In in Hd as [Hd _]. by apply list_elem_of_In.
  - intros d Hd Ho. rewrite Hc. apply list_elem_of_In, filter_In.
    split; [by apply list_elem_of_In|]. apply bool_decide_eq_true.
    intros Hin. rewrite (Hold d Hd) in Ho; [done|]. by eapply elem_of_sublist.
  - intros Hno.
    assert (Hd : deleted = rs).
    { apply Hall; [done | done | apply filter_keys_subset]. }
    rewrite Hc, Hd. split; [unfold rs; by rewrite length_fmap|].
    apply filter_ext_in. intros d Hin%list_elem_of_In.
    destruct (olderThan date d) eqn:Ho; simpl.
    + apply bool_decide_eq_false. intros Hn. apply Hn.
      apply list_elem_of_fmap_2, list_elem_of_In, filter_In.
      split; [by apply list_elem_of_In | done].
    + apply bool_decide_eq_true. intros Hk. by rewrite (Hold d Hin Hk) in Ho.
Qed.

(* ===================================================================== *)
(** * More of the service *)
(* ===================================================================== *)

Lemma parse_err (data : TurnoInput) (e : error) :
  turnoInsertSchema.parse data = Err e → ∃ issues, e = ZodError issues.
Proof.
  unfold turnoInsertSchema.parse.
  destruct (zRegex _ _ _ _) as [e1 f], (zOptional _ _ "turno" _) as [e2 t],
    (zOptional _ _ "startShift" _) as [e3 s], (zOptional _ _ "endShift" _) as [e4 x],
    (zOptional _ _ "personaId" _) as [e5 p].
  destruct (e1 ++ e2 ++ e3 ++ e4 ++ e5); [discriminate|].
  intros [= <-]. by eexists.
Qed.

(** After the vacation rule the exclusivity check cannot fire. *)
Lemma no_conflict_after_clear (v : TurnoInsert) :
  truthyStr (get (i_turno (TurnoService.clearOnVacation v)))
  && i_esVacaciones (TurnoService.clearOnVacation v) = false.
Proof.
  unfold TurnoService.clearOnVacation.
  destruct (i_esVacaciones v) eqn:E; simpl; [done | by rewrite E, andb_false_r].
Qed.

(** X10.  An input that [upsertTurno] rejects never reaches the storage:
    the world is exactly as before (no call, no clock reading) and the
    error is rethrown, a schema error as "Datos inválidos".  The only
    rejections are a schema error, the incomplete time range and the time
    order: the exclusivity check after the vacation rule and the failure of
    the date normalisation never fire. *)
Theorem rejected_input_never_stored (data : TurnoInput) (w : World) (e : error) :
  TurnoService.validate (globalLocaleConfig w) data = Err e →
  TurnoService.upsertTurno data w = (w, Err (rethrown e))
  ∧ ((∃ issues, e = ZodError issues)
     ∨ e = IncompleteTimeRange ∨ e = InvalidTimeOrder).
Proof.
  intros Hv. split.
  - unfold TurnoService.upsertTurno, tryCatch. rewrite Hv. by destruct e.
  - destruct (turnoInsertSchema.parse data) as [v | err] eqn:Hp.
    + rewrite (validate_parsed _ _ _ Hp) in Hv.
      unfold TurnoService.checkRules in Hv.
      rewrite no_conflict_after_clear in Hv.
      repeat match type of Hv with
             | (if ?b then _ else _) = _ => destruct b
             end; inversion Hv; auto.
    + unfold TurnoService.validate in Hv. rewrite Hp in Hv.
      inversion Hv; subst. left. by eapply parse_err.
Qed.

Lemma Forall_replaced (P : TurnoDocument → Prop) (k : string * string)
      (doc : TurnoDocument) (c : list TurnoDocument) :
  P doc → Forall P c → Forall P (replaced k doc c).
Proof.
  intros Hd Hc. unfold replaced.
  induction Hc as [|d c Hx Hc IH]; simpl; constructor; [|done].
  by destruct (sameItem k.1 k.2 d).
Qed.

(** What passed the checks has both times or neither, unless a time is
    an own [undefined]. *)
Lemma checkRules_paired (v v' : TurnoInsert) :
  TurnoService.checkRules v = Ok v' →
  (∀ s, i_startShift v = Value s → time24Regex s = true) →
  (∀ s, i_endShift v = Value s → time24Regex s = true) →
  v' = v ∧ (is_Some (get (i_startShift v)) ↔ is_Some (get (i_endShift v))).
Proof.
  unfold TurnoService.checkRules. intros Hc H3 H4.
  rewrite (truthyStr_time _ H3), (truthyStr_time _ H4) in Hc.
  destruct (_ && i_esVacaciones v); [discriminate|].
  destruct (i_startShift v) as [| |s], (i_endShift v) as [| |e]; simpl in *;
    try discriminate;
    try (destruct (TurnoService.badOrder _ _); [discriminate|]);
    inversion Hc; (split; [done|]);
    split; intros [? [=]]; by eexists.
Qed.

(** X11.  The single-record path keeps the times paired: when every stored
    document has both [startShift] and [endShift] or neither, so it is after
    [upsertTurno], whatever the input (whose times are values or absent, as
    in a JSON body) and whether or not the call succeeds. *)
Theorem upsertTurno_keeps_pairing (data : TurnoInput) (w : World) :
  in_startShift data ≠ Undefined →
  in_endShift data ≠ Undefined →
  Forall paired (container w) →
  Forall paired (container (TurnoService.upsertTurno data w).1).
Proof.
  intros Hns Hne Hall. unfold TurnoService.upsertTurno, tryCatch.
  destruct (TurnoService.validate (globalLocaleConfig w) data) as [v | err] eqn:Hv;
    [|by destruct err].
  destruct (turnoInsertSchema.parse data) as [v0 | err] eqn:Hp.
  2:{ unfold TurnoService.validate in Hv. by rewrite Hp in Hv. }
  rewrite (validate_parsed _ _ _ Hp) in Hv.
  pose proof (parse_ok _ _ Hp) as (_ & _ & Hs0 & He0 & _ & _ & _ & H3 & H4).
  assert (Hshape :
    (i_startShift v = Undefined ∧ i_endShift v = Undefined)
    ∨ (i_startShift v = Missing ∧ i_endShift v = Missing)
    ∨ (is_Some (get (i_startShift v)) ∧ is_Some (get (i_endShift v)))).
  { unfold TurnoService.clearOnVacation in Hv.
    destruct (i_esVacaciones v0).
    - apply checkRules_paired in Hv as [-> _]; [by left | by intros ? [=] ..].
    - apply checkRules_paired in Hv as [-> Hpair]; [|done..].
      rewrite Hs0, He0 in *.
      destruct (in_startShift data) as [| |s], (in_endShift data) as [| |e];
        try done; simpl in Hpair.
      + right. by left.
      + exfalso. destruct (proj2 Hpair) as [? [=]]. by eexists.
      + exfalso. destruct (proj1 Hpair) as [? [=]]. by eexists.
      + right. right. split; by eexists. }
  pose proof (upsert_outcome v w) as Hout.
  destruct (TurnoRepository.upsert v w) as [w1 r]. simpl in Hout.
  assert (Hgoal : Forall paired (container w1)).
  { inversion Hout as [Hst Hc | e Hst Hc | Hc]; subst; rewrite Hc.
    - apply Forall_app. split; [done|]. apply Forall_singleton.
      unfold paired. simpl.
      destruct Hshape as [[-> ->] | [[-> ->] | [? ?]]]; simpl; try done.
      all: split; intros [? [=]].
    - apply Forall_replaced; [|done].
      assert (He : paired e).
      { rewrite Forall_forall in Hall. by apply Hall, (stored_elem _ _ _ Hst). }
      unfold paired in *. simpl.
      destruct Hshape as [[-> ->] | [[-> ->] | [[s ?] [x ?]]]]; simpl; try done.
      destruct (i_startShift v), (i_endShift v); try done; simpl;
        split; intros _; by eexists.
    - done. }
  destruct r as [d | err]; [done | by destruct err].
Qed.

(** X12.  A failure of the repository is answered by [checkDateConflicts]
    with "no conflict": it never throws, and reports a conflict exactly when
    the call goes through and a document is stored for the date and the
    person; the document it reports is that one. *)
Theorem checkDateConflicts_total (fecha : string) (persona : option string)
        (w : World) :
  ∃ r,
    TurnoService.checkDateConflicts fecha persona w
    = (afterCall w (container w), Ok r)
    ∧ (TurnoService.hasConflict r = true ↔
       fault w (calls w) = false
       ∧ is_Some (stored (container w) (generateTurnoId fecha persona, fecha)))
    ∧ (TurnoService.hasConflict r = true →
       TurnoService.existingTurno r
       = stored (container w) (generateTurnoId fecha persona, fecha)).
Proof.
  unfold TurnoService.checkDateConflicts, tryCatch, bind,
    TurnoRepository.findByFecha.
  rewrite findById_run.
  destruct (fault w (calls w)).
  - eexists. split; [done|]. simpl. split; [|done].
    split; [done | by intros [[=] _]].
  - destruct (stored (container w) _) as [d|]; eexists; (split; [done|]); simpl.
    + split; [|done]. split; [by eexists | done].
    + split; [|done]. split; [done | by intros [_ [? [=]]]].
Qed.

(* ===================================================================== *)
(** * The Excel mapping helpers and the import *)
(* ===================================================================== *)

Lemma rowsLoop_map (excelData : list ExcelRowInput) :
  ∀ i warnings validRows,
    (TurnoService.rowsLoop i excelData warnings validRows).2
    = validRows ++ mapExcelRowsToTurnos (parsedRows excelData).
Proof.
  induction excelData as [|row rest IH]; intros i ws vs; simpl.
  - by rewrite app_nil_r.
  - unfold parsedRows. simpl.
    destruct (excelRowSchema.parse row) as [r | err].
    + rewrite IH, <- app_assoc. done.
    + destruct err; by rewrite IH.
Qed.

(** X13.  The candidates the import builds row by row are those
    [mapExcelRowsToTurnos] builds from the rows that pass the schema, in the
    order of the file. *)
Theorem import_candidates_are_mapped (excelData : list ExcelRowInput) :
  (TurnoService.rowsLoop 0 excelData [] []).2
  = mapExcelRowsToTurnos (parsedRows excelData).
Proof. apply (rowsLoop_map excelData 0 [] []). Qed.






(* ===================================================================== *)
(** * The Excel schema, column by column *)
(* ===================================================================== *)

Lemma digits12_inv (l g r : list ascii) :
  (g, r) ∈ digits12 l →
  forallb JS.isDigit g = true ∧ (length g = 1 ∨ length g = 2) ∧ l = g ++ r.
Proof.
  unfold digits12. destruct l as [|a [|b l]].
  - by intros ?%elem_of_nil.
  - destruct (JS.isDigit a) eqn:Ea; [|by intros ?%elem_of_nil].
    intros [= -> ->]%list_elem_of_singleton. simpl. rewrite Ea. auto.
  - destruct (JS.isDigit a) eqn:Ea; [|by intros ?%elem_of_nil].
    intros [H | H]%elem_of_app.
    + destruct (JS.isDigit b) eqn:Eb; [|by apply elem_of_nil in H].
      apply list_elem_of_singleton in H as [= -> ->]. simpl.
      rewrite Ea, Eb. auto.
    + apply list_elem_of_singleton in H as [= -> ->]. simpl.
      rewrite Ea. auto.
Qed.

Lemma digitsN_inv (n : nat) (l g r : list ascii) :
  (g, r) ∈ digitsN n l →
  forallb JS.isDigit g = true ∧ length g = n ∧ l = g ++ r.
Proof.
  unfold digitsN.
  destruct ((n <=? length l)%nat && forallb JS.isDigit (take n l)) eqn:E;
    [|by intros ?%elem_of_nil].
  intros [= -> ->]%list_elem_of_singleton.
  apply andb_true_iff in E as [E1 E2]. apply Nat.leb_le in E1.
  split_and!; [done | rewrite length_take; lia | by rewrite take_drop].
Qed.

Lemma oneOf_inv (cls l r : list ascii) :
  r ∈ oneOf cls l → ∃ c, l = c :: r ∧ existsb (Ascii.eqb c) cls = true.
Proof.
  destruct l as [|c l]; simpl; [by intros ?%elem_of_nil|].
  destruct (existsb (Ascii.eqb c) cls) eqn:E; [|by intros ?%elem_of_nil].
  intros ->%list_elem_of_singleton. by exists c.
Qed.

Lemma atEnd_inv {A} (x y : A) (l : list ascii) :
  x ∈ atEnd y l → x = y ∧ l = [].
Proof.
  destruct l; simpl; [by intros ->%list_elem_of_singleton | by intros ?%elem_of_nil].
Qed.

Lemma excelDateRegex_inv (s : string) (d m y : list ascii) :
  excelDateRegex s = Some (d, m, y) →
  forallb JS.isDigit d = true ∧ (length d = 1 ∨ length d = 2)
  ∧ forallb JS.isDigit m = true ∧ (length m = 1 ∨ length m = 2)
  ∧ forallb JS.isDigit y = true ∧ length y = 4.
Proof.
  unfold excelDateRegex. intros H%head_Some_elem_of.
  apply list_elem_of_bind in H as ([g1 r1] & H & H1).
  apply list_elem_of_bind in H as (r2 & H & H2).
  apply list_elem_of_bind in H as ([g2 r3] & H & H3).
  apply list_elem_of_bind in H as (r4 & H & H4).
  apply list_elem_of_bind in H as ([g3 r5] & H & H5).
  apply atEnd_inv in H as [[= <- <- <-] _].
  apply digits12_inv in H1 as (? & ? & _).
  apply digits12_inv in H3 as (? & ? & _).
  apply digitsN_inv in H5 as (? & ? & _).
  done.
Qed.

Lemma padStart_digits (g : list ascii) :
  forallb JS.isDigit g = true → length g = 1 ∨ length g = 2 →
  ∃ a b, JS.padStart 2 "0" (JS.str g) = String a (String b EmptyString)
         ∧ JS.isDigit a = true ∧ JS.isDigit b = true.
Proof.
  destruct g as [|a [|b [|? ?]]]; simpl; intros H [?|?]; try done.
  - exists "0"%char, a. by rewrite andb_true_r in H.
  - exists a, b. apply andb_true_iff in H as [? H].
    by rewrite andb_true_r in H.
Qed.

Lemma fechaTransform_canonical (val s : string) :
  fechaTransform val = Ok s → isoDateRegex s = true.
Proof.
  unfold fechaTransform.
  destruct (excelDateRegex (JS.trim val)) as [[[d m] y]|] eqn:E.
  - apply excelDateRegex_inv in E as (Hd & Ld & Hm & Lm & Hy & Ly).
    destruct (padStart_digits d Hd Ld) as (d1 & d2 & -> & Hd1 & Hd2).
    destruct (padStart_digits m Hm Lm) as (m1 & m2 & -> & Hm1 & Hm2).
    destruct y as [|y1 [|y2 [|y3 [|y4 [|? ?]]]]]; try done.
    simpl in Hy. intros [= <-].
    repeat (apply andb_true_iff in Hy as [? Hy]).
    unfold isoDateRegex, String.append. cbn -[JS.isDigit].
    repeat match goal with
           | D : JS.isDigit _ = true |- _ => rewrite D; clear D
           end.
    done.
  - destruct (isoDateRegex (JS.trim val)) eqn:E'; intros [= <-]. done.
Qed.

Lemma hhmm_24h (hour min : nat) :
  hour ≤ 23 → min ≤ 59 → time24Regex (hhmm hour min) = true.
Proof.
  intros Hh Hm.
  assert (Hall : forallb (fun h => forallb (fun m => time24Regex (hhmm h m))
                                     (seq 0 60)) (seq 0 24) = true)
    by (vm_compute; reflexivity).
  rewrite forallb_forall in Hall.
  specialize (Hall hour). rewrite forallb_forall in Hall.
  apply Hall; apply in_seq; lia.
Qed.

Lemma shiftTransform_24h (val : option string) (t : string) :
  startshiftTransform val = Ok (Some t) → time24Regex t = true.
Proof.
  unfold startshiftTransform. destruct val as [v|]; [|done].
  destruct (negb (JS.truthy v) || String.eqb (JS.trim v) ""); [done|].
  destruct (timeRegex (JS.trim v)) as [[[hours minutes] ampm]|].
  - match goal with
    | |- (if (23 <? ?h)%nat || (59 <? ?m)%nat then _ else _) = _ → _ =>
        destruct (Nat.ltb_spec 23 h); [done|];
        destruct (Nat.ltb_spec 59 m); [done|];
        intros [= <-]; apply hhmm_24h; assumption
    end.
  - destruct (time24Regex (JS.trim v)) eqn:E; intros [= <-]. done.
Qed.

Lemma parse_fields (row : ExcelRowInput) (r : ExcelRow) :
  excelRowSchema.parse row = Ok r →
  zString "fecha" fechaTransform (x_fecha row) = FOk (r_fecha r)
  ∧ zStringOpt "turno"
      (fun val => Ok ((fun s => JS.trim (JS.toLowerCase s)) <$> val))
      (x_turno row) = FOk (r_turno r)
  ∧ zStringOpt "startshift" startshiftTransform (x_startshift row)
    = FOk (r_startshift r)
  ∧ zStringOpt "endshift" endshiftTransform (x_endshift row)
    = FOk (r_endshift r)
  ∧ zUnion "vacaciones" vacacionesTransform (x_vacaciones row)
    = FOk (r_vacaciones r)
  ∧ zStringOpt "notas"
      (fun val => let t := JS.trim <$> val in
                  Ok (if truthyStr t then default "" t else ""))
      (x_notas row) = FOk (r_notas r).
Proof.
  unfold excelRowSchema.parse. cbv zeta.
  generalize (zString "fecha" fechaTransform (x_fecha row)).
  generalize (zStringOpt "turno"
      (fun val => Ok ((fun s => JS.trim (JS.toLowerCase s)) <$> val))
      (x_turno row)).
  generalize (zStringOpt "startshift" startshiftTransform (x_startshift row)).
  generalize (zStringOpt "endshift" endshiftTransform (x_endshift row)).
  generalize (zUnion "vacaciones" vacacionesTransform (x_vacaciones row)).
  match goal with
  | |- context [zStringOpt "notas" ?g ?x] => generalize (zStringOpt "notas" g x)
  end.
  intros f6 f5 f4 f3 f2 f1.
  destruct f1, f2, f3, f4, f5, f6; try discriminate.
  by intros [= <-].
Qed.

Lemma fecha_field (x : jsval) (a : string) :
  zString "fecha" fechaTransform x = FOk a → ∃ s, fechaTransform s = Ok a.
Proof.
  unfold zString. destruct x as [|s| |]; try done.
  destruct (fechaTransform s) eqn:E; [|done]. intros [= <-]. by exists s.
Qed.

Lemma shift_field (name : string) (x : jsval) (t : string) :
  zStringOpt name startshiftTransform x = FOk (Some t) →
  ∃ val, startshiftTransform val = Ok (Some t).
Proof.
  unfold zStringOpt. destruct x as [|s| |]; [| |discriminate..].
  - intros H. exists None.
    destruct (startshiftTransform None); by inversion H.
  - intros H. exists (Some s).
    destruct (startshiftTransform (Some s)); by inversion H.
Qed.

(** X15.  A row that passes the Excel schema is in the form the
    insert schema asks for: its date matches YYYY-MM-DD and each of its two
    times, when present, matches the 24-hour HH:MM pattern, whatever the
    notation of the cell was. *)
Theorem parsed_row_wellformed (row : ExcelRowInput) (r : ExcelRow) :
  excelRowSchema.parse row = Ok r →
  isoDateRegex (r_fecha r) = true
  ∧ (∀ t, r_startshift r = Some t → time24Regex t = true)
  ∧ (∀ t, r_endshift r = Some t → time24Regex t = true).
Proof.
  intros (H1 & _ & H3 & H4 & _)%parse_fields.
  split_and!.
  - apply fecha_field in H1 as (s & H1). by eapply fechaTransform_canonical.
  - intros t E. rewrite E in H3.
    apply shift_field in H3 as (val & H3). by eapply shiftTransform_24h.
  - intros t E. rewrite E in H4.
    apply (shift_field "endshift") in H4 as (val & H4).
    by eapply shiftTransform_24h.
Qed.

(* ===================================================================== *)
(** * The second parse of a validated row *)
(* ===================================================================== *)

Lemma chars_str (l : list ascii) : JS.chars (JS.str l) = l.
Proof. apply String.list_ascii_of_string_of_list_ascii. Qed.

Lemma trim_list (s : string) : JS.trim s = JS.str (trimList (JS.chars s)).
Proof. reflexivity. Qed.

Lemma trimStart_clean (l : list ascii) : noLeadingSpace (JS.trimStart l).
Proof.
  induction l as [|c r IH]; simpl; [done|].
  destruct (JS.isSpace c) eqn:E; [done | exact E].
Qed.

Lemma trimStart_id (l : list ascii) : noLeadingSpace l → JS.trimStart l = l.
Proof. destruct l as [|c r]; simpl; [done|]. by intros ->. Qed.

Lemma trimStart_split (l : list ascii) :
  ∃ p, l = p ++ JS.trimStart l ∧ forallb JS.isSpace p = true.
Proof.
  induction l as [|c r (p & IH & Hp)]; simpl; [by exists []|].
  destruct (JS.isSpace c) eqn:E; [|by exists []].
  exists (c :: p). simpl. rewrite E, Hp. split; [by f_equal | done].
Qed.

Lemma trimList_split (l : list ascii) :
  ∃ p q, l = p ++ trimList l ++ q ∧ forallb JS.isSpace p = true.
Proof.
  destruct (trimStart_split l) as (p & E & Hp).
  destruct (trimStart_split (rev (JS.trimStart l))) as (p2 & E2 & _).
  exists p, (rev p2). split; [|done].
  apply (f_equal (@rev ascii)) in E2.
  rewrite rev_involutive, rev_app_distr in E2.
  unfold trimList. by rewrite <- E2.
Qed.

Lemma trimList_clean (l : list ascii) :
  noLeadingSpace (trimList l) ∧ noLeadingSpace (rev (trimList l)).
Proof.
  split.
  - destruct (trimStart_split (rev (JS.trimStart l))) as (p & E & _).
    pose proof (trimStart_clean l) as Hc.
    apply (f_equal (@rev ascii)) in E.
    rewrite rev_involutive, rev_app_distr in E.
    unfold trimList.
    destruct (rev (JS.trimStart (rev (JS.trimStart l)))) as [|c r]; [done|].
    rewrite E in Hc. exact Hc.
  - unfold trimList. rewrite rev_involutive. apply trimStart_clean.
Qed.

Lemma trimList_id (l : list ascii) :
  noLeadingSpace l → noLeadingSpace (rev l) → trimList l = l.
Proof.
  intros H1 H2. unfold trimList.
  rewrite (trimStart_id l H1), (trimStart_id _ H2). apply rev_involutive.
Qed.

Lemma trim_idem (s : string) : JS.trim (JS.trim s) = JS.trim s.
Proof.
  rewrite !trim_list, chars_str. f_equal.
  apply trimList_id; apply trimList_clean.
Qed.

Lemma lowerFrom_idem (l : list ascii) :
  ∀ b, JS.lowerFrom b (JS.lowerFrom b l) = JS.lowerFrom b l.
Proof.
  induction l as [|c r IH]; intros b; [done|].
  destruct b; cbn [JS.lowerFrom]; cbv zeta.
  - destruct ((128 <=? nat_of_ascii c)%nat && (nat_of_ascii c <=? 158)%nat
              && negb (nat_of_ascii c =? 151)%nat) eqn:E.
    + cbn [JS.lowerFrom]; cbv zeta.
      apply andb_true_iff in E as [E _]. apply andb_true_iff in E as [E1 E2].
      apply Nat.leb_le in E1, E2.
      rewrite nat_ascii_embedding by lia.
      replace (nat_of_ascii c + 32 <=? 158)%nat with false
        by (symmetry; apply Nat.leb_gt; lia).
      rewrite andb_false_r. simpl. by rewrite IH.
    + cbn [JS.lowerFrom]; cbv zeta. rewrite E. by rewrite IH.
  - destruct ((65 <=? nat_of_ascii c)%nat && (nat_of_ascii c <=? 90)%nat) eqn:E.
    + cbn [JS.lowerFrom]; cbv zeta.
      apply andb_true_iff in E as [E1 E2]. apply Nat.leb_le in E1, E2.
      rewrite nat_ascii_embedding by lia.
      replace (nat_of_ascii c + 32 <=? 90)%nat with false
        by (symmetry; apply Nat.leb_gt; lia).
      rewrite andb_false_r.
      replace (nat_of_ascii c + 32 =? 195)%nat with false
        by (symmetry; apply Nat.eqb_neq; lia).
      by rewrite IH.
    + cbn [JS.lowerFrom]; cbv zeta. rewrite E. by rewrite IH.
Qed.

Lemma lowerFrom_spaces (p l : list ascii) :
  forallb JS.isSpace p = true →
  JS.lowerFrom false (p ++ l) = p ++ JS.lowerFrom false l.
Proof.
  induction p as [|c p IH]; [done|]. simpl forallb.
  intros [Hc Hp]%andb_true_iff.
  cbn [app JS.lowerFrom]; cbv zeta. unfold JS.isSpace in Hc.
  assert (Hn : (9 ≤ nat_of_ascii c ∧ nat_of_ascii c ≤ 13) ∨ nat_of_ascii c = 32).
  { apply orb_true_iff in Hc as [Hc | Hc].
    - apply andb_true_iff in Hc as [H1 H2]. apply Nat.leb_le in H1, H2. lia.
    - apply Nat.eqb_eq in Hc. lia. }
  replace (65 <=? nat_of_ascii c)%nat with false
    by (symmetry; apply Nat.leb_gt; lia).
  replace (nat_of_ascii c =? 195)%nat with false
    by (symmetry; apply Nat.eqb_neq; lia).
  simpl. by rewrite IH.
Qed.

Lemma lowerFrom_cons (b : bool) (c : ascii) :
  ∃ c' b', ∀ r, JS.lowerFrom b (c :: r) = c' :: JS.lowerFrom b' r.
Proof.
  destruct b; cbn [JS.lowerFrom]; cbv zeta.
  - destruct ((128 <=? nat_of_ascii c)%nat && (nat_of_ascii c <=? 158)%nat
              && negb (nat_of_ascii c =? 151)%nat); by eexists _, _.
  - destruct ((65 <=? nat_of_ascii c)%nat && (nat_of_ascii c <=? 90)%nat);
      by eexists _, _.
Qed.

Lemma lowered_prefix (l q : list ascii) :
  ∀ b, JS.lowerFrom b (l ++ q) = l ++ q → JS.lowerFrom b l = l.
Proof.
  induction l as [|c l IH]; intros b; [done|].
  destruct (lowerFrom_cons b c) as (c' & b' & H).
  rewrite <- app_comm_cons, !H. intros [= -> Hr]. f_equal. by apply IH.
Qed.

Lemma lower_trim_idem (s : string) :
  JS.trim (JS.toLowerCase (JS.trim (JS.toLowerCase s)))
  = JS.trim (JS.toLowerCase s).
Proof.
  unfold JS.toLowerCase. rewrite !trim_list, !chars_str. f_equal.
  set (L := JS.lowerFrom false (JS.chars s)).
  assert (HL : JS.lowerFrom false L = L) by apply lowerFrom_idem.
  destruct (trimList_split L) as (p & q & E & Hp).
  assert (Ht : JS.lowerFrom false (trimList L) = trimList L).
  { rewrite E in HL at 1. rewrite lowerFrom_spaces in HL by done.
    rewrite E in HL at 2. apply app_inv_head in HL.
    by apply lowered_prefix in HL. }
  rewrite Ht. apply trimList_id; apply trimList_clean.
Qed.

Lemma isDigit_cases (c : ascii) :
  JS.isDigit c = true → In c (JS.chars "0123456789").
Proof.
  unfold JS.isDigit. intros [H1 H2]%andb_true_iff.
  apply Nat.leb_le in H1, H2. rewrite <- (ascii_nat_embedding c).
  assert (Hn : In (nat_of_ascii c) (seq 48 10)) by (apply in_seq; lia).
  simpl in Hn.
  repeat (destruct Hn as [<- | Hn]; [simpl; tauto|]). destruct Hn.
Qed.

Lemma isDigit_not_space (c : ascii) : JS.isDigit c = true → JS.isSpace c = false.
Proof.
  unfold JS.isDigit, JS.isSpace. intros [H1 H2]%andb_true_iff.
  apply Nat.leb_le in H1, H2.
  replace (nat_of_ascii c <=? 13)%nat with false
    by (symmetry; apply Nat.leb_gt; lia).
  replace (nat_of_ascii c =? 32)%nat with false
    by (symmetry; apply Nat.eqb_neq; lia).
  by rewrite andb_false_r.
Qed.

Lemma isDigit_not_separator (c : ascii) :
  JS.isDigit c = true → existsb (Ascii.eqb c) ["/"; "-"]%char = false.
Proof.
  intros H. simpl.
  destruct (Ascii.eqb_spec c "/") as [->|]; [discriminate H|].
  destruct (Ascii.eqb_spec c "-") as [->|]; [discriminate H|]. done.
Qed.

Lemma isoDateRegex_inv (s : string) :
  isoDateRegex s = true →
  ∃ y1 y2 y3 y4 m1 m2 d1 d2,
    JS.chars s = [y1; y2; y3; y4; "-"; m1; m2; "-"; d1; d2]%char
    ∧ forallb JS.isDigit [y1; y2; y3; y4; m1; m2; d1; d2] = true.
Proof.
  unfold isoDateRegex.
  destruct (JS.chars s)
    as [|y1 [|y2 [|y3 [|y4 [|h1 [|m1 [|m2 [|h2 [|d1 [|d2 [|? ?]]]]]]]]]]];
    try discriminate.
  intros [[H ->%Ascii.eqb_eq]%andb_true_iff ->%Ascii.eqb_eq]%andb_true_iff.
  by exists y1, y2, y3, y4, m1, m2, d1, d2.
Qed.

Lemma fechaTransform_fixed (s : string) :
  isoDateRegex s = true → fechaTransform s = Ok s.
Proof.
  intros H. pose proof H as Hinv.
  apply isoDateRegex_inv in Hinv
    as (y1 & y2 & y3 & y4 & m1 & m2 & d1 & d2 & E & Hd).
  simpl in Hd.
  apply andb_true_iff in Hd as [Hy1 Hd]. apply andb_true_iff in Hd as [Hy2 Hd].
  apply andb_true_iff in Hd as [Hy3 Hd]. apply andb_true_iff in Hd as [Hy4 Hd].
  apply andb_true_iff in Hd as [Hm1 Hd]. apply andb_true_iff in Hd as [Hm2 Hd].
  apply andb_true_iff in Hd as [Hd1 Hd]. apply andb_true_iff in Hd as [Hd2 _].
  assert (Ht : JS.trim s = s).
  { rewrite trim_list, E, trimList_id; [by rewrite <- E, str_chars | |];
      simpl; by apply isDigit_not_space. }
  assert (Hx : excelDateRegex s = None).
  { unfold excelDateRegex. rewrite E.
    assert (D : ∀ r, digits12 (y1 :: y2 :: r) = [([y1; y2], r); ([y1], y2 :: r)])
      by (intros r; unfold digits12; by rewrite Hy1, Hy2).
    rewrite D. cbn -[JS.isDigit existsb digits12 digitsN].
    by rewrite (isDigit_not_separator y3 Hy3), (isDigit_not_separator y2 Hy2). }
  unfold fechaTransform. by rewrite Ht, Hx, H.
Qed.

Lemma hours_text (h1 h2 : ascii) :
  (existsb (Ascii.eqb h1) ["0"; "1"]%char && JS.isDigit h2)
  || (Ascii.eqb h1 "2" && existsb (Ascii.eqb h2) ["0"; "1"; "2"; "3"]%char)
  = true →
  ∃ h, h ≤ 23 ∧ JS.padStart 2 "0" (JS.natToString h) = JS.str [h1; h2].
Proof.
  intros H. exists (JS.parseInt [h1; h2]).
  apply orb_true_iff in H as [H | H]; apply andb_true_iff in H as [Ha Hb].
  - apply existsb_exists in Ha as (x & Hin & ->%Ascii.eqb_eq).
    apply isDigit_cases in Hb. simpl in Hin, Hb.
    destruct Hin as [<- | [<- | []]];
      repeat (destruct Hb as [<- | Hb];
              [split; [vm_compute; lia | reflexivity]|]);
      destruct Hb.
  - apply Ascii.eqb_eq in Ha as ->.
    apply existsb_exists in Hb as (x & Hin & ->%Ascii.eqb_eq). simpl in Hin.
    repeat (destruct Hin as [<- | Hin];
            [split; [vm_compute; lia | reflexivity]|]);
    destruct Hin.
Qed.

Lemma minutes_text (m1 m2 : ascii) :
  existsb (Ascii.eqb m1) ["0"; "1"; "2"; "3"; "4"; "5"]%char = true →
  JS.isDigit m2 = true →
  ∃ m, m ≤ 59 ∧ JS.padStart 2 "0" (JS.natToString m) = JS.str [m1; m2].
Proof.
  intros Ha Hb. exists (JS.parseInt [m1; m2]).
  apply existsb_exists in Ha as (x & Hin & ->%Ascii.eqb_eq).
  apply isDigit_cases in Hb. simpl in Hin, Hb.
  repeat (destruct Hin as [<- | Hin];
          [repeat (destruct Hb as [<- | Hb];
                   [split; [vm_compute; lia | reflexivity]|]);
           destruct Hb|]);
  destruct Hin.
Qed.

Lemma time24Regex_hhmm (t : string) :
  time24Regex t = true → ∃ h m, h ≤ 23 ∧ m ≤ 59 ∧ t = hhmm h m.
Proof.
  unfold time24Regex.
  destruct (JS.chars t) as [|h1 [|h2 [|c [|m1 [|m2 [|? ?]]]]]] eqn:E;
    try discriminate.
  intros H.
  apply andb_true_iff in H as [H Hm2]. apply andb_true_iff in H as [H Hm1].
  apply andb_true_iff in H as [Hh Hc]. apply Ascii.eqb_eq in Hc as ->.
  destruct (hours_text h1 h2 Hh) as (h & Hle & Eh).
  destruct (minutes_text m1 m2 Hm1 Hm2) as (m & Hle' & Em).
  exists h, m. split_and!; [done..|].
  unfold hhmm. rewrite Eh, Em, <- (str_chars t), E. reflexivity.
Qed.

Lemma shiftTransform_fixed (t : string) :
  time24Regex t = true → startshiftTransform (Some t) = Ok (Some t).
Proof.
  intros (h & m & Hh & Hm & ->)%time24Regex_hhmm.
  assert (Hall : forallb (fun h => forallb (fun m => keptByShiftTransform (hhmm h m))
                                     (seq 0 60)) (seq 0 24) = true)
    by (vm_compute; reflexivity).
  rewrite forallb_forall in Hall.
  specialize (Hall h). rewrite forallb_forall in Hall.
  assert (Hk : keptByShiftTransform (hhmm h m) = true)
    by (apply Hall; apply in_seq; lia).
  unfold keptByShiftTransform in Hk.
  destruct (startshiftTransform (Some (hhmm h m))) as [[t'|]|]; try done.
  by apply String.eqb_eq in Hk as <-.
Qed.

Lemma parse_asRowObject (row : ExcelRowInput) (r : ExcelRow) :
  excelRowSchema.parse row = Ok r →
  excelRowSchema.parse (asRowObject r) = Ok r.
Proof.
  intros (H1 & H2 & H3 & H4 & _ & H6)%parse_fields.
  destruct r as [a b c d v f].
  cbn [r_fecha r_turno r_startshift r_endshift r_vacaciones r_notas] in *.
  unfold excelRowSchema.parse, asRowObject.
  cbn [x_fecha x_turno x_startshift x_endshift x_vacaciones x_notas
       r_fecha r_turno r_startshift r_endshift r_vacaciones r_notas].
  assert (F1 : zString "fecha" fechaTransform (JString a) = FOk a).
  { apply fecha_field in H1 as (s & H1). unfold zString.
    by rewrite (fechaTransform_fixed a (fechaTransform_canonical _ _ H1)). }
  assert (F2 : zStringOpt "turno"
                 (fun val => Ok ((fun s => JS.trim (JS.toLowerCase s)) <$> val))
                 (match b with Some s => JString s | None => JUndefined end)
               = FOk b).
  { destruct b as [tb|]; [|done].
    unfold zStringOpt in *. destruct (x_turno row) as [|s| |]; try done.
    injection H2 as <-. cbn [fmap option_fmap option_map].
    by rewrite lower_trim_idem. }
  assert (F3 : zStringOpt "startshift" startshiftTransform
                 (match c with Some s => JString s | None => JUndefined end)
               = FOk c).
  { destruct c as [tc|]; [|done].
    apply shift_field in H3 as (val & H3). unfold zStringOpt.
    by rewrite (shiftTransform_fixed tc (shiftTransform_24h _ _ H3)). }
  assert (F4 : zStringOpt "endshift" endshiftTransform
                 (match d with Some s => JString s | None => JUndefined end)
               = FOk d).
  { destruct d as [td|]; [|done].
    apply (shift_field "endshift") in H4 as (val & H4). unfold zStringOpt.
    change (endshiftTransform (Some td)) with (startshiftTransform (Some td)).
    by rewrite (shiftTransform_fixed td (shiftTransform_24h _ _ H4)). }
  match goal with
  | |- context [zStringOpt "notas" ?g (JString f)] =>
      assert (F6 : zStringOpt "notas" g (JString f) = FOk f)
  end.
  { unfold zStringOpt in *. cbv zeta in *.
    assert (E : (if JS.truthy (JS.trim f) then JS.trim f else "") = f).
    { destruct (x_notas row) as [|s| |]; try done.
      - by injection H6 as <-.
      - injection H6 as <-. cbn [fmap option_fmap option_map truthyStr default].
        destruct (JS.truthy (JS.trim s)) eqn:E; [|done].
        by rewrite trim_idem, E. }
    cbn [fmap option_fmap option_map truthyStr default]. unfold Datatypes.id.
    by rewrite E. }
  rewrite F1, F2, F3, F4, F6. reflexivity.
Qed.

Lemma rowsLoop_ext (rows1 : list ExcelRowInput) :
  ∀ rows2 i warnings validRows,
    map excelRowSchema.parse rows1 = map excelRowSchema.parse rows2 →
    TurnoService.rowsLoop i rows1 warnings validRows
    = TurnoService.rowsLoop i rows2 warnings validRows.
Proof.
  induction rows1 as [|row1 rest1 IH]; intros [|row2 rest2] i ws vs;
    try discriminate; [done|].
  cbn [map]. intros [= E Erest]. cbn [TurnoService.rowsLoop]. rewrite E.
  destruct (excelRowSchema.parse row2) as [r|err]; cbv zeta.
  - by apply IH.
  - destruct err; by apply IH.
Qed.

(** X16.  Validating the rows in the controller before handing them to the
    service changes nothing: a row the schema accepted parses to itself
    again, so the import of the pre-validated sheet leaves the same
    container and returns the same result, warnings included, as the import
    of the sheet as it was read. *)
Theorem prevalidation_is_transparent (excelData : list ExcelRowInput) (w : World) :
  TurnoService.processExcelData (TurnoController.validatedData excelData) w
  = TurnoService.processExcelData excelData w.
Proof.
  unfold TurnoService.processExcelData.
  rewrite (rowsLoop_ext (TurnoController.validatedData excelData) excelData);
    [done|].
  unfold TurnoController.validatedData. rewrite map_map. apply map_ext.
  intros row. destruct (excelRowSchema.parse row) as [r|err] eqn:E; [|done].
  by apply (parse_asRowObject row).
Qed.

(* ===================================================================== *)
(** * Identifiers and the two backends *)
(* ===================================================================== *)

Lemma chars_app (a b : string) : JS.chars (a +:+ b) = JS.chars a ++ JS.chars b.
Proof.
  unfold JS.chars. induction a as [|c a IH]; [done|].
  change (String.list_ascii_of_string (String c (a +:+ b))
          = c :: (String.list_ascii_of_string a ++ String.list_ascii_of_string b)).
  cbn [String.list_ascii_of_string]. by rewrite IH.
Qed.

Lemma chars_inj (a b : string) : JS.chars a = JS.chars b → a = b.
Proof. intros E. by rewrite <- (str_chars a), <- (str_chars b), E. Qed.

Lemma isoDateRegex_length (s : string) :
  isoDateRegex s = true → length (JS.chars s) = 10.
Proof.
  intros (y1 & y2 & y3 & y4 & m1 & m2 & d1 & d2 & -> & _)%isoDateRegex_inv.
  done.
Qed.

Lemma generateTurnoId_chars (fecha : string) (personaId : option string) :
  JS.chars (generateTurnoId fecha personaId)
  = JS.chars fecha
    ++ match personOf personaId with
       | Some p => "_"%char :: JS.chars p
       | None => []
       end.
Proof.
  unfold generateTurnoId, personOf.
  destruct (truthyStr personaId) eqn:E.
  - destruct personaId as [p|]; [|done]. by rewrite !chars_app.
  - by rewrite app_nil_r.
Qed.

(** X17.  On canonical dates the document id determines the key: two
    keys with dates of the form YYYY-MM-DD that [generateTurnoId] maps to
    the same id have the same date and the same person (a falsy
    [personaId] being no person). *)
Theorem generateTurnoId_injective (fecha1 fecha2 : string)
        (persona1 persona2 : option string) :
  isoDateRegex fecha1 = true → isoDateRegex fecha2 = true →
  generateTurnoId fecha1 persona1 = generateTurnoId fecha2 persona2 →
  fecha1 = fecha2 ∧ personOf persona1 = personOf persona2.
Proof.
  intros H1%isoDateRegex_length H2%isoDateRegex_length E.
  apply (f_equal JS.chars) in E. rewrite !generateTurnoId_chars in E.
  apply app_inj_1 in E as [Ef Ep]; [|congruence].
  split; [by apply chars_inj|].
  destruct (personOf persona1) as [p1|], (personOf persona2) as [p2|];
    try done.
  injection Ep as Ep. f_equal. by apply chars_inj.
Qed.

Lemma find_ext_in {A} (f g : A → bool) (l : list A) :
  (∀ x, x ∈ l → f x = g x) → find f l = find g l.
Proof.
  induction l as [|x l IH]; intros H; [done|]. simpl.
  rewrite (H x) by left. destruct (g x); [done|].
  apply IH. intros y Hy. apply H. by right.
Qed.

Lemma loadData_shape (clock : nat → string) (jsonData : list JsonTurnoRepository.JsonTurnoData)
      (d : TurnoDocument) :
  d ∈ JsonTurnoRepository.loadData clock jsonData →
  id d = fecha d ∧ ∃ item, item ∈ jsonData ∧ fecha d = JsonTurnoRepository.j_fecha item.
Proof.
  unfold JsonTurnoRepository.loadData.
  intros (i & item & -> & Hi)%elem_of_lookup_imap.
  split; [done|]. exists item. split; [|done]. by eapply list_elem_of_lookup_2.
Qed.

Lemma string_app_neq (a b : string) : b ≠ "" → a +:+ b ≠ a.
Proof.
  intros Hb E. apply (f_equal JS.chars) in E. rewrite chars_app in E.
  rewrite <- (app_nil_r (JS.chars a)) in E at 2.
  apply app_inv_head in E. apply Hb. by apply chars_inj.
Qed.

Lemma isoDateRegex_no_underscore (s a b : string) :
  isoDateRegex s = true → s ≠ a +:+ "_" +:+ b.
Proof.
  intros (y1 & y2 & y3 & y4 & m1 & m2 & d1 & d2 & E & Hd)%isoDateRegex_inv ->.
  rewrite !chars_app in E.
  assert (Hin : In "_"%char [y1; y2; y3; y4; "-"; m1; m2; "-"; d1; d2]%char).
  { rewrite <- E. apply in_or_app. right. by left. }
  simpl in Hd.
  repeat (apply andb_true_iff in Hd as [? Hd]).
  simpl in Hin.
  repeat (destruct Hin as [Hx | Hin];
          [first [ discriminate Hx
                 | subst;
                   match goal with
                   | D : JS.isDigit "_" = true |- _ => discriminate D
                   end ]|]).
  done.
Qed.

(** X18.  The development backend answers a lookup by date as the Cosmos
    backend does on the same documents: for the documents [loadData] builds
    from a file whose dates have the form YYYY-MM-DD, and a call the
    network answers, [findByFecha] of both repositories returns the same
    document or both return nothing, for every date and person asked for. *)
Theorem findByFecha_backends_agree (clock : nat → string)
        (jsonData : list JsonTurnoRepository.JsonTurnoData) (date : string)
        (persona : option string) (w : World) :
  Forall (fun item => isoDateRegex (JsonTurnoRepository.j_fecha item) = true) jsonData →
  container w = JsonTurnoRepository.loadData clock jsonData →
  fault w (calls w) = false →
  TurnoRepository.findByFecha date persona w
  = (afterCall w (container w),
     Ok (JsonTurnoRepository.findByFecha
           (JsonTurnoRepository.loadData clock jsonData) date persona)).
Proof.
  intros Hiso Hc Hf.
  unfold TurnoRepository.findByFecha, JsonTurnoRepository.findByFecha,
    JsonTurnoRepository.findById.
  rewrite findById_run, Hf, Hc. do 2 f_equal.
  unfold stored. apply find_ext_in. intros d Hd.
  apply loadData_shape in Hd as (Hid & item & Hitem & Hfe).
  unfold sameItem. cbn [fst snd]. rewrite Hid.
  destruct (String.eqb_spec (fecha d) (generateTurnoId date persona)) as [E|E];
    [|done].
  cbn [andb]. unfold generateTurnoId in E.
  destruct (truthyStr persona).
  - exfalso. rewrite Forall_forall in Hiso. specialize (Hiso item Hitem).
    rewrite <- Hfe, E in Hiso.
    by eapply isoDateRegex_no_underscore in Hiso.
  - rewrite E. apply String.eqb_refl.
Qed.

(* ===================================================================== *)
(** * The body the controller validated *)
(* ===================================================================== *)

Lemma parse_asBody (data : TurnoInput) (v : TurnoInsert) :
  turnoInsertSchema.parse data = Ok v →
  turnoInsertSchema.parse (asBody v) = Ok v.
Proof.
  unfold turnoInsertSchema.parse.
  destruct (zRegex _ _ _ (in_fecha data)) as [e1 f] eqn:E1.
  destruct (zOptional _ _ "turno" _) as [e2 t] eqn:E2.
  destruct (zOptional _ _ "startShift" _) as [e3 s] eqn:E3.
  destruct (zOptional _ _ "endShift" _) as [e4 e] eqn:E4.
  destruct (zOptional _ _ "personaId" _) as [e5 p] eqn:E5.
  destruct (e1 ++ e2 ++ e3 ++ e4 ++ e5) eqn:Eall; [|discriminate].
  apply app_eq_nil in Eall as [-> Eall]. apply app_eq_nil in Eall as [-> Eall].
  apply app_eq_nil in Eall as [-> Eall]. apply app_eq_nil in Eall as [-> ->].
  intros [= <-]. unfold asBody.
  cbn [in_fecha in_turno in_startShift in_endShift in_esVacaciones in_notas
       in_personaId i_fecha i_turno i_startShift i_endShift i_esVacaciones
       i_notas i_personaId].
  assert (F1 : zRegex isoDateRegex msgFecha "fecha" (Value f) = ([], f)).
  { unfold zRegex in *. destruct (in_fecha data) as [| |x]; try done.
    destruct (isoDateRegex x) eqn:Ex; [|done].
    injection E1 as <-. by rewrite Ex. }
  assert (F : ∀ ok msg name x y,
             zOptional ok msg name x = ([], y) →
             zOptional ok msg name y = ([], y)).
  { intros ok msg name x y. unfold zOptional.
    destruct x as [| |z]; try (by intros [= <-]).
    destruct (ok z) eqn:Ez; [|done]. intros [= <-]. by rewrite Ez. }
  rewrite F1, (F _ _ _ _ _ E2), (F _ _ _ _ _ E3), (F _ _ _ _ _ E4),
    (F _ _ _ _ _ E5).
  reflexivity.
Qed.

(** X19.  The validation in the controller and the one in the service
    compose: a body [turnoInsertSchema] accepted is accepted unchanged when
    the service parses it again, so [upsertTurno] on the validated body does
    what it does on the body as it was sent. *)
Theorem accepted_body_passes_service (data : TurnoInput) (v : TurnoInsert)
        (w : World) :
  turnoInsertSchema.parse data = Ok v →
  turnoInsertSchema.parse (asBody v) = Ok v
  ∧ TurnoService.upsertTurno (asBody v) w = TurnoService.upsertTurno data w.
Proof.
  intros Hp. pose proof (parse_asBody data v Hp) as Hb.
  split; [done|].
  unfold TurnoService.upsertTurno, tryCatch, TurnoService.validate.
  by rewrite Hp, Hb.
Qed.

(* ===================================================================== *)
(** * Dates as strings *)
(* ===================================================================== *)

Lemma digit_compare (c c' : ascii) :
  JS.isDigit c = true → JS.isDigit c' = true →
  Ascii.compare c c' = (JS.digitVal c ?= JS.digitVal c')
  ∧ JS.digitVal c ≤ 9 ∧ JS.digitVal c' ≤ 9.
Proof.
  unfold JS.isDigit, JS.digitVal, Ascii.compare.
  intros [H1 H2]%andb_true_iff [H3 H4]%andb_true_iff.
  apply Nat.leb_le in H1, H2, H3, H4.
  split; [|lia].
  rewrite N2Nat.inj_compare.
  change (N.to_nat (N_of_ascii c)) with (nat_of_ascii c).
  change (N.to_nat (N_of_ascii c')) with (nat_of_ascii c').
  destruct (Nat.compare_spec (nat_of_ascii c) (nat_of_ascii c')) as [E|E|E];
    symmetry.
  - apply Nat.compare_eq_iff. lia.
  - apply Nat.compare_lt_iff. lia.
  - apply Nat.compare_gt_iff. lia.
Qed.

Lemma iso_compare (a b : string) :
  isoDateRegex a = true → isoDateRegex b = true →
  String.compare a b = (dateNumber a ?= dateNumber b)%Z.
Proof.
  intros (a1 & a2 & a3 & a4 & a5 & a6 & a7 & a8 & Ea & Ha)%isoDateRegex_inv
         (b1 & b2 & b3 & b4 & b5 & b6 & b7 & b8 & Eb & Hb)%isoDateRegex_inv.
  unfold dateNumber. rewrite Ea, Eb.
  rewrite <- (str_chars a), <- (str_chars b), Ea, Eb.
  cbn [forallb] in Ha, Hb.
  apply andb_true_iff in Ha as [A1 Ha]. apply andb_true_iff in Ha as [A2 Ha].
  apply andb_true_iff in Ha as [A3 Ha]. apply andb_true_iff in Ha as [A4 Ha].
  apply andb_true_iff in Ha as [A5 Ha]. apply andb_true_iff in Ha as [A6 Ha].
  apply andb_true_iff in Ha as [A7 Ha]. apply andb_true_iff in Ha as [A8 _].
  apply andb_true_iff in Hb as [B1 Hb]. apply andb_true_iff in Hb as [B2 Hb].
  apply andb_true_iff in Hb as [B3 Hb]. apply andb_true_iff in Hb as [B4 Hb].
  apply andb_true_iff in Hb as [B5 Hb]. apply andb_true_iff in Hb as [B6 Hb].
  apply andb_true_iff in Hb as [B7 Hb]. apply andb_true_iff in Hb as [B8 _].
  destruct (digit_compare a1 b1 A1 B1) as (C1 & ? & ?).
  destruct (digit_compare a2 b2 A2 B2) as (C2 & ? & ?).
  destruct (digit_compare a3 b3 A3 B3) as (C3 & ? & ?).
  destruct (digit_compare a4 b4 A4 B4) as (C4 & ? & ?).
  destruct (digit_compare a5 b5 A5 B5) as (C5 & ? & ?).
  destruct (digit_compare a6 b6 A6 B6) as (C6 & ? & ?).
  destruct (digit_compare a7 b7 A7 B7) as (C7 & ? & ?).
  destruct (digit_compare a8 b8 A8 B8) as (C8 & ? & ?).
  cbn [JS.str String.string_of_list_ascii String.compare].
  rewrite C1, C2, C3, C4, C5, C6, C7, C8.
  change (Ascii.compare "-" "-") with Eq. cbv iota.
  unfold JS.parseInt, JS.digitsVal. cbn [fold_left].
  generalize dependent (JS.digitVal a1). generalize dependent (JS.digitVal a2).
  generalize dependent (JS.digitVal a3). generalize dependent (JS.digitVal a4).
  generalize dependent (JS.digitVal a5). generalize dependent (JS.digitVal a6).
  generalize dependent (JS.digitVal a7). generalize dependent (JS.digitVal a8).
  generalize dependent (JS.digitVal b1). generalize dependent (JS.digitVal b2).
  generalize dependent (JS.digitVal b3). generalize dependent (JS.digitVal b4).
  generalize dependent (JS.digitVal b5). generalize dependent (JS.digitVal b6).
  generalize dependent (JS.digitVal b7). generalize dependent (JS.digitVal b8).
  intros.
  repeat match goal with
         | |- match Nat.compare ?x ?y with Eq => _ | Lt => _ | Gt => _ end = _ =>
             destruct (Nat.compare_spec x y) as [E| |];
             [ rewrite E in *; clear E
             | symmetry; apply Z.compare_lt_iff; lia
             | symmetry; apply Z.compare_gt_iff; lia ]
         end.
  symmetry. apply Z.compare_refl.
Qed.

(** X20.  The queries compare dates as strings, and on dates of the form
    YYYY-MM-DD that is the order of the calendar: the WHERE clause of
    [findByDateRange] selects a document exactly when its date lies between
    the two bounds (both included), and the one of [deleteOlderThan] exactly
    when its date lies before the cut-off. *)
Theorem range_query_is_date_range (from to date : string) (d : TurnoDocument) :
  isoDateRegex from = true → isoDateRegex to = true →
  isoDateRegex date = true → isoDateRegex (fecha d) = true →
  (TurnoRepository.rangeWhere from to None d = true
   ↔ (dateNumber from <= dateNumber (fecha d) <= dateNumber to)%Z)
  ∧ (olderThan date d = true ↔ (dateNumber (fecha d) < dateNumber date)%Z).
Proof.
  intros Hf Ht Hd Hx.
  unfold TurnoRepository.rangeWhere, olderThan, String.leb, String.ltb.
  rewrite !iso_compare by done. cbn [truthyStr]. rewrite andb_true_r.
  destruct (Z.compare_spec (dateNumber from) (dateNumber (fecha d)));
    destruct (Z.compare_spec (dateNumber (fecha d)) (dateNumber to));
    destruct (Z.compare_spec (dateNumber (fecha d)) (dateNumber date));
    cbn [andb]; (split; split; intros; first [done | lia | exfalso; lia]).
Qed.

(* ===================================================================== *)
(** * The properties on the sample data *)
(* ===================================================================== *)

(** Against C1 as stated: the morning shift of 2025-01-01 is stored with
    the times 07:00 and 15:00; an upsert for the same date whose input
    carries neither [startShift] nor [endShift] stores a record that still
    has both times. *)
Lemma upsert_keeps_omitted_times :
  ∃ w' d,
    stored (container morningWorld) ("2025-01-01", "2025-01-01") = Some morningDoc
    ∧ in_startShift (plainInput "2025-01-01" "tarde") = Missing
    ∧ in_endShift (plainInput "2025-01-01" "tarde") = Missing
    ∧ TurnoService.upsertTurno (plainInput "2025-01-01" "tarde") morningWorld
      = (w', Ok (Some d))
    ∧ stored (container w') ("2025-01-01", "2025-01-01") = Some d
    ∧ turno d = Some "tarde"
    ∧ startShift d = Some "07:00"
    ∧ endShift d = Some "15:00".
Proof. eexists _, _. split_and!; vm_compute; reflexivity. Qed.

Lemma upsert_existing_merges_witness :
  ∃ w' d,
    TurnoRepository.upsert (plainCandidate "2025-01-01" "tarde") morningWorld
    = (w', Ok (Some d))
    ∧ turno d = Some "tarde"
    ∧ startShift d = Some "07:00"
    ∧ endShift d = Some "15:00"
    ∧ createdAt d = "T0"
    ∧ updatedAt d = "T1".
Proof.
  destruct (upsert_existing_merges (plainCandidate "2025-01-01" "tarde")
              morningWorld morningDoc)
    as (w' & d & Hrun & _ & _ & _ & _ & _ & _ & Ht & Hs & He & _ & Hc & Hu);
    [reflexivity | reflexivity | reflexivity | reflexivity |].
  exists w', d. rewrite Ht, Hs, He, Hc, Hu.
  split_and!; [exact Hrun | reflexivity ..].
Defined.

Lemma vacation_clears_shift_witness :
  (∃ w' d,
     TurnoService.upsertTurno vacationInput emptyWorld = (w', Ok (Some d))
     ∧ turno d = None ∧ startShift d = None ∧ endShift d = None)
  ∧ (∃ w' r d,
       TurnoService.processExcelData [vacationRow] emptyWorld = (w', Ok r)
       ∧ items r = [Some d]
       ∧ turno d = None ∧ startShift d = None ∧ endShift d = None).
Proof.
  destruct vacation_clears_shift as [Hsingle Hexcel]. split.
  - destruct (TurnoService.upsertTurno vacationInput emptyWorld) as [w' r] eqn:E.
    pose proof E as E'. vm_compute in E'. injection E' as <- <-.
    destruct (Hsingle vacationInput _ _ _ eq_refl E) as (d' & [= <-] & _ & Ht & Hs & He).
    eexists _, _. split; [reflexivity|]. by split_and!.
  - destruct (TurnoService.processExcelData [vacationRow] emptyWorld) as [w' r] eqn:E.
    pose proof E as E'. vm_compute in E'. injection E' as <- <-.
    eexists _, _, _. split; [reflexivity|]. split; [reflexivity|].
    eapply Hexcel; [exact E | by left | reflexivity].
Defined.

Lemma time_order_rule_witness :
  TurnoService.validate esAR (shiftInput "2025-01-01" "noche" "22:00" "06:00")
  = Err InvalidTimeOrder
  ∧ TurnoService.validate esAR (shiftInput "2025-01-01" "noche" "22:00" "00:00")
    ≠ Err InvalidTimeOrder.
Proof.
  destruct time_order_rule as [Hrule _]. split.
  - destruct (turnoInsertSchema.parse
                (shiftInput "2025-01-01" "noche" "22:00" "06:00")) as [v | err] eqn:E;
      [|discriminate E].
    pose proof E as E'. vm_compute in E'. injection E' as <-.
    destruct (Hrule esAR _ _ "22:00" "06:00" E eq_refl eq_refl) as (_ & _ & Hiff).
    apply Hiff. split; [apply Nat.leb_le; reflexivity | discriminate].
  - destruct (turnoInsertSchema.parse
                (shiftInput "2025-01-01" "noche" "22:00" "00:00")) as [v | err] eqn:E;
      [|discriminate E].
    pose proof E as E'. vm_compute in E'. injection E' as <-.
    destruct (Hrule esAR _ _ "22:00" "00:00" E eq_refl eq_refl) as (_ & _ & Hiff).
    intros Hbad. apply Hiff in Hbad as [_ Hne]. by apply Hne.
Defined.

Lemma bulkUpsert_accounting_witness :
  ∃ w' r,
    TurnoRepository.bulkUpsert threeCandidates flakyWorld = (w', Ok r)
    ∧ (inserted r, updated r, skipped r) = (1, 1, 1)
    ∧ warnings r = [WStorage "2025-01-02" (CosmosError 503)]
    ∧ (fecha <$> container w') = ["2025-01-01"; "2025-01-03"]
    ∧ calls w' = 9.
Proof.
  assert (Hnd : NoDup (keyOf <$> threeCandidates)).
  { apply (bool_decide_unpack _). by vm_compute. }
  destruct (bulkUpsert_accounting threeCandidates flakyWorld Hnd)
    as (w' & r & docs & outs & Hrun & _).
  exists w', r. split; [exact Hrun|].
  vm_compute in Hrun. injection Hrun as <- <-.
  split_and!; reflexivity.
Defined.

(** Against C6 as stated: a stored day that is neither vacation nor
    assigned to a shift makes [total - vacaciones] exceed the sum of the
    counters of [porTurno]. *)
Lemma getStats_sum_counterexample :
  ∃ w' s,
    TurnoRepository.getStats None None bareDayWorld = (w', Ok s)
    ∧ esVacaciones <$> container bareDayWorld = [false]
    ∧ turno <$> container bareDayWorld = [None]
    ∧ total s = 1
    ∧ vacaciones s = 0
    ∧ sumCounts (porTurno s) = 0
    ∧ sumCounts (porTurno s) ≠ total s - vacaciones s.
Proof.
  eexists _, _. split; [vm_compute; reflexivity|].
  split_and!; try (vm_compute; reflexivity).
  vm_compute. discriminate.
Qed.

Lemma getStats_counts_witness :
  ∃ w' s,
    TurnoRepository.getStats (Some "2025-01-01") (Some "2025-01-31")
      (TurnoService.processExcelData scenarioRows emptyWorld).1 = (w', Ok s)
    ∧ total s = 2
    ∧ vacaciones s = 1
    ∧ porTurno s !! "mañana" = Some (JS.CNum 1)
    ∧ porTurno s !! "tarde" = None
    ∧ sumCounts (porTurno s) = 1
    ∧ sumCounts (porTurno s) = total s - vacaciones s.
Proof.
  destruct (getStats_counts (Some "2025-01-01") (Some "2025-01-31")
              (TurnoService.processExcelData scenarioRows emptyWorld).1 eq_refl)
    as (w' & s & Hrun & Ht & Hv & Hk & Hsum).
  cbv zeta in Hsum.
  set (selected := List.filter _ _) in *.
  assert (Hord : ∀ t, t ∈ selected → hasShift t = true →
                   ordinaryName (default "" (turno t)) = true).
  { apply (proj1 (Forall_forall
                    (fun t => hasShift t = true →
                              ordinaryName (default "" (turno t)) = true)
                    selected)).
    apply (bool_decide_unpack _). by vm_compute. }
  assert (Hshift : ∀ t, t ∈ selected → esVacaciones t = false →
                     truthyStr (turno t) = true).
  { apply (proj1 (Forall_forall
                    (fun t => esVacaciones t = false →
                              truthyStr (turno t) = true)
                    selected)).
    apply (bool_decide_unpack _). by vm_compute. }
  destruct (Hsum Hord) as (_ & Hp & _ & Hall).
  exists w', s.
  rewrite <- (Hall Hshift), Hp, Ht, Hv, (Hk "mañana" eq_refl), (Hk "tarde" eq_refl).
  split_and!; [exact Hrun | reflexivity ..].
Defined.

Lemma normalizeDateInput_spec_witness :
  normalizeDateInput esAR "2025-01-15" None = Ok "2025-01-15"
  ∧ normalizeDateInput esAR "15/1/2025" None = Ok "2025-01-15"
  ∧ normalizeDateInput esAR "15.1.2025" None = Err (InvalidDateFormat "15.1.2025").
Proof.
  destruct (normalizeDateInput_spec esAR None "2025-01-15" "15.1.2025")
    as (Hsame & Hshort & Hbad).
  split_and!; [apply Hsame | apply Hshort | apply Hbad]; reflexivity.
Defined.

Lemma incomplete_range_rule_witness :
  TurnoService.validate esAR halfRangeInput = Err IncompleteTimeRange.
Proof.
  destruct (turnoInsertSchema.parse halfRangeInput) as [v | err] eqn:E;
    [|discriminate E].
  pose proof E as E'. vm_compute in E'. injection E' as <-.
  apply (incomplete_range_rule esAR _ _ E).
  left. split; [by eexists | reflexivity].
Defined.

(** Against C10 as stated: three stored records without the vacation flag
    carry a shift type that is the name of a property every plain object
    inherits.  Both backends leave the one under [__proto__] out of
    [porTurno], and both hold a text instead of the number 2 under
    [constructor]; the record with a declared shift type is counted. *)
Lemma getStats_inherited_name_counterexample :
  ∃ s,
    (TurnoRepository.getStats None None inheritedWorld).2 = Ok s
    ∧ JsonTurnoRepository.getStats (container inheritedWorld) None None = s
    ∧ esVacaciones <$> container inheritedWorld = [false; false; false; false]
    ∧ turno <$> container inheritedWorld
      = [Some "__proto__"; Some "constructor"; Some "constructor"; Some "noche"]
    ∧ total s = 4
    ∧ vacaciones s = 0
    ∧ porTurno s !! "__proto__" = None
    ∧ porTurno s !! "constructor"
      = Some (JS.CStr "function Object() { [native code] }11")
    ∧ porTurno s !! "noche" = Some (JS.CNum 1)
    ∧ sumCounts (porTurno s) = 1.
Proof.
  eexists. split; [vm_compute; reflexivity|].
  split_and!; vm_compute; reflexivity.
Qed.

Lemma getStats_backends_agree_witness :
  ∃ s,
    (TurnoRepository.getStats (Some "2025-01-02") None
       (TurnoService.processExcelData scenarioRows emptyWorld).1).2 = Ok s
    ∧ JsonTurnoRepository.getStats
        (container (TurnoService.processExcelData scenarioRows emptyWorld).1)
        (Some "2025-01-02") None = s
    ∧ total s = 1
    ∧ vacaciones s = 1
    ∧ porTurno s !! "mañana" = None
    ∧ porTurno s !! "__proto__" = None.
Proof.
  destruct (getStats_backends_agree (Some "2025-01-02") None
              (TurnoService.processExcelData scenarioRows emptyWorld).1 eq_refl)
    as (s & Hc & Hj & Ht & Hv & Hk & Hn).
  exists s. rewrite Ht, Hv, (Hk "mañana" eq_refl), (Hn "__proto__").
  - split_and!; [exact Hc | exact Hj | reflexivity ..].
  - apply (proj1 (Forall_forall (fun t => hasShiftType "__proto__" t = false) _)).
    apply (bool_decide_unpack _). by vm_compute.
Defined.

(** ** The further properties on the sample data *)

Lemma delete_then_find_witness :
  ∃ w',
    TurnoRepository.delete "2025-01-01" "2025-01-01" morningWorld = (w', Ok true)
    ∧ stored (container w') ("2025-01-01", "2025-01-01") = None
    ∧ stored (container morningWorld) ("2025-01-01", "2025-01-01") = Some morningDoc.
Proof.
  destruct (delete_then_find "2025-01-01" "2025-01-01" morningWorld eq_refl)
    as (w' & Hrun & Hs & _).
  exists w'. split_and!; [exact Hrun | exact Hs | reflexivity].
Defined.



Lemma upsert_twice_witness :
  ∃ w1 d1 w2,
    TurnoRepository.upsert (plainCandidate "2025-01-02" "noche") morningWorld
    = (w1, Ok (Some d1))
    ∧ TurnoRepository.upsert (plainCandidate "2025-01-02" "noche") w1
      = (w2, Ok (Some (touched d1 (clock w1 (ticks w1)))))
    ∧ length (container w2) = length (container w1).
Proof.
  destruct (TurnoRepository.upsert (plainCandidate "2025-01-02" "noche")
              morningWorld) as [w1 r] eqn:E.
  pose proof E as E'. vm_compute in E'. injection E' as <- <-.
  destruct (upsert_twice _ _ _ _ E eq_refl eq_refl eq_refl)
    as (w2 & Hrun & _ & Hlen).
  eexists _, _, w2. split_and!; [reflexivity | exact Hrun | exact Hlen].
Defined.

Lemma create_free_or_conflict_witness :
  (∃ w',
     TurnoRepository.create (plainCandidate "2025-01-01" "tarde") morningWorld
     = (w', Err (AlreadyExists "2025-01-01"))
     ∧ container w' = container morningWorld)
  ∧ (∃ w',
       TurnoRepository.create (plainCandidate "2025-01-02" "tarde") morningWorld
       = (w', Ok (createTurnoDocument (clock morningWorld (ticks morningWorld))
                    (plainCandidate "2025-01-02" "tarde")))
       ∧ length (container w') = S (length (container morningWorld))).
Proof.
  split.
  - destruct (create_free_or_conflict (plainCandidate "2025-01-01" "tarde")
                morningWorld eq_refl) as (w' & r & Hrun & Hm).
    assert (Hs : stored (container morningWorld)
                   (keyOf (plainCandidate "2025-01-01" "tarde")) = Some morningDoc)
      by reflexivity.
    rewrite Hs in Hm. destruct Hm as [-> Hc]. by exists w'.
  - destruct (create_free_or_conflict (plainCandidate "2025-01-02" "tarde")
                morningWorld eq_refl) as (w' & r & Hrun & Hm).
    assert (Hs : stored (container morningWorld)
                   (keyOf (plainCandidate "2025-01-02" "tarde")) = None)
      by reflexivity.
    rewrite Hs in Hm. destruct Hm as (-> & _ & Hl). by exists w'.
Defined.

Lemma update_never_creates_witness :
  TurnoRepository.update "2025-02-01"
    (asUpdate (plainCandidate "2025-02-01" "tarde")) morningWorld
  = (afterCall morningWorld (container morningWorld), Ok None)
  ∧ docKey <$> container
      (TurnoRepository.update "2025-01-01"
         (asUpdate (plainCandidate "2025-01-01" "tarde")) morningWorld).1
    = docKey <$> container morningWorld.
Proof.
  split.
  - apply (update_never_creates "2025-02-01"
             (asUpdate (plainCandidate "2025-02-01" "tarde")) morningWorld);
      reflexivity.
  - apply (update_never_creates "2025-01-01"
             (asUpdate (plainCandidate "2025-01-01" "tarde")) morningWorld).
Defined.

Lemma writes_keep_unique_keys_witness :
  uniqueKeys (container morningWorld)
  ∧ uniqueKeys (container (TurnoService.processExcelData scenarioRows morningWorld).1)
  ∧ uniqueKeys (container (TurnoRepository.deleteOlderThan "2025-01-02" januaryWorld).1).
Proof.
  destruct writes_keep_unique_keys as (_ & _ & _ & _ & _ & Hdel & _ & Himp).
  assert (H1 : uniqueKeys (container morningWorld))
    by (apply (bool_decide_unpack _); by vm_compute).
  assert (H2 : uniqueKeys (container januaryWorld))
    by (apply (bool_decide_unpack _); by vm_compute).
  split_and!; [exact H1 | by apply Himp | by apply Hdel].
Defined.

Lemma findByDateRange_sorted_witness :
  ∃ l,
    TurnoRepository.findByDateRange "2025-01-01" "2025-01-31" None januaryWorld
    = (afterCall januaryWorld (container januaryWorld), Ok l)
    ∧ Sorted fechaAsc l
    ∧ fecha <$> l = ["2025-01-01"; "2025-01-02"].
Proof.
  destruct (findByDateRange_sorted "2025-01-01" "2025-01-31" None januaryWorld
              eq_refl) as (l & Hrun & Hs & _).
  exists l. split_and!; [exact Hrun | exact Hs |].
  assert (E : (TurnoRepository.findByDateRange "2025-01-01" "2025-01-31" None
                 januaryWorld).2 = Ok l) by (by rewrite Hrun).
  vm_compute in E. injection E as <-. reflexivity.
Defined.

Lemma deleteOlderThan_exact_witness :
  ∃ w' n,
    TurnoRepository.deleteOlderThan "2025-01-02" januaryWorld = (w', Ok n)
    ∧ n = 1
    ∧ fecha <$> container w' = ["2025-01-02"].
Proof.
  assert (Hu : uniqueKeys (container januaryWorld))
    by (apply (bool_decide_unpack _); by vm_compute).
  destruct (deleteOlderThan_exact "2025-01-02" januaryWorld Hu eq_refl)
    as (w' & n & Hrun & _ & _ & _ & Hall).
  destruct (Hall (fun _ => eq_refl)) as [Hn Hc].
  exists w', n. rewrite Hc, Hn.
  split_and!; [by rewrite <- Hn | reflexivity | reflexivity].
Defined.

Lemma rejected_input_never_stored_witness :
  TurnoService.upsertTurno halfRangeInput morningWorld
  = (morningWorld, Err IncompleteTimeRange).
Proof.
  apply (rejected_input_never_stored halfRangeInput morningWorld
           IncompleteTimeRange).
  reflexivity.
Defined.

Lemma upsertTurno_keeps_pairing_witness :
  Forall paired (container morningWorld)
  ∧ Forall paired
      (container (TurnoService.upsertTurno
                    (shiftInput "2025-01-03" "tarde" "15:00" "23:00")
                    morningWorld).1).
Proof.
  assert (Hp : Forall paired (container morningWorld)).
  { apply Forall_forall. intros d Hd. vm_compute in Hd.
    apply list_elem_of_singleton in Hd as ->. split; intros _; by eexists. }
  split; [exact Hp|].
  apply upsertTurno_keeps_pairing; [discriminate | discriminate | exact Hp].
Defined.

Lemma parsed_row_wellformed_witness :
  ∃ r,
    excelRowSchema.parse eveningRow = Ok r
    ∧ r_startshift r = Some "19:30"
    ∧ isoDateRegex (r_fecha r) = true
    ∧ time24Regex "19:30" = true.
Proof.
  destruct (excelRowSchema.parse eveningRow) as [r | err] eqn:E;
    [|discriminate E].
  pose proof E as E'. vm_compute in E'. injection E' as <-.
  destruct (parsed_row_wellformed _ _ E) as (Hf & Hs & _).
  eexists. split_and!; [reflexivity | reflexivity | exact Hf |].
  by apply Hs.
Defined.

Lemma generateTurnoId_injective_witness :
  generateTurnoId "2025-01-01" (Some "") = generateTurnoId "2025-01-01" None
  ∧ personOf (Some "") = personOf None.
Proof.
  split; [reflexivity|].
  apply (generateTurnoId_injective "2025-01-01" "2025-01-01" (Some "") None);
    reflexivity.
Defined.

Lemma findByFecha_backends_agree_witness :
  (TurnoRepository.findByFecha "2025-01-02" None jsonWorld).2
  = Ok (JsonTurnoRepository.findByFecha
          (JsonTurnoRepository.loadData (clock emptyWorld) jsonFile)
          "2025-01-02" None)
  ∧ is_Some (JsonTurnoRepository.findByFecha
               (JsonTurnoRepository.loadData (clock emptyWorld) jsonFile)
               "2025-01-02" None).
Proof.
  split; [|by eexists].
  rewrite (findByFecha_backends_agree (clock emptyWorld) jsonFile
             "2025-01-02" None jsonWorld);
    [reflexivity | by repeat constructor | reflexivity | reflexivity].
Defined.

Lemma accepted_body_passes_service_witness :
  ∃ v,
    turnoInsertSchema.parse (shiftInput "2025-01-01" "noche" "22:00" "23:00")
    = Ok v
    ∧ turnoInsertSchema.parse (asBody v) = Ok v
    ∧ TurnoService.upsertTurno (asBody v) emptyWorld
      = TurnoService.upsertTurno
          (shiftInput "2025-01-01" "noche" "22:00" "23:00") emptyWorld.
Proof.
  destruct (turnoInsertSchema.parse
              (shiftInput "2025-01-01" "noche" "22:00" "23:00"))
    as [v | err] eqn:E; [|discriminate E].
  pose proof E as E'. vm_compute in E'. injection E' as <-.
  destruct (accepted_body_passes_service _ _ emptyWorld E) as [Hp Hu].
  eexists. split_and!; [reflexivity | exact Hp | exact Hu].
Defined.

Lemma range_query_is_date_range_witness :
  (dateNumber "2025-01-01" <= dateNumber (fecha morningDoc)
   <= dateNumber "2025-01-31")%Z
  ∧ (dateNumber (fecha morningDoc) < dateNumber "2025-02-01")%Z.
Proof.
  destruct (range_query_is_date_range "2025-01-01" "2025-01-31" "2025-02-01"
              morningDoc eq_refl eq_refl eq_refl eq_refl) as [Hr Ho].
  split; [apply Hr | apply Ho]; reflexivity.
Defined.

